(** * FarmGPS: the streaming NMEA / Trimble sentence decoder

    A shallow embedding of [src/FarmGPS.h] and [src/FarmGPS.cpp], and the
    properties of the decoder stated in the specification.

    Data model.  The library targets the 8-bit Arduino boards: [byte] is an
    unsigned 8-bit integer, [int] a 16-bit two's complement integer and
    [unsigned long] a 32-bit unsigned integer.  Integers are modelled as [Z]
    with the wrap-around written out ([to_byte], [to_int], [to_ulong]).
    A [char] is modelled by its numeric value, whatever the signedness of
    [char] on the target: every use the decoder makes of a character either
    compares it with a constant, stores it, or converts it with [byte(c)].
    Memory reads and writes of the 20-byte term buffer go through [term_at]
    and [term_put], which report an access outside the buffer as
    [OutOfBounds].  Floating point values are kept abstract behind the
    interface [FloatOps].  The clock is an input: [decode] and [parse_term]
    take the value [millis()] has during the call. *)

From Stdlib Require Import ZArith List Bool Lia String Ascii QArith.
From stdpp Require Import base tactics option list.
Local Open Scope Z_scope.

(** ** Machine integers *)

Definition to_byte (x : Z) : Z := x mod 256.
Definition to_int (x : Z) : Z := (x + 32768) mod 65536 - 32768.
Definition to_ulong (x : Z) : Z := x mod 4294967296.

(** ** Characters and string literals *)

Definition char_of_ascii (a : ascii) : Z := Z.of_nat (nat_of_ascii a).

(** The characters of a literal, without the terminating NUL. *)
Definition chars (s : string) : list Z := map char_of_ascii (list_ascii_of_string s).

(** A string literal as it lies in memory: its characters and a NUL. *)
Definition c_literal (s : string) : list Z := chars s ++ [0].

Definition GPGGA_TERM : list Z := Eval cbv in c_literal "GPGGA".
Definition GPVTG_TERM : list Z := Eval cbv in c_literal "GPVTG".
Definition GPXTE_TERM : list Z := Eval cbv in c_literal "GPXTE".
Definition ROXTE_TERM : list Z := Eval cbv in c_literal "ROXTE".

Definition GPS_INVALID_LONG : Z := 4294967295.

(** [#define GPS_NO_STATS] in FarmGPS.h: the statistics are compiled out. *)
Definition GPS_NO_STATS : bool := true.

(** [sizeof (term)] *)
Definition sizeof_term : Z := 20.

(** ** Results of code that indexes the term buffer *)

Inductive outcome (A : Type) : Type :=
| Done (a : A)
| OutOfBounds.
Arguments Done {A} a.
Arguments OutOfBounds {A}.

#[global] Instance outcome_bind : MBind outcome := fun A B k m =>
  match m with
  | Done a => k a
  | OutOfBounds => OutOfBounds
  end.

(** [t[i]] as an rvalue. *)
Definition term_at (t : list Z) (i : Z) : outcome Z :=
  if i <? 0 then OutOfBounds
  else match t !! Z.to_nat i with
       | Some x => Done x
       | None => OutOfBounds
       end.

(** [t[i] = v]. *)
Definition term_put (t : list Z) (i : Z) (v : Z) : outcome (list Z) :=
  if (0 <=? i) && (i <? Z.of_nat (length t))
  then Done (<[Z.to_nat i := v]> t)
  else OutOfBounds.

(** The characters of the C string that starts at the beginning of a buffer;
    running off the buffer before a NUL is an out-of-bounds read. *)
Fixpoint c_str (buf : list Z) : outcome (list Z) :=
  match buf with
  | [] => OutOfBounds
  | c :: rest => if c =? 0 then Done [] else (r ← c_str rest; Done (c :: r))
  end.

(** ** The floating point interface *)

Class FloatOps (F : Type) := {
  (** [atof] of stdlib.h on the characters of a C string, as a [float] *)
  atof : list Z -> F;
  float_of_int : Z -> F;
  (** conversion of a [float] to [int] (truncation) *)
  int_of_float : F -> Z;
  fadd : F -> F -> F;
  fsub : F -> F -> F;
  fdiv : F -> F -> F;
  fneg : F -> F;
  (** the literal 999999.9 *)
  GPS_INVALID_FLOAT : F
}.

(** ** [atoi] of stdlib.h *)

Definition isspace (c : Z) : bool := (c =? 32) || ((9 <=? c) && (c <=? 13)).
Definition isdigit (c : Z) : bool := (48 <=? c) && (c <=? 57).

Fixpoint skip_space (s : list Z) : list Z :=
  match s with
  | c :: rest => if isspace c then skip_space rest else s
  | [] => []
  end.

Fixpoint digits_value (acc : Z) (s : list Z) : Z :=
  match s with
  | c :: rest => if isdigit c then digits_value (10 * acc + (c - 48)) rest else acc
  | [] => acc
  end.

Definition atoi (s : list Z) : Z :=
  match skip_space s with
  | 45 :: rest => to_int (- digits_value 0 rest)
  | 43 :: rest => to_int (digits_value 0 rest)
  | rest => to_int (digits_value 0 rest)
  end.

(** ** The decoder's data members

    The data members of the class, under their names, grouped in four
    records: the published members with the timekeepers and the usage
    flags ([Fix]), the [new_...] members ([Shadow]), the parsing state
    variables ([Parser]) and the statistics ([Stats]).  The members
    [new_date], [new_GGA_fix], [new_VTG_fix] and [new_XTE_fix] are declared
    and never used; they are left out. *)

Inductive types : Set := GGA | VTG | XTE | XTE2 | OTHER.

Definition types_eqb (a b : types) : bool :=
  match a, b with
  | GGA, GGA | VTG, VTG | XTE, XTE | XTE2, XTE2 | OTHER, OTHER => true
  | _, _ => false
  end.

(** The published (committed) members, with the timekeepers and the usage
    flags. *)
Record Fix (F : Type) : Type := mkFix {
  time : F;
  date : Z;
  latitude : F;
  longitude : F;
  altitude : F;
  speed : F;
  course : F;
  xte : F;
  quality : Z;
  last_GGA_fix : Z;
  last_VTG_fix : Z;
  last_XTE_fix : Z;
  new_GGA_data : bool;
  new_VTG_data : bool;
  new_XTE_data : bool
}.
Arguments mkFix {F}.
Arguments time {F}.
Arguments date {F}.
Arguments latitude {F}.
Arguments longitude {F}.
Arguments altitude {F}.
Arguments speed {F}.
Arguments course {F}.
Arguments xte {F}.
Arguments quality {F}.
Arguments last_GGA_fix {F}.
Arguments last_VTG_fix {F}.
Arguments last_XTE_fix {F}.
Arguments new_GGA_data {F}.
Arguments new_VTG_data {F}.
Arguments new_XTE_data {F}.

(** The [new_...] members written while a sentence is being read. *)
Record Shadow (F : Type) : Type := mkShadow {
  new_time : F;
  new_latitude : F;
  new_longitude : F;
  new_altitude : F;
  new_speed : F;
  new_course : F;
  new_xte : F;
  new_quality : Z
}.
Arguments mkShadow {F}.
Arguments new_time {F}.
Arguments new_latitude {F}.
Arguments new_longitude {F}.
Arguments new_altitude {F}.
Arguments new_speed {F}.
Arguments new_course {F}.
Arguments new_xte {F}.
Arguments new_quality {F}.

(** The parsing state variables. *)
Record Parser : Type := mkParser {
  term : list Z;
  term_number : Z;
  term_offset : Z;
  parity : Z;
  checksum : Z;
  sum : Z;
  is_checksum_term : bool;
  sentence_type : types
}.

(** The statistics. *)
Record Stats : Type := mkStats {
  encoded_characters : Z;
  good_sentences : Z;
  failed_checksum : Z;
  passed_checksum : Z
}.

Record FarmGPS (F : Type) : Type := mkFarmGPS {
  pub : Fix F;
  shadow : Shadow F;
  parser : Parser;
  stats : Stats
}.
Arguments mkFarmGPS {F}.
Arguments pub {F}.
Arguments shadow {F}.
Arguments parser {F}.
Arguments stats {F}.

(** Assignments to single members. *)
Definition set_term (v : list Z) (p : Parser) : Parser :=
  mkParser v (term_number p) (term_offset p) (parity p) (checksum p) (sum p)
           (is_checksum_term p) (sentence_type p).
Definition set_term_number (v : Z) (p : Parser) : Parser :=
  mkParser (term p) v (term_offset p) (parity p) (checksum p) (sum p)
           (is_checksum_term p) (sentence_type p).
Definition set_term_offset (v : Z) (p : Parser) : Parser :=
  mkParser (term p) (term_number p) v (parity p) (checksum p) (sum p)
           (is_checksum_term p) (sentence_type p).
Definition set_parity (v : Z) (p : Parser) : Parser :=
  mkParser (term p) (term_number p) (term_offset p) v (checksum p) (sum p)
           (is_checksum_term p) (sentence_type p).
Definition set_checksum (v : Z) (p : Parser) : Parser :=
  mkParser (term p) (term_number p) (term_offset p) (parity p) v (sum p)
           (is_checksum_term p) (sentence_type p).
Definition set_sum (v : Z) (p : Parser) : Parser :=
  mkParser (term p) (term_number p) (term_offset p) (parity p) (checksum p) v
           (is_checksum_term p) (sentence_type p).
Definition set_is_checksum_term (v : bool) (p : Parser) : Parser :=
  mkParser (term p) (term_number p) (term_offset p) (parity p) (checksum p) (sum p)
           v (sentence_type p).
Definition set_sentence_type (v : types) (p : Parser) : Parser :=
  mkParser (term p) (term_number p) (term_offset p) (parity p) (checksum p) (sum p)
           (is_checksum_term p) v.

Definition with_parser {F : Type} (p : Parser) (g : FarmGPS F) : FarmGPS F :=
  mkFarmGPS (pub g) (shadow g) p (stats g).
Definition with_shadow {F : Type} (sh : Shadow F) (g : FarmGPS F) : FarmGPS F :=
  mkFarmGPS (pub g) sh (parser g) (stats g).
Definition with_pub {F : Type} (f : Fix F) (g : FarmGPS F) : FarmGPS F :=
  mkFarmGPS f (shadow g) (parser g) (stats g).
Definition with_stats {F : Type} (st : Stats) (g : FarmGPS F) : FarmGPS F :=
  mkFarmGPS (pub g) (shadow g) (parser g) st.

Definition set_new_time {F} (v : F) (sh : Shadow F) : Shadow F :=
  mkShadow v (new_latitude sh) (new_longitude sh) (new_altitude sh)
           (new_speed sh) (new_course sh) (new_xte sh) (new_quality sh).
Definition set_new_latitude {F} (v : F) (sh : Shadow F) : Shadow F :=
  mkShadow (new_time sh) v (new_longitude sh) (new_altitude sh)
           (new_speed sh) (new_course sh) (new_xte sh) (new_quality sh).
Definition set_new_longitude {F} (v : F) (sh : Shadow F) : Shadow F :=
  mkShadow (new_time sh) (new_latitude sh) v (new_altitude sh)
           (new_speed sh) (new_course sh) (new_xte sh) (new_quality sh).
Definition set_new_altitude {F} (v : F) (sh : Shadow F) : Shadow F :=
  mkShadow (new_time sh) (new_latitude sh) (new_longitude sh) v
           (new_speed sh) (new_course sh) (new_xte sh) (new_quality sh).
Definition set_new_speed {F} (v : F) (sh : Shadow F) : Shadow F :=
  mkShadow (new_time sh) (new_latitude sh) (new_longitude sh) (new_altitude sh)
           v (new_course sh) (new_xte sh) (new_quality sh).
Definition set_new_course {F} (v : F) (sh : Shadow F) : Shadow F :=
  mkShadow (new_time sh) (new_latitude sh) (new_longitude sh) (new_altitude sh)
           (new_speed sh) v (new_xte sh) (new_quality sh).
Definition set_new_xte {F} (v : F) (sh : Shadow F) : Shadow F :=
  mkShadow (new_time sh) (new_latitude sh) (new_longitude sh) (new_altitude sh)
           (new_speed sh) (new_course sh) v (new_quality sh).
Definition set_new_quality {F} (v : Z) (sh : Shadow F) : Shadow F :=
  mkShadow (new_time sh) (new_latitude sh) (new_longitude sh) (new_altitude sh)
           (new_speed sh) (new_course sh) (new_xte sh) v.

(** ** The character constants of [decode] *)

(** The frame id of the binary protocol.  A [char] has this value only on
    a target where [char] is unsigned; where it is signed the byte 0xBF is
    the character -65 and reaches the [default:] label. *)
Definition TRIMBLE_ID : Z := 191.
Definition DOLLAR : Z := 36.      (* '$' *)
Definition AT_SIGN : Z := 64.     (* '@' *)
Definition SPACE : Z := 32.       (* ' ' *)
Definition COMMA : Z := 44.       (* ',' *)
Definition COLON : Z := 58.       (* ':' *)
Definition STAR : Z := 42.        (* '*' *)
Definition CR : Z := 13.          (* '\r' *)
Definition LF : Z := 10.          (* '\n' *)
Definition ETX : Z := 3.
Definition DLE : Z := 16.

(** The case labels [','], [':'], ['*'], ['\r'], ['\n']. *)
Definition is_terminator (c : Z) : bool :=
  (c =? COMMA) || (c =? COLON) || (c =? STAR) || (c =? CR) || (c =? LF).

(** ** Private member functions *)

Section Decoder.

Context {F : Type} {FO : FloatOps F}.

(** Parses ascii to float. *)
Definition parse_decimal (s : list Z) : F := atof s.

(** Parses ascii deg/min.dec to float degrees. *)
Definition parse_degrees (s : list Z) : F :=
  let _f := atof s in
  let _left := int_of_float (fdiv _f (float_of_int 100)) in
  let _right := fsub _f (float_of_int (to_int (_left * 100))) in
  fadd (float_of_int _left) (fdiv _right (float_of_int 60)).

(** Compares two strings, returns true if the same.  The arguments are the
    memory from each pointer on. *)
Fixpoint strcmp (str1 str2 : list Z) : outcome bool :=
  match str1, str2 with
  | c1 :: rest1, c2 :: rest2 =>
      if c1 =? c2
      then (if c1 =? 0 then Done true else strcmp rest1 rest2)
      else Done false
  | _, _ => OutOfBounds
  end.

Definition parse_integer (s : list Z) : Z := atoi s.

(** Converts hex ascii to integer. *)
Definition hex_to_int (c : Z) : Z :=
  if (65 <=? c) && (c <=? 70) then c - 65 + 10
  else if (97 <=? c) && (c <=? 102) then c - 97 + 10
  else c - 48.

(** The copy of the [new_...] members of one sentence type into the
    published ones: the [switch (sentence_type)] of the checksum branch. *)
Definition commit (now : Z) (ty : types) (sh : Shadow F) (f : Fix F) : Fix F :=
  match ty with
  | GGA =>
      mkFix (new_time sh) (date f) (new_latitude sh) (new_longitude sh)
            (new_altitude sh) (speed f) (course f) (xte f) (new_quality sh)
            now (last_VTG_fix f) (last_XTE_fix f)
            true (new_VTG_data f) (new_XTE_data f)
  | VTG =>
      mkFix (time f) (date f) (latitude f) (longitude f)
            (altitude f) (new_speed sh) (new_course sh) (xte f) (quality f)
            (last_GGA_fix f) now (last_XTE_fix f)
            (new_GGA_data f) true (new_XTE_data f)
  | XTE | XTE2 =>
      mkFix (time f) (date f) (latitude f) (longitude f)
            (altitude f) (speed f) (course f) (new_xte sh) (quality f)
            (last_GGA_fix f) (last_VTG_fix f) now
            (new_GGA_data f) (new_VTG_data f) true
  | OTHER => f
  end.

(** [good_sentences++] and [failed_checksum++], inside [#ifndef GPS_NO_STATS]. *)
Definition count_good (no_stats : bool) (st : Stats) : Stats :=
  if no_stats then st
  else mkStats (encoded_characters st) (to_ulong (good_sentences st + 1))
               (failed_checksum st) (passed_checksum st).
Definition count_failed (no_stats : bool) (st : Stats) : Stats :=
  if no_stats then st
  else mkStats (encoded_characters st) (good_sentences st)
               (to_ulong (failed_checksum st + 1)) (passed_checksum st).

(** The first term determines the sentence type. *)
Definition classify (t : list Z) : outcome types :=
  b ← strcmp t GPGGA_TERM;
  if b : bool then Done GGA else
  b ← strcmp t GPVTG_TERM;
  if b : bool then Done VTG else
  b ← strcmp t GPXTE_TERM;
  if b : bool then Done XTE else
  b ← strcmp t ROXTE_TERM;
  if b : bool then Done XTE2 else
  Done OTHER.

(** The [switch (sentence_type)] over a filled term. *)
Definition extract (ty : types) (n : Z) (t : list Z) (sh : Shadow F)
  : outcome (Shadow F) :=
  match ty with
  | GGA =>
      if n =? 1 then s ← c_str t; Done (set_new_time (parse_decimal s) sh)
      else if n =? 2 then s ← c_str t; Done (set_new_latitude (parse_degrees s) sh)
      else if n =? 3 then
        t0 ← term_at t 0;
        Done (if t0 =? 83 then set_new_latitude (fneg (new_latitude sh)) sh else sh)
      else if n =? 4 then s ← c_str t; Done (set_new_longitude (parse_degrees s) sh)
      else if n =? 5 then
        t0 ← term_at t 0;
        Done (if t0 =? 87 then set_new_longitude (fneg (new_longitude sh)) sh else sh)
      else if n =? 6 then s ← c_str t; Done (set_new_quality (parse_integer s) sh)
      else if n =? 9 then s ← c_str t; Done (set_new_altitude (parse_decimal s) sh)
      else Done sh
  | VTG =>
      if n =? 1 then s ← c_str t; Done (set_new_course (parse_decimal s) sh)
      else if n =? 5 then s ← c_str t; Done (set_new_speed (parse_decimal s) sh)
      else Done sh
  | XTE =>
      if n =? 3 then s ← c_str t; Done (set_new_xte (parse_decimal s) sh)
      else Done sh
  | XTE2 =>
      if n =? 1 then s ← c_str t; Done (set_new_xte (parse_decimal s) sh)
      else Done sh
  | OTHER => Done sh
  end.

(** Processes a just-completed term; [now] is what [millis()] returns.
    [no_stats] tells whether [GPS_NO_STATS] is defined. *)
Definition parse_term_with (no_stats : bool) (now : Z) (g : FarmGPS F)
  : outcome (bool * FarmGPS F) :=
  let p := parser g in
  if is_checksum_term p then
    ck ← (if types_eqb (sentence_type p) XTE2 then Done (parity p)
          else t0 ← term_at (term p) 0;
               t1 ← term_at (term p) 1;
               Done (to_byte (16 * hex_to_int t0 + hex_to_int t1)));
    let g1 := with_parser (set_checksum ck p) g in
    if ck =? parity p then
      Done (true, with_pub (commit now (sentence_type p) (shadow g1) (pub g1))
                           (with_stats (count_good no_stats (stats g1)) g1))
    else
      Done (false, with_stats (count_failed no_stats (stats g1)) g1)
  else if term_number p =? 0 then
    ty ← classify (term p);
    Done (false, with_parser (set_sentence_type ty p) g)
  else
    t0 ← term_at (term p) 0;
    if t0 =? 0 then Done (false, g)
    else
      sh ← extract (sentence_type p) (term_number p) (term p) (shadow g);
      Done (false, with_shadow sh g).

Definition parse_term : Z -> FarmGPS F -> outcome (bool * FarmGPS F) :=
  parse_term_with GPS_NO_STATS.

(** ** Public member functions *)

(** [encoded_characters++] *)
Definition count_character (st : Stats) : Stats :=
  mkStats (to_ulong (encoded_characters st + 1)) (good_sentences st)
          (failed_checksum st) (passed_checksum st).

(** The [default:] label of [decode]: ordinary characters. *)
Definition ordinary (c : Z) (g : FarmGPS F) : outcome (bool * FarmGPS F) :=
  let p := parser g in
  p1 ← (if term_offset p <? sizeof_term - 1
        then t ← term_put (term p) (term_offset p) c;
             Done (set_term_offset (to_byte (term_offset p + 1)) (set_term t p))
        else Done p);
  let p2 := if is_checksum_term p1 then p1
            else set_parity (to_byte (Z.lxor (parity p1) c)) p1 in
  Done (false, with_parser (set_sum (to_int (sum p2 + to_byte c)) p2) g).

(** The body of [case 3:] once [term[term_offset - 1] == 16] holds outside a
    checksum term. *)
Definition trimble_end (now : Z) (t1 : Z) (g : FarmGPS F)
  : outcome (bool * FarmGPS F) :=
  let p := parser g in
  let sum1 := to_int (sum p - to_byte t1) in
  t2 ← term_at (term p) (term_offset p - 2);
  let sum2 := to_int (sum1 - to_byte t2) in
  t3 ← term_at (term p) (term_offset p - 3);
  let sum3 := to_int (sum2 - to_byte t3) in
  let p3 := set_sum sum3 p in
  '(valid, g') ←
    (if to_int (to_int (sum3 - to_byte t2) - to_int (256 * to_byte t3)) =? 0 then
       t ← term_put (term p3) (term_offset p3 - 3) 0;
       '(_, g1) ← parse_term now (with_parser (set_term t p3) g);
       parse_term now (with_parser (set_is_checksum_term true (parser g1)) g1)
     else Done (false, with_parser p3 g));
  let q := parser g' in
  Done (valid, with_parser (set_term_offset 0
                              (set_term_number (to_byte (term_number q + 1)) q)) g').

(** After receiving character, start decoding sentence. *)
Definition decode (c : Z) (now : Z) (g0 : FarmGPS F) : outcome (bool * FarmGPS F) :=
  let g := with_stats (count_character (stats g0)) g0 in
  let p := parser g in
  if c =? TRIMBLE_ID then
    Done (false, with_parser (set_sum 0 (set_term_offset 0 (set_term_number 0 p))) g)
  else if (c =? DOLLAR) || (c =? AT_SIGN) then
    Done (false,
          with_parser
            (set_is_checksum_term false
               (set_sentence_type OTHER
                  (set_sum (to_int (sum p + to_byte c))
                     (set_parity 0 (set_term_offset 0 (set_term_number 0 p)))))) g)
  else if (c =? 20) || (c =? 0) || (c =? SPACE) then
    Done (false, with_parser (set_sum (to_int (sum p + to_byte c)) p) g)
  else if is_terminator c then
    let p1 := if c =? COMMA then set_parity (to_byte (Z.lxor (parity p) c)) p else p in
    let p2 := set_sum (to_int (sum p1 + to_byte c)) p1 in
    t ← term_put (term p2) (term_offset p2) 0;
    '(valid, g1) ← parse_term now (with_parser (set_term t p2) g);
    let q := parser g1 in
    Done (valid,
          with_parser
            (set_is_checksum_term (c =? STAR)
               (set_term_offset 0 (set_term_number (to_byte (term_number q + 1)) q))) g1)
  else if c =? ETX then
    t1 ← term_at (term p) (term_offset p - 1);
    if (t1 =? DLE) && negb (is_checksum_term p) then trimble_end now t1 g
    else ordinary c g
  else ordinary c g.

(** The constructor, run over the memory [mem] the object is placed in: the
    members it does not assign keep what the memory holds. *)
Definition FarmGPS_ctor (mem : FarmGPS F) : FarmGPS F :=
  mkFarmGPS
    (mkFix GPS_INVALID_FLOAT GPS_INVALID_LONG GPS_INVALID_FLOAT GPS_INVALID_FLOAT
           GPS_INVALID_FLOAT GPS_INVALID_FLOAT GPS_INVALID_FLOAT GPS_INVALID_FLOAT 0
           0 0 0
           (new_GGA_data (pub mem)) (new_VTG_data (pub mem)) (new_XTE_data (pub mem)))
    (shadow mem)
    (mkParser (<[0%nat := 0]> (term (parser mem))) 0 0 0 0 0 false OTHER)
    (if GPS_NO_STATS then stats mem else mkStats 0 0 0 0).

(** Returns true if data has not been used. *)
Definition got_new_GGA_data (g : FarmGPS F) : bool * FarmGPS F :=
  let f := pub g in
  (new_GGA_data f,
   with_pub (mkFix (time f) (date f) (latitude f) (longitude f) (altitude f)
                   (speed f) (course f) (xte f) (quality f)
                   (last_GGA_fix f) (last_VTG_fix f) (last_XTE_fix f)
                   false (new_VTG_data f) (new_XTE_data f)) g).

Definition got_new_VTG_data (g : FarmGPS F) : bool * FarmGPS F :=
  let f := pub g in
  (new_VTG_data f,
   with_pub (mkFix (time f) (date f) (latitude f) (longitude f) (altitude f)
                   (speed f) (course f) (xte f) (quality f)
                   (last_GGA_fix f) (last_VTG_fix f) (last_XTE_fix f)
                   (new_GGA_data f) false (new_XTE_data f)) g).

Definition got_new_XTE_data (g : FarmGPS F) : bool * FarmGPS F :=
  let f := pub g in
  (new_XTE_data f,
   with_pub (mkFix (time f) (date f) (latitude f) (longitude f) (altitude f)
                   (speed f) (course f) (xte f) (quality f)
                   (last_GGA_fix f) (last_VTG_fix f) (last_XTE_fix f)
                   (new_GGA_data f) (new_VTG_data f) false) g).

(** ** Feeding a stream

    An input event is a character together with the value [millis()] has
    during the call of [decode] that receives it.  [feed] runs [decode] over
    a list of events and collects the values returned. *)
Fixpoint feed (evs : list (Z * Z)) (g : FarmGPS F) : outcome (list bool * FarmGPS F) :=
  match evs with
  | [] => Done ([], g)
  | (c, now) :: rest =>
      '(v, g1) ← decode c now g;
      '(vs, g2) ← feed rest g1;
      Done (v :: vs, g2)
  end.

End Decoder.

(** ** Classes of input characters *)

(** The case labels ['$'] and ['@']. *)
Definition is_start (c : Z) : bool := (c =? DOLLAR) || (c =? AT_SIGN).

(** The case labels [20], [0] and [' ']. *)
Definition is_ignored (c : Z) : bool := (c =? 20) || (c =? 0) || (c =? SPACE).

(** The characters that reach the [default:] label whatever the state. *)
Definition default_label (c : Z) : bool :=
  negb (c =? TRIMBLE_ID) && negb (is_start c) && negb (is_ignored c)
  && negb (is_terminator c) && negb (c =? ETX).

(** The characters a term of an ASCII sentence is made of: anything but a
    frame marker, a terminator and the binary terminator. *)
Definition field_byte (c : Z) : bool :=
  negb (c =? TRIMBLE_ID) && negb (is_start c) && negb (is_terminator c)
  && negb (c =? ETX).

(** The characters between the start marker and the ['*'] of an ASCII
    sentence: those of the terms, and the terminators other than ['*']. *)
Definition payload_byte (c : Z) : bool :=
  field_byte c || (is_terminator c && negb (c =? STAR)).

(** The characters of a term that are stored in the buffer. *)
Fixpoint stored (l : list Z) : list Z :=
  match l with
  | [] => []
  | c :: r => if is_ignored c then stored r else c :: stored r
  end.

(** The checksum domain of an ASCII sentence: the comma and the ordinary
    characters. *)
Definition in_checksum_domain (c : Z) : bool := (c =? COMMA) || default_label c.

(** XOR of the characters of [l] that are in the checksum domain. *)
Fixpoint nmea_xor (l : list Z) : Z :=
  match l with
  | [] => 0
  | c :: r => if in_checksum_domain c then Z.lxor (to_byte c) (nmea_xor r)
              else nmea_xor r
  end.

Definition is_hex_digit (c : Z) : bool :=
  ((48 <=? c) && (c <=? 57)) || ((65 <=? c) && (c <=? 70)) || ((97 <=? c) && (c <=? 102)).

(** Number of term terminators in a list of characters. *)
Fixpoint terminators (l : list Z) : Z :=
  match l with
  | [] => 0
  | c :: r => (if is_terminator c then 1 else 0) + terminators r
  end.

(** The sentence type a first term selects, by equality of character lists. *)
Definition type_of_token (tok : list Z) : types :=
  if bool_decide (tok = chars "GPGGA") then GGA
  else if bool_decide (tok = chars "GPVTG") then VTG
  else if bool_decide (tok = chars "GPXTE") then XTE
  else if bool_decide (tok = chars "ROXTE") then XTE2
  else OTHER.


(** ** States inside a term

    [in_term g w]: the decoder is outside a checksum term, the buffer has
    its 20 bytes and the characters written to it since the term began are
    [w] (none of them NUL). *)
Definition in_term {F : Type} (g : FarmGPS F) (w : list Z) : Prop :=
  length (term (parser g)) = 20%nat
  /\ term_offset (parser g) = Z.of_nat (length w)
  /\ take (length w) (term (parser g)) = w
  /\ (0 ∉ w)
  /\ (length w <= 19)%nat
  /\ is_checksum_term (parser g) = false
  /\ 0 <= parity (parser g) < 256.

(** The first field of a payload: its characters up to the first
    terminator. *)
Fixpoint first_field (l : list Z) : list Z :=
  match l with
  | [] => []
  | c :: r => if is_terminator c then [] else c :: first_field r
  end.


(** The value the checksum term is compared with. *)
Definition expected_checksum (p : Parser) (t0 t1 : Z) : Z :=
  if types_eqb (sentence_type p) XTE2 then parity p
  else to_byte (16 * hex_to_int t0 + hex_to_int t1).

(** ** Groups of published members

    The three kinds of sentences publish to three groups of members; each
    group has its timekeeper, its usage flag and its accessor. *)
Inductive group : Set := GGA_group | VTG_group | XTE_group.

Definition group_of (ty : types) : option group :=
  match ty with
  | GGA => Some GGA_group
  | VTG => Some VTG_group
  | XTE | XTE2 => Some XTE_group
  | OTHER => None
  end.

Definition new_data {F : Type} (k : group) (f : Fix F) : bool :=
  match k with
  | GGA_group => new_GGA_data f
  | VTG_group => new_VTG_data f
  | XTE_group => new_XTE_data f
  end.

Definition got_new_data {F : Type} (k : group) (g : FarmGPS F) : bool * FarmGPS F :=
  match k with
  | GGA_group => got_new_GGA_data g
  | VTG_group => got_new_VTG_data g
  | XTE_group => got_new_XTE_data g
  end.

(** The members of each group, side by side. *)
Definition GGA_members {F : Type} (f : Fix F) : F * F * F * F * Z * Z * bool :=
  (time f, latitude f, longitude f, altitude f, quality f, last_GGA_fix f,
   new_GGA_data f).
Definition VTG_members {F : Type} (f : Fix F) : F * F * Z * bool :=
  (course f, speed f, last_VTG_fix f, new_VTG_data f).
Definition XTE_members {F : Type} (f : Fix F) : F * Z * bool :=
  (xte f, last_XTE_fix f, new_XTE_data f).

(** [new_latitude = -new_latitude] *)
Definition negate_new_latitude {F : Type} {FO : FloatOps F} (sh : Shadow F) : Shadow F :=
  set_new_latitude (fneg (new_latitude sh)) sh.

(** [latitude] negated, everything else as it is. *)
Definition with_latitude_negated {F : Type} {FO : FloatOps F} (f : Fix F) : Fix F :=
  mkFix (time f) (date f) (fneg (latitude f)) (longitude f) (altitude f)
        (speed f) (course f) (xte f) (quality f)
        (last_GGA_fix f) (last_VTG_fix f) (last_XTE_fix f)
        (new_GGA_data f) (new_VTG_data f) (new_XTE_data f).

(** Two runs over sentences that differ in the hemisphere letter only:
    both are in the same term of a GGA sentence, past the letter, and the
    pending latitude of the second is the negated one of the first. *)
Definition mirrored {F : Type} {FO : FloatOps F} (gN gS : FarmGPS F) (w : list Z) : Prop :=
  in_term gN w /\ in_term gS w
  /\ shadow gS = negate_new_latitude (shadow gN)
  /\ term_number (parser gS) = term_number (parser gN)
  /\ sentence_type (parser gN) = GGA /\ sentence_type (parser gS) = GGA
  /\ 4 <= term_number (parser gN).

(** A payload is empty or begins with a terminator. *)
Definition begins_with_terminator (l : list Z) : bool :=
  match l with
  | [] => true
  | c :: _ => is_terminator c
  end.

(** ** ASCII sentences as received

    A start marker, the payload, the ['*'], two checksum characters and the
    terminator of the checksum token, each with the instant it arrives. *)
Record Sentence : Type := mkSentence {
  s_start : Z * Z;
  s_payload : list (Z * Z);
  s_star : Z;
  s_digit1 : Z * Z;
  s_digit2 : Z * Z;
  s_end : Z * Z
}.

Definition events (s : Sentence) : list (Z * Z) :=
  s_start s :: s_payload s ++ [(STAR, s_star s); s_digit1 s; s_digit2 s; s_end s].

(** The shape of a sentence of at most 255 terms. *)
Definition well_formed (s : Sentence) : bool :=
  is_start (s_start s).1
  && forallb payload_byte (s_payload s).*1
  && (terminators (s_payload s).*1 <=? 254)
  && is_hex_digit (s_digit1 s).1 && is_hex_digit (s_digit2 s).1
  && is_terminator (s_end s).1 && negb ((s_end s).1 =? COMMA).

(** The two digits give the XOR of the payload. *)
Definition checksum_ok (s : Sentence) : bool :=
  16 * hex_to_int (s_digit1 s).1 + hex_to_int (s_digit2 s).1
  =? nmea_xor (s_payload s).*1.

(** The type the first field of the sentence selects. *)
Definition kind (s : Sentence) : types :=
  type_of_token (stored (first_field (s_payload s).*1)).

(** ** An exact-arithmetic instance of the floating point interface

    Rational numbers with exact operations, and [atof] on plain decimal
    notation (blanks, sign, digits, a point, digits), which is how the
    fields of the sentences are written.  It serves to run the decoder on
    concrete sentences. *)
Module Exact.

Fixpoint after_digits (s : list Z) : list Z :=
  match s with
  | c :: r => if isdigit c then after_digits r else s
  | [] => []
  end.

Fixpoint fraction (w : Q) (s : list Z) : Q :=
  match s with
  | c :: r => if isdigit c
              then Qred (Qplus (Qmult (inject_Z (c - 48)) w) (fraction (Qred (Qdiv w (inject_Z 10))) r))
              else 0%Q
  | [] => 0%Q
  end.

Definition unsigned_decimal (s : list Z) : Q :=
  Qred (Qplus (inject_Z (digits_value 0 s))
              match after_digits s with
              | 46 :: r => fraction (Qmake 1 10) r
              | _ => 0%Q
              end).

Definition atof_exact (s : list Z) : Q :=
  match skip_space s with
  | 45 :: r => Qred (Qopp (unsigned_decimal r))
  | 43 :: r => unsigned_decimal r
  | r => unsigned_decimal r
  end.

#[global] Instance exact_ops : FloatOps Q := {
  atof := atof_exact;
  float_of_int := inject_Z;
  int_of_float := fun q => Z.quot (Qnum q) (Zpos (Qden q));
  fadd := fun a b => Qred (Qplus a b);
  fsub := fun a b => Qred (Qminus a b);
  fdiv := fun a b => Qred (Qdiv a b);
  fneg := fun a => Qred (Qopp a);
  GPS_INVALID_FLOAT := Qmake 9999999 10
}.

(** Zeroed memory, and the decoder constructed in it. *)
Definition zeroed : FarmGPS Q :=
  mkFarmGPS (mkFix 0%Q 0 0%Q 0%Q 0%Q 0%Q 0%Q 0%Q 0 0 0 0 false false false)
            (mkShadow 0%Q 0%Q 0%Q 0%Q 0%Q 0%Q 0%Q 0)
            (mkParser (replicate 20 0) 0 0 0 0 0 false OTHER)
            (mkStats 0 0 0 0).

Definition fresh : FarmGPS Q := FarmGPS_ctor zeroed.

(** A text received at instant [now]. *)
Definition text (s : string) (now : Z) : list (Z * Z) :=
  map (fun c => (c, now)) (chars s).

(** The state after a run (the state itself if the run reads out of the
    buffer). *)
Definition after (evs : list (Z * Z)) (g : FarmGPS Q) : FarmGPS Q :=
  match feed evs g with
  | Done (_, g') => g'
  | OutOfBounds => g
  end.

(** Sample sentences. *)
Definition gga_payload : list (Z * Z) :=
  text "GPGGA,123519,4807.038,N,01131.000,E,1,08,0.9,545.4,M,46.9,M,," 1000.

Definition gga : Sentence :=
  mkSentence (36, 1000) gga_payload 1000 (52, 1000) (55, 1000) (13, 1000).

Definition vtg : Sentence :=
  mkSentence (36, 2000) (text "GPVTG,054.7,T,034.4,M,005.5,N,010.2,K" 2000) 2000
             (52, 2000) (56, 2000) (13, 2000).

(** "$ROXTE,1.5*00" and CR: the checksum of the payload is not 00. *)
Definition roxte_bad : Sentence :=
  mkSentence (36, 5) (text "ROXTE,1.5" 5) 5 (48, 5) (48, 5) (13, 5).

(** The parts of the GGA sentence around its hemisphere letter. *)
Definition gga_pre : list (Z * Z) := text "GPGGA,123519,4807.038" 1000.
Definition gga_rest : list (Z * Z) :=
  text ",01131.000,E,1,08,0.9,545.4,M,46.9,M,," 1000.

(** A binary frame up to its terminator, received right after construction
    ([sum] is 0 then, as it is after the frame id 191): "ROXTE,1.5", the
    two-byte sum 2 * 256 + 82 of these nine characters, and 16. *)
Definition trimble_frame : list (Z * Z) :=
  text "ROXTE,1.5" 5 ++ [(2, 5); (82, 5); (16, 5)].

(** A term longer than the buffer. *)
Definition long_term : list (Z * Z) := text "$ABCDEFGHIJKLMNOPQRSTUVWXYZ" 9.

(** The decoder before the last character of the GGA sentence, and after
    the first term of it. *)
Definition gga_before_end : FarmGPS Q := after (removelast (events gga)) fresh.
Definition gga_first_term : FarmGPS Q := after (text "$GPGGA" 1000) fresh.

End Exact.

(** ** Inline members of FarmGPS.h: date and time *)

(** The conversion of a [float] to [unsigned long] that the assignment
    [*outtime = time] of [get_datetime] performs. *)
Class FloatToLong (F : Type) := ulong_of_float : F -> Z.

(** Date as ddmmyy, time as hhmmsscc. *)
Definition get_datetime {F : Type} {FL : FloatToLong F} (g : FarmGPS F) : Z * Z :=
  (date (pub g), ulong_of_float (time (pub g))).

(** What [get_datetime_details] stores through its seven pointers (all of
    them given): [outyear] is an [int], the others are bytes. *)
Record details : Type := mkDetails {
  outyear : Z;
  outmonth : Z;
  outday : Z;
  outhour : Z;
  outminute : Z;
  outsecond : Z;
  outhundredths : Z
}.

Definition get_datetime_details {F : Type} {FL : FloatToLong F} (g : FarmGPS F)
  : details :=
  let '(_d, _t) := get_datetime g in
  let y := to_int (_d mod 100) in
  mkDetails (to_int (y + (if 80 <? y then 1900 else 2000)))
            (to_byte ((_d / 100) mod 100))
            (to_byte (_d / 10000))
            (to_byte (_t / 1000000))
            (to_byte ((_t / 10000) mod 100))
            (to_byte ((_t / 100) mod 100))
            (to_byte (_t mod 100)).

(** ** Vocabulary of the further properties *)

(** The hexadecimal digit of a value 0..15, in upper and in lower case. *)
Definition upper_hex_digit (n : Z) : Z := if n <? 10 then 48 + n else 55 + n.
Definition lower_hex_digit (n : Z) : Z := if n <? 10 then 48 + n else 87 + n.

(** Sum of the characters of a list, each taken as a byte. *)
Fixpoint byte_sum (l : list Z) : Z :=
  match l with
  | [] => 0
  | c :: r => to_byte c + byte_sum r
  end.

(** Neither the frame id nor the binary terminator. *)
Definition plain_byte (c : Z) : bool := negb (c =? TRIMBLE_ID) && negb (c =? ETX).

(** Truncation of an exact value to [unsigned long]. *)
#[global] Instance exact_to_long : FloatToLong Q :=
  fun q => to_ulong (Z.quot (Qnum q) (Zpos (Qden q))).

(** The values of a [char] of avr-gcc, the compiler of the 8-bit boards:
    [char] is signed there, and a byte above 127 is received as a negative
    character (0xBF as -65). *)
Definition signed_char (c : Z) : bool := (-128 <=? c) && (c <=? 127).

(** The terminators other than ['*']: they separate the terms of a
    sentence. *)
Definition is_separator (c : Z) : bool := is_terminator c && negb (c =? STAR).

(** The value [parse_term] reads from a checksum token whose stored
    characters are [w]: [16 * hex_to_int(term[0]) + hex_to_int(term[1])] as
    a byte, where the NUL that closes the token is [term[1]] when one
    character only is stored. *)
Definition token_value (w : list Z) : Z :=
  match w with
  | c1 :: c2 :: _ => to_byte (16 * hex_to_int c1 + hex_to_int c2)
  | [c1] => to_byte (16 * hex_to_int c1 + hex_to_int 0)
  | [] => 0
  end.

(** The accumulator at the comparison, for a payload of XOR [x] and a
    checksum token closed by the character [e]: the case label [','] XORs
    the comma in before [parse_term] is called. *)
Definition closing_parity (x e : Z) : Z := if e =? COMMA then Z.lxor x COMMA else x.

(** * Properties *)

#[local] Arguments Z.eqb : simpl never.
#[local] Arguments Z.ltb : simpl never.
#[local] Arguments Z.leb : simpl never.
#[local] Arguments Z.lxor : simpl never.
#[local] Arguments Z.modulo : simpl never.
#[local] Arguments Z.mul : simpl never.
#[local] Arguments Z.add : simpl never.
#[local] Arguments Z.sub : simpl never.
#[local] Arguments Z.of_nat : simpl never.
#[local] Arguments Z.to_nat : simpl never.

(** ** Machine integers and the term buffer *)

Lemma to_byte_range (x : Z) : 0 <= to_byte x < 256.
Proof. unfold to_byte. apply Z.mod_pos_bound. lia. Qed.

Lemma to_byte_small (x : Z) : 0 <= x < 256 -> to_byte x = x.
Proof. intros H. unfold to_byte. apply Z.mod_small. exact H. Qed.

Lemma to_byte_land (x : Z) : to_byte x = Z.land x (Z.ones 8).
Proof. unfold to_byte. rewrite Z.land_ones by lia. reflexivity. Qed.

Lemma to_byte_lxor (p c : Z) :
  to_byte (Z.lxor p c) = Z.lxor (to_byte p) (to_byte c).
Proof.
  rewrite !to_byte_land. apply Z.bits_inj'. intros n Hn.
  rewrite Z.lxor_spec, !Z.land_spec, Z.lxor_spec.
  destruct (Z.testbit p n), (Z.testbit c n), (Z.testbit (Z.ones 8) n); reflexivity.
Qed.

Lemma lxor_byte_range (a b : Z) :
  0 <= a < 256 -> 0 <= b < 256 -> 0 <= Z.lxor a b < 256.
Proof.
  intros Ha Hb.
  rewrite <- (to_byte_small a), <- (to_byte_small b) by assumption.
  rewrite <- to_byte_lxor. apply to_byte_range.
Qed.

Lemma nmea_xor_range (l : list Z) : 0 <= nmea_xor l < 256.
Proof.
  induction l as [|c r IH]; simpl; [lia|].
  destruct (in_checksum_domain c); [|exact IH].
  apply lxor_byte_range; [apply to_byte_range | exact IH].
Qed.

Lemma nmea_xor_app (a b : list Z) :
  nmea_xor (a ++ b) = Z.lxor (nmea_xor a) (nmea_xor b).
Proof.
  induction a as [|c r IH]; simpl.
  - rewrite Z.lxor_0_l. reflexivity.
  - destruct (in_checksum_domain c); rewrite IH; [|reflexivity].
    rewrite Z.lxor_assoc. reflexivity.
Qed.

Lemma term_at_lookup (t : list Z) (i : Z) (x : Z) :
  0 <= i -> t !! Z.to_nat i = Some x -> term_at t i = Done x.
Proof.
  intros Hi Hx. unfold term_at.
  destruct (i <? 0) eqn:E; [apply Z.ltb_lt in E; lia|]. rewrite Hx. reflexivity.
Qed.

Lemma term_at_inside (t : list Z) (i : Z) :
  0 <= i < Z.of_nat (length t) -> exists x, term_at t i = Done x /\ t !! Z.to_nat i = Some x.
Proof.
  intros Hi. destruct (lookup_lt_is_Some_2 t (Z.to_nat i)) as [x Hx]; [lia|].
  exists x. split; [apply term_at_lookup; [lia|exact Hx] | exact Hx].
Qed.

Lemma term_at_negative (t : list Z) (i : Z) : i < 0 -> term_at t i = OutOfBounds.
Proof.
  intros Hi. unfold term_at.
  destruct (i <? 0) eqn:E; [reflexivity | apply Z.ltb_ge in E; lia].
Qed.

Lemma term_put_inside (t : list Z) (i v : Z) :
  0 <= i < Z.of_nat (length t) -> term_put t i v = Done (<[Z.to_nat i := v]> t).
Proof.
  intros Hi. unfold term_put.
  destruct (0 <=? i) eqn:E1; [|apply Z.leb_gt in E1; lia].
  destruct (i <? Z.of_nat (length t)) eqn:E2; [reflexivity | apply Z.ltb_ge in E2; lia].
Qed.

(** ** C strings *)

Lemma c_str_prefix (a r : list Z) :
  0 ∉ a -> c_str (a ++ 0 :: r) = Done a.
Proof.
  induction a as [|c a IH]; intros Hz; simpl; [reflexivity|].
  apply not_elem_of_cons in Hz as [Hc Ha].
  destruct (c =? 0) eqn:E; [apply Z.eqb_eq in E; congruence|].
  rewrite (IH Ha). reflexivity.
Qed.

Lemma strcmp_prefix (a b r1 r2 : list Z) :
  0 ∉ a -> 0 ∉ b ->
  strcmp (a ++ 0 :: r1) (b ++ 0 :: r2) = Done (bool_decide (a = b)).
Proof.
  revert b. induction a as [|c a IH]; intros [|d b] Ha Hb; simpl.
  - reflexivity.
  - apply not_elem_of_cons in Hb as [Hd _].
    destruct (0 =? d) eqn:E; [apply Z.eqb_eq in E; congruence|]. reflexivity.
  - apply not_elem_of_cons in Ha as [Hc _].
    destruct (c =? 0) eqn:E; [apply Z.eqb_eq in E; congruence|]. reflexivity.
  - apply not_elem_of_cons in Ha as [Hc Ha], Hb as [Hd Hb].
    destruct (c =? d) eqn:E.
    + apply Z.eqb_eq in E. subst d.
      destruct (c =? 0) eqn:E0; [apply Z.eqb_eq in E0; congruence|].
      rewrite (IH b Ha Hb).
      f_equal. apply bool_decide_ext. split; [congruence | intros H; injection H; auto].
    + apply Z.eqb_neq in E. rewrite bool_decide_eq_false_2; [reflexivity | congruence].
Qed.

(** A buffer that holds a NUL is a C string. *)
Lemma buffer_split (t : list Z) :
  0 ∈ t -> exists a r, t = a ++ 0 :: r /\ 0 ∉ a.
Proof.
  induction t as [|c t IH]; intros Hin; [inversion Hin|].
  destruct (decide (c = 0)) as [->|Hc].
  - exists [], t. split; [reflexivity | apply not_elem_of_nil].
  - apply elem_of_cons in Hin as [Hin|Hin]; [congruence|].
    destruct (IH Hin) as (a & r & -> & Ha).
    exists (c :: a), r. split; [reflexivity|].
    apply not_elem_of_cons. split; [congruence | exact Ha].
Qed.

Lemma no_nul_in_chars_GPGGA : 0 ∉ chars "GPGGA".
Proof. apply (bool_decide_unpack _). vm_compute. exact I. Qed.
Lemma no_nul_in_chars_GPVTG : 0 ∉ chars "GPVTG".
Proof. apply (bool_decide_unpack _). vm_compute. exact I. Qed.
Lemma no_nul_in_chars_GPXTE : 0 ∉ chars "GPXTE".
Proof. apply (bool_decide_unpack _). vm_compute. exact I. Qed.
Lemma no_nul_in_chars_ROXTE : 0 ∉ chars "ROXTE".
Proof. apply (bool_decide_unpack _). vm_compute. exact I. Qed.

Lemma classify_prefix (a r : list Z) :
  0 ∉ a -> classify (a ++ 0 :: r) = Done (type_of_token a).
Proof.
  intros Ha. unfold classify, type_of_token.
  change GPGGA_TERM with (chars "GPGGA" ++ 0 :: []).
  change GPVTG_TERM with (chars "GPVTG" ++ 0 :: []).
  change GPXTE_TERM with (chars "GPXTE" ++ 0 :: []).
  change ROXTE_TERM with (chars "ROXTE" ++ 0 :: []).
  rewrite !(strcmp_prefix a _ r []);
    auto using no_nul_in_chars_GPGGA, no_nul_in_chars_GPVTG,
               no_nul_in_chars_GPXTE, no_nul_in_chars_ROXTE.
  simpl.
  repeat (case_bool_decide; simpl; [reflexivity|]). reflexivity.
Qed.

Lemma type_of_token_cases (tok : list Z) :
  (type_of_token tok = GGA <-> tok = chars "GPGGA")
  /\ (type_of_token tok = VTG <-> tok = chars "GPVTG")
  /\ (type_of_token tok = XTE <-> tok = chars "GPXTE")
  /\ (type_of_token tok = XTE2 <-> tok = chars "ROXTE")
  /\ (type_of_token tok = OTHER <->
      tok <> chars "GPGGA" /\ tok <> chars "GPVTG"
      /\ tok <> chars "GPXTE" /\ tok <> chars "ROXTE").
Proof.
  unfold type_of_token.
  repeat case_bool_decide; subst;
    repeat split; intros; try discriminate; try tauto; try congruence;
    try (exfalso; match goal with H : chars _ = chars _ |- _ => vm_compute in H; discriminate end).
Qed.

Section Term.

Context {F : Type} {FO : FloatOps F}.

Lemma extract_total (ty : types) (n : Z) (a r : list Z) (sh : Shadow F) :
  0 ∉ a -> exists sh', extract ty n (a ++ 0 :: r) sh = Done sh'.
Proof.
  intros Ha. unfold extract.
  assert (exists x, term_at (a ++ 0 :: r) 0 = Done x) as [x Hx].
  { destruct a; unfold term_at; simpl; eexists; reflexivity. }
  rewrite (c_str_prefix a r Ha), Hx.
  destruct ty; repeat (match goal with |- context [if ?b then _ else _] => destruct b end);
    simpl; eexists; reflexivity.
Qed.

(** The first term: classification. *)
Lemma parse_term_first (ns : bool) (now : Z) (g : FarmGPS F) (tok rest : list Z) :
  is_checksum_term (parser g) = false ->
  term_number (parser g) = 0 ->
  term (parser g) = tok ++ 0 :: rest -> 0 ∉ tok ->
  parse_term_with ns now g
  = Done (false, with_parser (set_sentence_type (type_of_token tok) (parser g)) g).
Proof.
  intros Hck Hn Ht Hz. unfold parse_term_with.
  rewrite Hck, Hn, Ht. simpl. rewrite (classify_prefix tok rest Hz). reflexivity.
Qed.

(** An empty term that is not the first one is skipped. *)
Lemma parse_term_empty (ns : bool) (now : Z) (g : FarmGPS F) (rest : list Z) :
  is_checksum_term (parser g) = false ->
  term_number (parser g) <> 0 ->
  term (parser g) = 0 :: rest ->
  parse_term_with ns now g = Done (false, g).
Proof.
  intros Hck Hn Ht. unfold parse_term_with.
  rewrite Hck, Ht. apply Z.eqb_neq in Hn. rewrite Hn. reflexivity.
Qed.

(** A filled term that is not the first one goes to [extract]. *)
Lemma parse_term_field (ns : bool) (now : Z) (g : FarmGPS F) (c : Z) (tok rest : list Z) :
  is_checksum_term (parser g) = false ->
  term_number (parser g) <> 0 ->
  term (parser g) = (c :: tok) ++ 0 :: rest -> 0 ∉ c :: tok ->
  exists sh,
    extract (sentence_type (parser g)) (term_number (parser g))
            (term (parser g)) (shadow g) = Done sh
    /\ parse_term_with ns now g = Done (false, with_shadow sh g).
Proof.
  intros Hck Hn Ht Hz.
  destruct (extract_total (sentence_type (parser g)) (term_number (parser g))
                          (c :: tok) rest (shadow g) Hz) as [sh Hsh].
  exists sh. rewrite Ht. split; [exact Hsh|].
  unfold parse_term_with. rewrite Hck, Ht. apply Z.eqb_neq in Hn. rewrite Hn.
  apply not_elem_of_cons in Hz as [Hc _].
  simpl. unfold term_at. simpl.
  destruct (c =? 0) eqn:E; [apply Z.eqb_eq in E; congruence|].
  simpl in Hsh. rewrite Hsh. reflexivity.
Qed.

(** Outside a checksum term, [parse_term] returns false, leaves the
    published members, the statistics and all of the parsing state but
    [sentence_type] as they are; it changes [sentence_type] only on a first
    term and the [new_...] members only on a later one. *)
Lemma parse_term_plain (ns : bool) (now : Z) (g : FarmGPS F) (tok rest : list Z) :
  is_checksum_term (parser g) = false ->
  term (parser g) = tok ++ 0 :: rest -> 0 ∉ tok ->
  exists sh ty,
    parse_term_with ns now g
    = Done (false, mkFarmGPS (pub g) sh (set_sentence_type ty (parser g)) (stats g))
    /\ (term_number (parser g) = 0 -> ty = type_of_token tok /\ sh = shadow g)
    /\ (term_number (parser g) <> 0 -> ty = sentence_type (parser g)).
Proof.
  intros Hck Ht Hz.
  destruct (decide (term_number (parser g) = 0)) as [Hn|Hn].
  - exists (shadow g), (type_of_token tok).
    rewrite (parse_term_first ns now g tok rest Hck Hn Ht Hz).
    split; [destruct g; reflexivity|]. split; [auto | intros; contradiction].
  - destruct tok as [|c tok].
    + exists (shadow g), (sentence_type (parser g)).
      rewrite (parse_term_empty ns now g rest Hck Hn Ht).
      split; [destruct g as [f sh p st]; destruct p; reflexivity|].
      split; [intros; contradiction | auto].
    + destruct (parse_term_field ns now g c tok rest Hck Hn Ht Hz) as (sh & _ & Hp).
      exists sh, (sentence_type (parser g)). rewrite Hp.
      split; [destruct g as [f sh0 p st]; destruct p; reflexivity|].
      split; [intros; contradiction | auto].
Qed.

End Term.

(** ** Single steps of [decode] *)

Ltac class_facts H :=
  unfold payload_byte, field_byte, default_label, is_start, is_ignored,
         is_terminator in H;
  repeat first
    [ rewrite andb_true_iff in H
    | rewrite negb_true_iff in H
    | rewrite orb_false_iff in H
    | rewrite andb_false_iff in H
    | rewrite negb_false_iff in H ].

Section Steps.

Context {F : Type} {FO : FloatOps F}.

Lemma decode_start (c now : Z) (g : FarmGPS F) :
  is_start c = true ->
  decode c now g
  = Done (false,
          mkFarmGPS (pub g) (shadow g)
            (mkParser (term (parser g)) 0 0 0 (checksum (parser g))
                      (to_int (sum (parser g) + to_byte c)) false OTHER)
            (count_character (stats g))).
Proof.
  intros Hc. unfold decode.
  assert ((c =? TRIMBLE_ID) = false) as ->.
  { unfold is_start in Hc. apply orb_true_iff in Hc.
    apply Z.eqb_neq. unfold TRIMBLE_ID, DOLLAR, AT_SIGN in *.
    destruct Hc as [Hc|Hc]; apply Z.eqb_eq in Hc; lia. }
  unfold is_start in Hc. rewrite Hc. reflexivity.
Qed.

Lemma decode_trimble_id (now : Z) (g : FarmGPS F) :
  decode TRIMBLE_ID now g
  = Done (false,
          mkFarmGPS (pub g) (shadow g)
            (mkParser (term (parser g)) 0 0 (parity (parser g)) (checksum (parser g))
                      0 (is_checksum_term (parser g)) (sentence_type (parser g)))
            (count_character (stats g))).
Proof. reflexivity. Qed.

Lemma decode_ignored (c now : Z) (g : FarmGPS F) :
  is_ignored c = true ->
  decode c now g
  = Done (false,
          mkFarmGPS (pub g) (shadow g)
            (set_sum (to_int (sum (parser g) + to_byte c)) (parser g))
            (count_character (stats g))).
Proof.
  intros Hc. unfold decode.
  assert ((c =? TRIMBLE_ID) = false /\ ((c =? DOLLAR) || (c =? AT_SIGN)) = false) as [-> ->].
  { unfold is_ignored in Hc. unfold TRIMBLE_ID, DOLLAR, AT_SIGN, SPACE in *.
    rewrite orb_false_iff, !Z.eqb_neq.
    repeat (apply orb_true_iff in Hc as [Hc|Hc]); apply Z.eqb_eq in Hc; lia. }
  unfold is_ignored in Hc. rewrite Hc. reflexivity.
Qed.

(** A character of the [default:] label, in any state: [ordinary]. *)
Lemma decode_default (c now : Z) (g : FarmGPS F) :
  default_label c = true ->
  decode c now g = ordinary c (with_stats (count_character (stats g)) g).
Proof.
  intros Hc. unfold decode.
  unfold default_label in Hc.
  repeat (rewrite andb_true_iff in Hc). rewrite !negb_true_iff in Hc.
  destruct Hc as [[[[H1 H2] H3] H4] H5].
  unfold is_start, is_ignored in H2, H3.
  rewrite H1, H2, H3, H4, H5. reflexivity.
Qed.

(** A terminator, in any state. *)
Lemma decode_terminator (c now : Z) (g : FarmGPS F) :
  is_terminator c = true ->
  decode c now g
  = (let g0 := with_stats (count_character (stats g)) g in
     let p := parser g0 in
     let p1 := if c =? COMMA then set_parity (to_byte (Z.lxor (parity p) c)) p else p in
     let p2 := set_sum (to_int (sum p1 + to_byte c)) p1 in
     t ← term_put (term p2) (term_offset p2) 0;
     '(valid, g1) ← parse_term now (with_parser (set_term t p2) g0);
     let q := parser g1 in
     Done (valid,
           with_parser
             (set_is_checksum_term (c =? STAR)
                (set_term_offset 0 (set_term_number (to_byte (term_number q + 1)) q))) g1)).
Proof.
  intros Hc. unfold decode.
  assert ((c =? TRIMBLE_ID) = false /\ ((c =? DOLLAR) || (c =? AT_SIGN)) = false
          /\ ((c =? 20) || (c =? 0) || (c =? SPACE)) = false) as (-> & -> & ->).
  { unfold is_terminator in Hc.
    unfold TRIMBLE_ID, DOLLAR, AT_SIGN, SPACE, COMMA, COLON, STAR, CR, LF in *.
    rewrite !orb_false_iff, !Z.eqb_neq.
    repeat (apply orb_true_iff in Hc as [Hc|Hc]); apply Z.eqb_eq in Hc; lia. }
  rewrite Hc. reflexivity.
Qed.

(** The character 3, in any state. *)
Lemma decode_etx (now : Z) (g : FarmGPS F) :
  decode ETX now g
  = (let g0 := with_stats (count_character (stats g)) g in
     let p := parser g0 in
     t1 ← term_at (term p) (term_offset p - 1);
     if (t1 =? DLE) && negb (is_checksum_term p) then trimble_end now t1 g0
     else ordinary ETX g0).
Proof. reflexivity. Qed.

End Steps.

(** ** Steps inside a term *)

Lemma stored_nonzero (l : list Z) : 0 ∉ stored l.
Proof.
  induction l as [|c r IH]; simpl; [apply not_elem_of_nil|].
  destruct (is_ignored c) eqn:E; [exact IH|].
  apply not_elem_of_cons. split; [|exact IH].
  intros <-. discriminate E.
Qed.

Lemma field_byte_cases (c : Z) :
  field_byte c = true -> is_ignored c = true \/ default_label c = true.
Proof.
  intros H. unfold field_byte in H. unfold default_label.
  destruct (is_ignored c); [left; reflexivity|right].
  rewrite andb_true_r. exact H.
Qed.

Lemma field_byte_not_terminator (c : Z) :
  field_byte c = true -> is_terminator c = false.
Proof.
  unfold field_byte. intros H.
  repeat (apply andb_true_iff in H as [H ?]).
  apply negb_true_iff. assumption.
Qed.

Lemma default_label_in_domain (c : Z) :
  default_label c = true -> in_checksum_domain c = true.
Proof. intros H. unfold in_checksum_domain. rewrite H. apply orb_true_r. Qed.

Lemma ignored_not_in_domain (c : Z) :
  is_ignored c = true -> in_checksum_domain c = false.
Proof.
  intros H. unfold in_checksum_domain, default_label. rewrite H.
  rewrite andb_false_r. simpl. rewrite orb_false_r.
  unfold is_ignored, SPACE, COMMA in *. apply Z.eqb_neq.
  repeat (apply orb_true_iff in H as [H|H]); apply Z.eqb_eq in H; lia.
Qed.

Lemma xor_into_parity (p c : Z) :
  0 <= p < 256 -> to_byte (Z.lxor p c) = Z.lxor p (to_byte c).
Proof. intros Hp. rewrite to_byte_lxor, (to_byte_small p Hp). reflexivity. Qed.

Section InTerm.

Context {F : Type} {FO : FloatOps F}.

(** A character of a term: it is appended to the buffer when it is not an
    ignored one and there is room, and returns false. *)
Lemma step_field (c now : Z) (g : FarmGPS F) (w : list Z) :
  in_term g w -> field_byte c = true ->
  exists g',
    decode c now g = Done (false, g')
    /\ in_term g' (take 19 (w ++ stored [c]))
    /\ pub g' = pub g /\ shadow g' = shadow g
    /\ term_number (parser g') = term_number (parser g)
    /\ sentence_type (parser g') = sentence_type (parser g)
    /\ parity (parser g') = Z.lxor (parity (parser g)) (nmea_xor [c]).
Proof.
  intros (Hlen & Hoff & Htake & Hz & Hw & Hck & Hpar) Hc.
  destruct g as [f sh p st]. destruct p as [t n off par ck sm ict ty].
  simpl in *. subst ict off.
  destruct (field_byte_cases c Hc) as [Hi|Hd].
  - rewrite (decode_ignored c now _ Hi). eexists. split; [reflexivity|].
    cbn [nmea_xor stored].
    rewrite (ignored_not_in_domain c Hi), Hi, app_nil_r, Z.lxor_0_r.
    rewrite firstn_all2 by lia.
    unfold in_term; simpl. repeat split; auto; lia.
  - rewrite (decode_default c now _ Hd).
    assert (c <> 0) as Hc0.
    { intros ->. discriminate Hd. }
    assert (is_ignored c = false) as Hni.
    { unfold default_label in Hd. destruct (is_ignored c); [|reflexivity].
      rewrite andb_false_r in Hd. discriminate Hd. }
    cbn [nmea_xor stored].
    rewrite (default_label_in_domain c Hd), Hni, Z.lxor_0_r.
    unfold ordinary; simpl. unfold sizeof_term.
    destruct (Z.of_nat (length w) <? 20 - 1) eqn:E.
    + apply Z.ltb_lt in E.
      rewrite term_put_inside by lia. simpl.
      rewrite Nat2Z.id.
      eexists. split; [reflexivity|].
      assert (take 19 (w ++ [c]) = w ++ [c]) as ->.
      { apply firstn_all2. rewrite length_app. simpl. lia. }
      unfold in_term; simpl. rewrite length_insert, length_app. simpl.
      repeat split; auto; try lia.
      * rewrite to_byte_small by lia. lia.
      * replace (length w + 1)%nat with (S (length w)) by lia.
        rewrite (take_S_r _ _ c).
        -- rewrite take_insert_ge by lia. rewrite Htake. reflexivity.
        -- apply list_lookup_insert_eq. lia.
      * apply not_elem_of_app. split; [exact Hz|].
        apply not_elem_of_cons. split; [congruence | apply not_elem_of_nil].
      * apply to_byte_range.
      * apply to_byte_range.
      * apply xor_into_parity. exact Hpar.
    + apply Z.ltb_ge in E. simpl.
      eexists. split; [reflexivity|].
      assert (take 19 (w ++ [c]) = w) as ->.
      { rewrite take_app_le by lia. apply firstn_all2. lia. }
      unfold in_term; simpl. repeat split; auto; try lia.
      * apply to_byte_range.
      * apply to_byte_range.
      * apply xor_into_parity. exact Hpar.
Qed.

(** A terminator outside a checksum term: the term [w] is completed. *)
Lemma step_terminator (c now : Z) (g : FarmGPS F) (w : list Z) :
  in_term g w -> is_terminator c = true ->
  exists sh ty,
    decode c now g
    = Done (false,
            mkFarmGPS (pub g) sh
              (mkParser (<[length w := 0]> (term (parser g)))
                        (to_byte (term_number (parser g) + 1)) 0
                        (Z.lxor (parity (parser g)) (nmea_xor [c]))
                        (checksum (parser g))
                        (to_int (sum (parser g) + to_byte c))
                        (c =? STAR) ty)
              (count_character (stats g)))
    /\ (term_number (parser g) = 0 -> ty = type_of_token w /\ sh = shadow g)
    /\ (term_number (parser g) <> 0 ->
        ty = sentence_type (parser g)
        /\ (w = [] -> sh = shadow g)
        /\ (w <> [] ->
            extract (sentence_type (parser g)) (term_number (parser g))
                    (<[length w := 0]> (term (parser g))) (shadow g) = Done sh)).
Proof.
  intros (Hlen & Hoff & Htake & Hz & Hw & Hck & Hpar) Hc.
  destruct g as [f sh p st]. destruct p as [t n off par ck sm ict ty].
  simpl in *. subst ict off.
  assert (<[length w := 0]> t = w ++ 0 :: drop (S (length w)) t) as Hbuf.
  { rewrite insert_take_drop by lia. rewrite Htake. reflexivity. }
  assert (nmea_xor [c] = if c =? COMMA then to_byte c else 0) as Hx.
  { simpl. unfold in_checksum_domain, default_label. rewrite Hc.
    simpl. rewrite !andb_false_r, orb_false_r, Z.lxor_0_r. reflexivity. }
  assert ((if c =? COMMA then to_byte (Z.lxor par c) else par)
          = Z.lxor par (nmea_xor [c])) as Hpar'.
  { rewrite Hx. destruct (c =? COMMA); [apply xor_into_parity; exact Hpar|].
    rewrite Z.lxor_0_r. reflexivity. }
  simpl in Hpar'.
  rewrite (decode_terminator c now _ Hc), <- Hpar'. clear Hx Hpar'.
  unfold parse_term.
  destruct (decide (n = 0)) as [Hn|Hn].
  - exists sh, (type_of_token w).
    split; [|split; [auto | intros; contradiction]].
    destruct (c =? COMMA); simpl;
      (rewrite term_put_inside by (simpl; lia)); simpl; rewrite Nat2Z.id;
      (erewrite parse_term_first; [|reflexivity|exact Hn|simpl; exact Hbuf|exact Hz]);
      reflexivity.
  - destruct w as [|c0 w].
    + exists sh, ty.
      split; [|split; [intros; contradiction|]].
      * destruct (c =? COMMA); simpl;
          (rewrite term_put_inside by (simpl; lia)); simpl;
          (erewrite parse_term_empty; [|reflexivity|exact Hn|simpl; exact Hbuf]);
          reflexivity.
      * intros _. split; [reflexivity|].
        split; [reflexivity | intros H; contradiction H; reflexivity].
    + destruct (extract_total ty n (c0 :: w) (drop (S (length (c0 :: w))) t) sh Hz)
        as [sh' Hex].
      rewrite <- Hbuf in Hex. simpl in Hw, Hbuf, Hex.
      exists sh', ty.
      split; [|split; [intros; contradiction|]].
      * destruct (c =? COMMA); simpl;
          (rewrite term_put_inside by (simpl; lia)); simpl; rewrite Nat2Z.id;
          (edestruct (parse_term_field GPS_NO_STATS now) as (sh2 & Hex2 & ->);
           [ | exact Hn | simpl; exact Hbuf | exact Hz | ]; [reflexivity|]);
          simpl in Hex2; simpl in Hex; rewrite Hex in Hex2;
          injection Hex2 as <-; reflexivity.
      * intros _. split; [reflexivity|].
        split; [intros; discriminate | intros _; exact Hex].
Qed.

End InTerm.

(** ** Runs of [feed] *)

Lemma take_take_app (n : nat) (x y : list Z) :
  take n (take n x ++ y) = take n (x ++ y).
Proof.
  destruct (decide (n <= length x)%nat) as [Hle|Hgt].
  - rewrite take_app_le by (rewrite length_take; lia).
    rewrite take_take, Nat.min_id.
    rewrite take_app_le by lia. reflexivity.
  - rewrite (firstn_all2 x) by lia. reflexivity.
Qed.

Lemma type_of_token_take (l : list Z) :
  type_of_token (take 19 l) = type_of_token l.
Proof.
  destruct (decide (length l <= 19)%nat) as [Hle|Hgt].
  - rewrite firstn_all2 by lia. reflexivity.
  - assert (length (take 19 l) = 19%nat) as H19 by (rewrite length_take; lia).
    unfold type_of_token.
    repeat (rewrite bool_decide_eq_false_2;
            [|intros E; apply (f_equal length) in E; cbn in E; lia]).
    reflexivity.
Qed.

Section Runs.

Context {F : Type} {FO : FloatOps F}.

Lemma feed_cons_done (c now : Z) (rest : list (Z * Z)) (g g1 g2 : FarmGPS F)
      (v : bool) (vs : list bool) :
  decode c now g = Done (v, g1) -> feed rest g1 = Done (vs, g2) ->
  feed ((c, now) :: rest) g = Done (v :: vs, g2).
Proof. intros H1 H2. simpl. rewrite H1. simpl. rewrite H2. reflexivity. Qed.

Lemma feed_app_done (a b : list (Z * Z)) (g ga gb : FarmGPS F) (va vb : list bool) :
  feed a g = Done (va, ga) -> feed b ga = Done (vb, gb) ->
  feed (a ++ b) g = Done (va ++ vb, gb).
Proof.
  revert g va. induction a as [|[c now] a IH]; intros g va Ha Hb; simpl in *.
  - injection Ha as <- <-. exact Hb.
  - destruct (decode c now g) as [[v g1]|]; [|discriminate]. simpl in *.
    destruct (feed a g1) as [[vs g2]|] eqn:E; [|discriminate]. simpl in *.
    injection Ha as <- <-.
    rewrite (IH g1 vs E Hb). reflexivity.
Qed.

(** The characters of one term. *)
Lemma feed_field (evs : list (Z * Z)) (g : FarmGPS F) (w : list Z) :
  in_term g w -> forallb field_byte evs.*1 = true ->
  exists g',
    feed evs g = Done (replicate (length evs) false, g')
    /\ in_term g' (take 19 (w ++ stored evs.*1))
    /\ pub g' = pub g /\ shadow g' = shadow g
    /\ term_number (parser g') = term_number (parser g)
    /\ sentence_type (parser g') = sentence_type (parser g)
    /\ parity (parser g') = Z.lxor (parity (parser g)) (nmea_xor evs.*1).
Proof.
  revert g w. induction evs as [|[c now] evs IH]; intros g w Hin Hall.
  - exists g. simpl. rewrite app_nil_r, Z.lxor_0_r.
    destruct Hin as (? & ? & ? & ? & Hw & ?).
    rewrite firstn_all2 by lia.
    unfold in_term. repeat split; tauto.
  - change (forallb field_byte (c :: evs.*1) = true) in Hall.
    simpl in Hall. apply andb_true_iff in Hall as [Hc Hall].
    destruct (step_field c now g w Hin Hc) as (g1 & Hd & Hin1 & Hp & Hs & Hn & Hty & Hpar).
    destruct (IH g1 _ Hin1 Hall) as (g2 & Hf & Hin2 & Hp2 & Hs2 & Hn2 & Hty2 & Hpar2).
    exists g2. split; [apply (feed_cons_done _ _ _ _ _ _ _ _ Hd Hf)|].
    change ((c, now) :: evs).*1 with ([c] ++ evs.*1).
    rewrite take_take_app in Hin2.
    replace (stored ([c] ++ evs.*1)) with (stored [c] ++ stored evs.*1)
      by (simpl; destruct (is_ignored c); reflexivity).
    rewrite app_assoc. split; [exact Hin2|].
    rewrite nmea_xor_app, <- Z.lxor_assoc, <- Hpar, <- Hpar2.
    repeat split; congruence.
Qed.

(** A character of the payload of a sentence. *)
Lemma step_payload (c now : Z) (g : FarmGPS F) (w : list Z) :
  in_term g w -> payload_byte c = true ->
  exists g' w',
    decode c now g = Done (false, g')
    /\ in_term g' w'
    /\ pub g' = pub g
    /\ parity (parser g') = Z.lxor (parity (parser g)) (nmea_xor [c])
    /\ (term_number (parser g) <> 0 ->
        sentence_type (parser g') = sentence_type (parser g))
    /\ (1 <= term_number (parser g) ->
        term_number (parser g) + terminators [c] <= 255 ->
        term_number (parser g') = term_number (parser g) + terminators [c]).
Proof.
  intros Hin Hc. unfold payload_byte in Hc. apply orb_true_iff in Hc as [Hc|Hc].
  - destruct (step_field c now g w Hin Hc) as (g1 & Hd & Hin1 & Hp & Hs & Hn & Hty & Hpar).
    exists g1, (take 19 (w ++ stored [c])).
    split; [exact Hd|]. split; [exact Hin1|]. split; [exact Hp|].
    split; [exact Hpar|]. split; [intros _; exact Hty|].
    intros _ _. simpl. rewrite (field_byte_not_terminator c Hc). lia.
  - apply andb_true_iff in Hc as [Hc Hstar]. apply negb_true_iff in Hstar.
    destruct (step_terminator c now g w Hin Hc) as (sh & ty & Hd & H0 & H1).
    destruct Hin as (Hlen & Hoff & Htake & Hz & Hw & Hck & Hpar).
    eexists. exists (@nil Z). split; [exact Hd|]. rewrite Hstar. simpl.
    split.
    { unfold in_term; simpl. rewrite length_insert.
      repeat split; auto using not_elem_of_nil; try lia;
        destruct (in_checksum_domain c);
        rewrite ?Z.lxor_0_r;
        try (apply lxor_byte_range; [exact Hpar | apply to_byte_range]); lia. }
    split; [reflexivity|]. split; [reflexivity|].
    split; [intros Hn; apply (H1 Hn)|].
    rewrite Hc. intros ? ?. apply to_byte_small. lia.
Qed.

Lemma feed_payload (evs : list (Z * Z)) (g : FarmGPS F) (w : list Z) :
  in_term g w -> forallb payload_byte evs.*1 = true ->
  exists g' w',
    feed evs g = Done (replicate (length evs) false, g')
    /\ in_term g' w'
    /\ pub g' = pub g
    /\ parity (parser g') = Z.lxor (parity (parser g)) (nmea_xor evs.*1)
    /\ (1 <= term_number (parser g) ->
        term_number (parser g) + terminators evs.*1 <= 255 ->
        term_number (parser g') = term_number (parser g) + terminators evs.*1
        /\ sentence_type (parser g') = sentence_type (parser g)).
Proof.
  revert g w. induction evs as [|[c now] evs IH]; intros g w Hin Hall.
  - exists g, w. simpl. rewrite Z.lxor_0_r.
    split; [reflexivity|]. split; [exact Hin|]. repeat split; lia.
  - change (forallb payload_byte (c :: evs.*1) = true) in Hall.
    simpl in Hall. apply andb_true_iff in Hall as [Hc Hall].
    destruct (step_payload c now g w Hin Hc) as (g1 & w1 & Hd & Hin1 & Hp & Hpar & Hty & Hn).
    destruct (IH g1 w1 Hin1 Hall) as (g2 & w2 & Hf & Hin2 & Hp2 & Hpar2 & Hn2).
    exists g2, w2. split; [apply (feed_cons_done _ _ _ _ _ _ _ _ Hd Hf)|].
    split; [exact Hin2|]. split; [congruence|].
    change ((c, now) :: evs).*1 with ([c] ++ evs.*1).
    rewrite nmea_xor_app, <- Z.lxor_assoc, <- Hpar, <- Hpar2.
    split; [reflexivity|].
    intros H1 H255.
    assert (0 <= terminators evs.*1) as Hnn.
    { clear. induction (evs.*1) as [|x l IHl]; simpl; [lia|].
      destruct (is_terminator x); lia. }
    assert (terminators ([c] ++ evs.*1) = terminators [c] + terminators evs.*1) as Hsum
      by (simpl; lia).
    assert (0 <= terminators [c] <= 1) as Hc1
      by (simpl; destruct (is_terminator c); lia).
    rewrite Hsum in *.
    specialize (Hn H1 ltac:(lia)).
    destruct Hn2 as [Hn2 Hty2]; [lia|lia|].
    split; [lia|]. rewrite Hty2. apply Hty. lia.
Qed.

End Runs.

(** ** The checksum term *)

Ltac unfold_classes :=
  unfold is_hex_digit, default_label, field_byte, payload_byte, is_start,
         is_ignored, is_terminator, in_checksum_domain,
         TRIMBLE_ID, DOLLAR, AT_SIGN, SPACE, COMMA, COLON, STAR, CR, LF,
         ETX, DLE in *.

Ltac to_prop H :=
  rewrite ?orb_true_iff, ?andb_true_iff, ?negb_true_iff, ?orb_false_iff,
          ?andb_false_iff, ?Z.leb_le, ?Z.eqb_eq, ?Z.eqb_neq in H.

Ltac goal_to_prop :=
  rewrite ?orb_true_iff, ?andb_true_iff, ?negb_true_iff, ?orb_false_iff,
          ?andb_false_iff, ?Z.leb_le, ?Z.eqb_eq, ?Z.eqb_neq.

Lemma hex_digit_default (c : Z) : is_hex_digit c = true -> default_label c = true.
Proof. intros H. unfold_classes. to_prop H. goal_to_prop. lia. Qed.

Lemma hex_digit_value (c : Z) : is_hex_digit c = true -> 0 <= hex_to_int c <= 15.
Proof.
  intros H. unfold is_hex_digit in H. unfold hex_to_int. to_prop H.
  destruct ((65 <=? c) && (c <=? 70)) eqn:E1; [to_prop E1; lia|].
  destruct ((97 <=? c) && (c <=? 102)) eqn:E2; [to_prop E2; lia|].
  to_prop E1. to_prop E2. rewrite Z.leb_gt in E1, E2. lia.
Qed.

Lemma hex_pair_byte (h1 h2 : Z) :
  is_hex_digit h1 = true -> is_hex_digit h2 = true ->
  to_byte (16 * hex_to_int h1 + hex_to_int h2) = 16 * hex_to_int h1 + hex_to_int h2.
Proof.
  intros H1 H2. apply to_byte_small.
  pose proof (hex_digit_value h1 H1). pose proof (hex_digit_value h2 H2). lia.
Qed.

Section Checksum.

Context {F : Type} {FO : FloatOps F}.

(** [parse_term] on a checksum term. *)
Lemma parse_term_checksum (ns : bool) (now : Z) (g : FarmGPS F) (t0 t1 : Z) (rest : list Z) :
  is_checksum_term (parser g) = true ->
  term (parser g) = t0 :: t1 :: rest ->
  parse_term_with ns now g
  = (let ck := expected_checksum (parser g) t0 t1 in
     if ck =? parity (parser g)
     then Done (true,
                mkFarmGPS (commit now (sentence_type (parser g)) (shadow g) (pub g))
                          (shadow g) (set_checksum ck (parser g))
                          (count_good ns (stats g)))
     else Done (false,
                mkFarmGPS (pub g) (shadow g) (set_checksum ck (parser g))
                          (count_failed ns (stats g)))).
Proof.
  intros Hck Ht. unfold parse_term_with, expected_checksum.
  rewrite Hck, Ht. unfold term_at. simpl.
  destruct (types_eqb (sentence_type (parser g)) XTE2); simpl;
    match goal with |- context [?a =? ?b] => destruct (a =? b) end; reflexivity.
Qed.

(** The ['*'] that ends the payload and opens the checksum term. *)
Lemma step_star (now : Z) (g : FarmGPS F) (w : list Z) :
  in_term g w ->
  exists g',
    decode STAR now g = Done (false, g')
    /\ pub g' = pub g
    /\ length (term (parser g')) = 20%nat
    /\ term_offset (parser g') = 0
    /\ is_checksum_term (parser g') = true
    /\ parity (parser g') = parity (parser g)
    /\ (term_number (parser g) <> 0 ->
        sentence_type (parser g') = sentence_type (parser g))
    /\ (term_number (parser g) = 0 ->
        sentence_type (parser g') = type_of_token w /\ shadow g' = shadow g).
Proof.
  intros Hin.
  destruct (step_terminator STAR now g w Hin eq_refl) as (sh & ty & Hd & H0 & H1).
  destruct Hin as (Hlen & Hoff & Htake & Hz & Hw & Hck & Hpar).
  eexists. split; [exact Hd|]. simpl. rewrite length_insert.
  change (nmea_xor [STAR]) with 0. rewrite Z.lxor_0_r.
  repeat split; auto.
  - intros Hn. apply (H1 Hn).
  - apply (H0 H).
  - apply (H0 H).
Qed.

(** A character of the checksum token: the accumulator is not touched. *)
Lemma step_checksum_char (c now : Z) (g : FarmGPS F) :
  length (term (parser g)) = 20%nat ->
  0 <= term_offset (parser g) <= 19 ->
  is_checksum_term (parser g) = true ->
  field_byte c = true ->
  exists g',
    decode c now g = Done (false, g')
    /\ pub g' = pub g /\ shadow g' = shadow g
    /\ length (term (parser g')) = 20%nat
    /\ 0 <= term_offset (parser g') <= 19
    /\ is_checksum_term (parser g') = true
    /\ parity (parser g') = parity (parser g)
    /\ sentence_type (parser g') = sentence_type (parser g).
Proof.
  intros Hlen Hoff Hck Hc.
  destruct g as [f sh p st]. destruct p as [t n off par ck sm ict ty].
  simpl in *. subst ict.
  destruct (field_byte_cases c Hc) as [Hi|Hd].
  - rewrite (decode_ignored c now _ Hi). eexists. split; [reflexivity|].
    simpl. repeat split; auto; lia.
  - rewrite (decode_default c now _ Hd). unfold ordinary, sizeof_term. simpl.
    destruct (off <? 20 - 1) eqn:E.
    + apply Z.ltb_lt in E. rewrite term_put_inside by lia. simpl.
      eexists. split; [reflexivity|]. simpl. rewrite length_insert.
      rewrite to_byte_small by lia. repeat split; auto; lia.
    + simpl. eexists. split; [reflexivity|]. simpl. repeat split; auto; lia.
Qed.

(** The checksum token (two hexadecimal digits) and its terminator. *)
Lemma feed_checksum_token (g : FarmGPS F) (h1 h2 e : Z * Z) :
  length (term (parser g)) = 20%nat ->
  term_offset (parser g) = 0 ->
  is_checksum_term (parser g) = true ->
  is_hex_digit h1.1 = true -> is_hex_digit h2.1 = true ->
  is_terminator e.1 = true -> e.1 <> COMMA ->
  let ck := expected_checksum (parser g) h1.1 h2.1 in
  exists g',
    feed [h1; h2; e] g = Done ([false; false; ck =? parity (parser g)], g')
    /\ pub g' = (if ck =? parity (parser g)
                 then commit e.2 (sentence_type (parser g)) (shadow g) (pub g)
                 else pub g)
    /\ shadow g' = shadow g
    /\ checksum (parser g') = ck
    /\ parity (parser g') = parity (parser g)
    /\ sentence_type (parser g') = sentence_type (parser g).
Proof.
  intros Hlen Hoff Hck H1 H2 He Hne.
  destruct h1 as [c1 n1], h2 as [c2 n2], e as [ce ne].
  destruct g as [f sh p st]. destruct p as [t n off par ck0 sm ict ty].
  simpl in *. subst ict off.
  destruct t as [|x0 [|x1 [|x2 t]]]; try (simpl in Hlen; lia).
  apply hex_digit_default in H1, H2.
  set (g0 := mkFarmGPS f sh (mkParser (x0 :: x1 :: x2 :: t) n 0 par ck0 sm true ty) st).
  assert (exists st1 sm1,
            decode c1 n1 g0
            = Done (false,
                    mkFarmGPS f sh (mkParser (c1 :: x1 :: x2 :: t) n 1 par ck0 sm1 true ty) st1))
    as (st1 & sm1 & Hd1).
  { rewrite (decode_default c1 n1 _ H1). unfold ordinary, sizeof_term. simpl.
    unfold term_put. simpl. eexists _, _. reflexivity. }
  assert (exists st2 sm2,
            decode c2 n2
              (mkFarmGPS f sh (mkParser (c1 :: x1 :: x2 :: t) n 1 par ck0 sm1 true ty) st1)
            = Done (false,
                    mkFarmGPS f sh (mkParser (c1 :: c2 :: x2 :: t) n 2 par ck0 sm2 true ty) st2))
    as (st2 & sm2 & Hd2).
  { rewrite (decode_default c2 n2 _ H2). unfold ordinary, sizeof_term. simpl.
    rewrite term_put_inside by (simpl in *; lia).
    change (Z.to_nat 1) with 1%nat. simpl. eexists _, _. reflexivity. }
  assert (decode ce ne
            (mkFarmGPS f sh (mkParser (c1 :: c2 :: x2 :: t) n 2 par ck0 sm2 true ty) st2)
          = (let p := mkParser (c1 :: c2 :: x2 :: t) n 2 par ck0 sm2 true ty in
             let ck := expected_checksum p c1 c2 in
             Done (ck =? par,
                   mkFarmGPS (if ck =? par then commit ne ty sh f else f) sh
                     (mkParser (c1 :: c2 :: 0 :: t) (to_byte (n + 1)) 0 par ck
                               (to_int (sm2 + to_byte ce)) (ce =? STAR) ty)
                     (if ck =? par
                      then count_good GPS_NO_STATS (count_character st2)
                      else count_failed GPS_NO_STATS (count_character st2)))))
    as Hd3.
  { rewrite (decode_terminator ce ne _ He).
    assert ((ce =? COMMA) = false) as -> by (apply Z.eqb_neq; exact Hne).
    simpl. rewrite term_put_inside by (simpl in *; lia).
    change (Z.to_nat 2) with 2%nat. simpl. unfold parse_term.
    erewrite parse_term_checksum; [|reflexivity|reflexivity].
    unfold expected_checksum. simpl.
    match goal with |- context [?a =? par] => destruct (a =? par) end; reflexivity. }
  fold g0. rewrite Hd1. simpl. rewrite Hd2. simpl. rewrite Hd3.
  unfold expected_checksum. simpl.
  eexists. split; [reflexivity|]. simpl.
  match goal with |- context [?a =? par] => destruct (a =? par) end;
    repeat split; reflexivity.
Qed.

End Checksum.

(** ** Whole sentences *)

Lemma quiet_run (n : nat) (b : bool) :
  false :: replicate n false ++ [false; false; false; b]
  = replicate (n + 4) false ++ [b].
Proof.
  rewrite replicate_add. simpl. rewrite <- app_assoc. simpl.
  induction n as [|n IH]; simpl; [reflexivity|]. rewrite <- IH. reflexivity.
Qed.

Lemma terminators_nonneg (l : list Z) : 0 <= terminators l.
Proof.
  induction l as [|x l IH]; simpl; [lia|]. destruct (is_terminator x); lia.
Qed.

Section Sentences.

Context {F : Type} {FO : FloatOps F}.

(** A start marker opens a term, whatever came before. *)
Lemma step_start (c now : Z) (g : FarmGPS F) :
  length (term (parser g)) = 20%nat -> is_start c = true ->
  exists g',
    decode c now g = Done (false, g')
    /\ in_term g' []
    /\ pub g' = pub g /\ shadow g' = shadow g
    /\ term_number (parser g') = 0
    /\ parity (parser g') = 0
    /\ sentence_type (parser g') = OTHER.
Proof.
  intros Hlen Hc. rewrite (decode_start c now g Hc).
  eexists. split; [reflexivity|]. unfold in_term. simpl.
  repeat split; auto using not_elem_of_nil; lia.
Qed.

(** A terminator other than ['*'] closes a term and opens the next one. *)
Lemma step_separator (c now : Z) (g : FarmGPS F) (w : list Z) :
  in_term g w -> is_terminator c = true -> c <> STAR ->
  exists g',
    decode c now g = Done (false, g')
    /\ in_term g' []
    /\ pub g' = pub g
    /\ term_number (parser g') = to_byte (term_number (parser g) + 1)
    /\ parity (parser g') = Z.lxor (parity (parser g)) (nmea_xor [c])
    /\ (term_number (parser g) = 0 ->
        sentence_type (parser g') = type_of_token w /\ shadow g' = shadow g)
    /\ (term_number (parser g) <> 0 ->
        sentence_type (parser g') = sentence_type (parser g)
        /\ (w = [] -> shadow g' = shadow g)
        /\ (w <> [] ->
            extract (sentence_type (parser g)) (term_number (parser g))
                    (<[length w := 0]> (term (parser g))) (shadow g)
            = Done (shadow g'))).
Proof.
  intros Hin Hc Hstar.
  destruct (step_terminator c now g w Hin Hc) as (sh & ty & Hd & H0 & H1).
  destruct Hin as (Hlen & Hoff & Htake & Hz & Hw & Hck & Hpar).
  eexists. split; [exact Hd|]. simpl.
  split.
  { unfold in_term; simpl. rewrite length_insert.
    apply Z.eqb_neq in Hstar. rewrite Hstar.
    repeat split; auto using not_elem_of_nil; try lia;
      destruct (in_checksum_domain c);
      rewrite ?Z.lxor_0_r;
      try (apply lxor_byte_range; [exact Hpar | apply to_byte_range]); lia. }
  repeat split; auto; try (apply H0; assumption); apply H1; assumption.
Qed.

(** The payload of a sentence and the ['*'] after it, from the state a
    start marker leaves (or any state at term 0): the sentence type is the
    one its first field selects, provided the term counter (a byte) does not
    wrap around. *)
Lemma feed_body (pl : list (Z * Z)) (tstar : Z) (g : FarmGPS F) (w : list Z) :
  in_term g w -> term_number (parser g) = 0 ->
  forallb payload_byte pl.*1 = true ->
  terminators pl.*1 <= 254 ->
  exists g',
    feed (pl ++ [(STAR, tstar)]) g = Done (replicate (length pl + 1) false, g')
    /\ pub g' = pub g
    /\ length (term (parser g')) = 20%nat
    /\ term_offset (parser g') = 0
    /\ is_checksum_term (parser g') = true
    /\ parity (parser g') = Z.lxor (parity (parser g)) (nmea_xor pl.*1)
    /\ sentence_type (parser g')
       = type_of_token (take 19 (w ++ stored (first_field pl.*1))).
Proof.
  revert g w. induction pl as [|[c now] pl IH]; intros g w Hin Hn Hall Hterm.
  - destruct (step_star tstar g w Hin) as (g1 & Hd & Hp & Hl & Ho & Hc & Hpar & _ & Hty).
    exists g1. simpl. rewrite Hd. simpl. rewrite app_nil_r, Z.lxor_0_r.
    destruct Hin as (_ & _ & _ & _ & Hw & _).
    rewrite firstn_all2 by lia.
    repeat split; auto. apply (Hty Hn).
  - change (forallb payload_byte (c :: pl.*1) = true) in Hall.
    simpl in Hall. apply andb_true_iff in Hall as [Hc Hall].
    change ((c, now) :: pl).*1 with ([c] ++ pl.*1) in *.
    assert (terminators ([c] ++ pl.*1) = terminators [c] + terminators pl.*1) as Hsum
      by (simpl; lia).
    rewrite Hsum in Hterm. rewrite nmea_xor_app, <- Z.lxor_assoc.
    pose proof (terminators_nonneg pl.*1) as Hnn.
    unfold payload_byte in Hc. apply orb_true_iff in Hc as [Hc|Hc].
    + destruct (step_field c now g w Hin Hc) as (g1 & Hd & Hin1 & Hp & Hs & Hn1 & Hty & Hpar).
      assert (terminators [c] = 0) as Hc0
        by (simpl; rewrite (field_byte_not_terminator c Hc); lia).
      destruct (IH g1 _ Hin1 ltac:(congruence) Hall ltac:(lia))
        as (g2 & Hf & Hp2 & Hl2 & Ho2 & Hc2 & Hpar2 & Hty2).
      exists g2. split.
      { change (((c, now) :: pl) ++ [(STAR, tstar)])
          with ((c, now) :: (pl ++ [(STAR, tstar)])).
        apply (feed_cons_done _ _ _ _ _ _ _ _ Hd Hf). }
      rewrite take_take_app, <- app_assoc in Hty2.
      replace (stored (first_field ([c] ++ pl.*1)))
        with (stored [c] ++ stored (first_field pl.*1)).
      2:{ simpl. rewrite (field_byte_not_terminator c Hc). simpl.
          destruct (is_ignored c); reflexivity. }
      rewrite <- Hpar, <- Hpar2. repeat split; auto. congruence.
    + apply andb_true_iff in Hc as [Hc Hstar]. apply negb_true_iff in Hstar.
      apply Z.eqb_neq in Hstar.
      destruct (step_separator c now g w Hin Hc Hstar)
        as (g1 & Hd & Hin1 & Hp & Hn1 & Hpar & Hty & _).
      rewrite Hn in Hn1. change (to_byte (0 + 1)) with 1 in Hn1.
      assert (terminators [c] = 1) as Hc1 by (simpl; rewrite Hc; lia).
      destruct (feed_payload pl g1 [] Hin1 Hall)
        as (g2 & w2 & Hf & Hin2 & Hp2 & Hpar2 & Hn2).
      destruct Hn2 as [Hn2 Hty2]; [lia|lia|].
      destruct (step_star tstar g2 w2 Hin2)
        as (g3 & Hd3 & Hp3 & Hl3 & Ho3 & Hc3 & Hpar3 & Hty3 & _).
      exists g3. split.
      { change (((c, now) :: pl) ++ [(STAR, tstar)])
          with ((c, now) :: (pl ++ [(STAR, tstar)])).
        eapply feed_cons_done; [exact Hd|].
        replace (length pl + 1)%nat with (length pl + length [(STAR, tstar)])%nat
          by reflexivity.
        rewrite replicate_add.
        eapply feed_app_done; [exact Hf|].
        simpl. rewrite Hd3. reflexivity. }
      replace (first_field ([c] ++ pl.*1)) with (@nil Z) by (simpl; rewrite Hc; reflexivity).
      simpl stored. rewrite app_nil_r.
      destruct Hin as (_ & _ & _ & _ & Hw & _).
      rewrite firstn_all2 by lia.
      rewrite Hpar3, Hpar2, Hpar.
      repeat split; auto; try congruence.
      rewrite Hty3 by lia. rewrite Hty2. apply (Hty Hn).
Qed.

(** The same run without an assumption on the number of terms: nothing is
    said about the sentence type. *)
Lemma feed_body_parity (pl : list (Z * Z)) (tstar : Z) (g : FarmGPS F) (w : list Z) :
  in_term g w ->
  forallb payload_byte pl.*1 = true ->
  exists g',
    feed (pl ++ [(STAR, tstar)]) g = Done (replicate (length pl + 1) false, g')
    /\ pub g' = pub g
    /\ length (term (parser g')) = 20%nat
    /\ term_offset (parser g') = 0
    /\ is_checksum_term (parser g') = true
    /\ parity (parser g') = Z.lxor (parity (parser g)) (nmea_xor pl.*1).
Proof.
  intros Hin Hall.
  destruct (feed_payload pl g w Hin Hall) as (g2 & w2 & Hf & Hin2 & Hp2 & Hpar2 & _).
  destruct (step_star tstar g2 w2 Hin2)
    as (g3 & Hd3 & Hp3 & Hl3 & Ho3 & Hc3 & Hpar3 & _).
  exists g3. split.
  { replace (length pl + 1)%nat with (length pl + length [(STAR, tstar)])%nat
      by reflexivity.
    rewrite replicate_add.
    eapply feed_app_done; [exact Hf|]. simpl. rewrite Hd3. reflexivity. }
  repeat split; auto; congruence.
Qed.

End Sentences.

Section SentenceTheorems.

Context {F : Type} {FO : FloatOps F}.

(** C5. On completion of term 0 (outside the checksum branch) [parse_term]
    returns false and sets [sentence_type] by [strcmp] of the term against
    "GPGGA", "GPVTG", "GPXTE" and "ROXTE", which is equality of the whole
    token, character for character: GGA, VTG, XTE and XTE2 are selected by
    exactly these tokens and every other token (a strict prefix, an
    extension, another case) gives OTHER.  [strcmp] returns true if and only
    if the two strings are equal up to their NUL terminators.  So after a
    start marker, the characters of a first term and a terminator, in
    whatever state the marker arrives, the sentence type is the one the term
    selects and every call has returned false. *)
Theorem first_term_selects_type (now : Z) (g : FarmGPS F) (tok rest : list Z) :
  is_checksum_term (parser g) = false ->
  term_number (parser g) = 0 ->
  term (parser g) = tok ++ 0 :: rest -> 0 ∉ tok ->
  parse_term now g
  = Done (false, with_parser (set_sentence_type (type_of_token tok) (parser g)) g)
  /\ (type_of_token tok = GGA <-> tok = chars "GPGGA")
  /\ (type_of_token tok = VTG <-> tok = chars "GPVTG")
  /\ (type_of_token tok = XTE <-> tok = chars "GPXTE")
  /\ (type_of_token tok = XTE2 <-> tok = chars "ROXTE")
  /\ (type_of_token tok = OTHER <->
      tok <> chars "GPGGA" /\ tok <> chars "GPVTG"
      /\ tok <> chars "GPXTE" /\ tok <> chars "ROXTE")
  /\ type_of_token (chars "GPGG") = OTHER
  /\ type_of_token (chars "GPGGAX") = OTHER
  /\ type_of_token (chars "gpgga") = OTHER
  /\ (forall other rest2 : list Z, 0 ∉ other ->
        exists b, strcmp (term (parser g)) (other ++ 0 :: rest2) = Done b
                  /\ (b = true <-> tok = other))
  /\ (forall (h : FarmGPS F) (start t0 : Z) (field : list (Z * Z)) (sep : Z * Z),
        length (term (parser h)) = 20%nat ->
        is_start start = true ->
        forallb field_byte field.*1 = true ->
        is_terminator sep.1 = true ->
        exists h',
          feed ((start, t0) :: field ++ [sep]) h
          = Done (replicate (length field + 2) false, h')
          /\ sentence_type (parser h') = type_of_token (stored field.*1)).
Proof.
  intros Hck Hn Ht Hz.
  split; [apply (parse_term_first GPS_NO_STATS now g tok rest Hck Hn Ht Hz)|].
  destruct (type_of_token_cases tok) as (H1 & H2 & H3 & H4 & H5).
  do 5 (split; [assumption|]).
  do 3 (split; [reflexivity|]).
  split.
  { intros other rest2 Ho. exists (bool_decide (tok = other)).
    rewrite Ht, (strcmp_prefix tok other rest rest2 Hz Ho).
    split; [reflexivity|]. apply bool_decide_eq_true. }
  intros h start t0 field [csep tsep] Hlen Hs Hfield Hsep. simpl in Hsep.
  destruct (step_start start t0 h Hlen Hs) as (g1 & Hd1 & Hin1 & _ & _ & Hn1 & _).
  destruct (feed_field field g1 [] Hin1 Hfield)
    as (g2 & Hf2 & Hin2 & _ & _ & Hn2 & _).
  destruct (step_terminator csep tsep g2 _ Hin2 Hsep) as (sh & ty & Hd3 & H0 & _).
  destruct H0 as [Hty _]; [congruence|].
  eexists. split.
  - replace (replicate (length field + 2) false)
      with (false :: replicate (length field) false ++ [false]).
    2:{ replace (length field + 2)%nat with (S (length field) + 1)%nat by lia.
        rewrite (replicate_add (S (length field)) 1). reflexivity. }
    eapply feed_cons_done; [exact Hd1|].
    eapply feed_app_done; [exact Hf2|].
    simpl. rewrite Hd3. reflexivity.
  - simpl. rewrite Hty. apply type_of_token_take.
Qed.

(** C1. An ASCII sentence: a start marker, a payload (any characters but
    the frame markers, ['*'] and the binary terminator), ['*'], two
    hexadecimal digits and a terminator other than the comma.  When the
    value of the two digits equals the XOR of the payload characters of the
    checksum domain, [decode] returns false on every character before the
    one that terminates the checksum token, and true on that one; this
    holds in whatever state the sentence begins. *)
Theorem valid_sentence_accepted
    (g : FarmGPS F) (start t0 tstar : Z) (payload : list (Z * Z)) (h1 h2 e : Z * Z) :
  length (term (parser g)) = 20%nat ->
  is_start start = true ->
  forallb payload_byte payload.*1 = true ->
  is_hex_digit h1.1 = true -> is_hex_digit h2.1 = true ->
  is_terminator e.1 = true -> e.1 <> COMMA ->
  16 * hex_to_int h1.1 + hex_to_int h2.1 = nmea_xor payload.*1 ->
  exists g',
    feed ((start, t0) :: payload ++ [(STAR, tstar); h1; h2; e]) g
    = Done (replicate (length payload + 4) false ++ [true], g').
Proof.
  intros Hlen Hs Hall H1 H2 He Hne Hsum.
  destruct (step_start start t0 g Hlen Hs) as (g1 & Hd1 & Hin1 & Hp1 & _ & _ & Hpar1 & _).
  destruct (feed_body_parity payload tstar g1 [] Hin1 Hall)
    as (g2 & Hf2 & Hp2 & Hl2 & Ho2 & Hc2 & Hpar2).
  destruct (feed_checksum_token g2 h1 h2 e Hl2 Ho2 Hc2 H1 H2 He Hne)
    as (g3 & Hf3 & _).
  rewrite Hpar1, Z.lxor_0_l in Hpar2.
  assert (expected_checksum (parser g2) h1.1 h2.1 = parity (parser g2)) as Hck.
  { unfold expected_checksum.
    destruct (types_eqb (sentence_type (parser g2)) XTE2); [reflexivity|].
    rewrite hex_pair_byte by assumption. congruence. }
  rewrite Hck, Z.eqb_refl in Hf3.
  exists g3. rewrite <- quiet_run.
  eapply feed_cons_done; [exact Hd1|].
  change (payload ++ [(STAR, tstar); h1; h2; e])
    with (payload ++ [(STAR, tstar)] ++ [h1; h2; e]).
  rewrite app_assoc.
  replace (replicate (length payload) false ++ [false; false; false; true])
    with (replicate (length payload + 1) false ++ [false; false; true]).
  2:{ rewrite replicate_add, <- app_assoc. reflexivity. }
  eapply feed_app_done; [exact Hf2 | exact Hf3].
Qed.

(** C3, as the code has it.  From a start marker on, the accumulator
    [parity] is the XOR of the characters received that are in the checksum
    domain: the start marker resets it, the comma is in the domain, [':'],
    ['*'], CR and LF are not, the characters of the checksum token leave it
    as it is, and every ordinary character is XORed in whether the buffer
    has room for it or not.  The value a checksum term is compared with is
    the byte [checksum]: for a sentence type other than XTE2 it is
    [16 * hex_to_int(term[0]) + hex_to_int(term[1])] (reduced to a byte,
    which changes nothing for two hexadecimal digits); for XTE2, the type
    the first term "ROXTE" selects, it is [parity] itself. *)
Theorem parity_is_xor_of_checksum_domain
    (g : FarmGPS F) (start t0 tstar : Z) (payload token : list (Z * Z)) :
  length (term (parser g)) = 20%nat ->
  is_start start = true ->
  forallb payload_byte payload.*1 = true ->
  forallb field_byte token.*1 = true ->
  (exists vs g1,
      feed ((start, t0) :: payload) g = Done (vs, g1)
      /\ parity (parser g1) = nmea_xor payload.*1)
  /\ (exists vs g2,
         feed ((start, t0) :: payload ++ (STAR, tstar) :: token) g = Done (vs, g2)
         /\ parity (parser g2) = nmea_xor payload.*1
         /\ is_checksum_term (parser g2) = true)
  /\ in_checksum_domain COMMA = true
  /\ in_checksum_domain COLON = false /\ in_checksum_domain STAR = false
  /\ in_checksum_domain CR = false /\ in_checksum_domain LF = false
  /\ in_checksum_domain DOLLAR = false /\ in_checksum_domain AT_SIGN = false
  /\ (forall c, default_label c = true -> in_checksum_domain c = true)
  /\ (forall (now : Z) (g3 : FarmGPS F) (c0 c1 : Z) (rest : list Z),
         is_checksum_term (parser g3) = true ->
         term (parser g3) = c0 :: c1 :: rest ->
         exists g4,
           parse_term now g3 = Done (checksum (parser g4) =? parity (parser g3), g4)
           /\ (sentence_type (parser g3) <> XTE2 ->
               checksum (parser g4) = to_byte (16 * hex_to_int c0 + hex_to_int c1)
               /\ (is_hex_digit c0 = true -> is_hex_digit c1 = true ->
                   checksum (parser g4) = 16 * hex_to_int c0 + hex_to_int c1))
           /\ (sentence_type (parser g3) = XTE2 ->
               checksum (parser g4) = parity (parser g3))).
Proof.
  intros Hlen Hs Hall Htok.
  destruct (step_start start t0 g Hlen Hs) as (g1 & Hd1 & Hin1 & Hp1 & _ & Hn1 & Hpar1 & _).
  destruct (feed_payload payload g1 [] Hin1 Hall) as (g2 & w2 & Hf2 & Hin2 & _ & Hpar2 & _).
  rewrite Hpar1, Z.lxor_0_l in Hpar2.
  split.
  { eexists _, g2. split; [|exact Hpar2].
    eapply feed_cons_done; [exact Hd1 | exact Hf2]. }
  split.
  { destruct (step_star tstar g2 w2 Hin2) as (g3 & Hd3 & _ & Hl3 & Ho3 & Hc3 & Hpar3 & _).
    assert (forall (evs : list (Z * Z)) (h : FarmGPS F),
               forallb field_byte evs.*1 = true ->
               length (term (parser h)) = 20%nat ->
               0 <= term_offset (parser h) <= 19 ->
               is_checksum_term (parser h) = true ->
               exists vs h',
                 feed evs h = Done (vs, h')
                 /\ parity (parser h') = parity (parser h)
                 /\ is_checksum_term (parser h') = true) as Hrun.
    { induction evs as [|[c now] evs IH]; intros h Hev Hl Ho Hc.
      - eexists _, h. split; [reflexivity|]. auto.
      - change (forallb field_byte (c :: evs.*1) = true) in Hev.
        simpl in Hev. apply andb_true_iff in Hev as [Hcb Hev].
        destruct (step_checksum_char c now h Hl Ho Hc Hcb)
          as (h1 & Hdh & _ & _ & Hl1 & Ho1 & Hc1 & Hp1' & _).
        destruct (IH h1 Hev Hl1 Ho1 Hc1) as (vs & h2 & Hfh & Hp2' & Hc2).
        eexists _, h2. split; [eapply feed_cons_done; [exact Hdh | exact Hfh]|].
        split; [congruence | exact Hc2]. }
    destruct (Hrun token g3 Htok Hl3 ltac:(lia) Hc3) as (vs & g4 & Hf4 & Hp4 & Hc4).
    eexists _, g4. split; [|split; [congruence | exact Hc4]].
    eapply feed_cons_done; [exact Hd1|].
    eapply feed_app_done; [exact Hf2|].
    eapply feed_cons_done; [exact Hd3 | exact Hf4]. }
  do 7 (split; [reflexivity|]).
  split; [exact default_label_in_domain|].
  intros now g3 c0 c1 rest Hc3 Ht3.
  destruct g3 as [f3 sh3 p3 st3]. destruct p3 as [t3 n3 off3 par3 ck3 sm3 ict3 ty3].
  simpl in *. subst ict3 t3.
  unfold parse_term. erewrite parse_term_checksum; [|reflexivity|reflexivity].
  unfold expected_checksum. simpl.
  destruct (types_eqb ty3 XTE2) eqn:Ety.
  - rewrite Z.eqb_refl.
    match goal with |- exists g4, Done (_, ?X) = _ /\ _ => exists X end.
    simpl. rewrite Z.eqb_refl. split; [reflexivity|]. split; [|reflexivity].
    intros Hne. destruct ty3; try discriminate Ety. contradiction Hne; reflexivity.
  - destruct (to_byte (16 * hex_to_int c0 + hex_to_int c1) =? par3) eqn:E;
      match goal with |- exists g4, Done (_, ?X) = _ /\ _ => exists X end;
      simpl; rewrite E; (split; [reflexivity|]);
      (split; [intros _; split; [reflexivity | intros Hh0 Hh1; apply hex_pair_byte; assumption]
              | intros ->; discriminate Ety]).
Qed.

End SentenceTheorems.

(** ** What one call changes *)

Lemma bind_Done {A B : Type} (m : outcome A) (k : A -> outcome B) (x : B) :
  m ≫= k = Done x -> exists a, m = Done a /\ k a = Done x.
Proof. destruct m as [a|]; [|discriminate]. intros H. exists a. auto. Qed.

Lemma term_put_length (t t' : list Z) (i v : Z) :
  term_put t i v = Done t' -> length t' = length t.
Proof.
  unfold term_put. destruct ((0 <=? i) && (i <? Z.of_nat (length t))); [|discriminate].
  intros H. injection H as <-. apply length_insert.
Qed.

Section Effects.

Context {F : Type} {FO : FloatOps F}.

(** [parse_term] touches neither the buffer nor the counters of the
    tokenizer; it publishes exactly when it returns true, and then what it
    publishes is [commit]. *)
Lemma parse_term_effect (ns : bool) (now : Z) (g g' : FarmGPS F) (v : bool) :
  parse_term_with ns now g = Done (v, g') ->
  term (parser g') = term (parser g)
  /\ term_number (parser g') = term_number (parser g)
  /\ term_offset (parser g') = term_offset (parser g)
  /\ parity (parser g') = parity (parser g)
  /\ sum (parser g') = sum (parser g)
  /\ is_checksum_term (parser g') = is_checksum_term (parser g)
  /\ (v = true ->
      is_checksum_term (parser g) = true
      /\ sentence_type (parser g') = sentence_type (parser g)
      /\ shadow g' = shadow g
      /\ pub g' = commit now (sentence_type (parser g)) (shadow g) (pub g)
      /\ checksum (parser g') = parity (parser g)
      /\ stats g' = count_good ns (stats g))
  /\ (v = false ->
      pub g' = pub g
      /\ (is_checksum_term (parser g) = true ->
          stats g' = count_failed ns (stats g)
          /\ checksum (parser g') <> parity (parser g)
          /\ shadow g' = shadow g
          /\ sentence_type (parser g') = sentence_type (parser g))
      /\ (is_checksum_term (parser g) = false -> stats g' = stats g)).
Proof.
  destruct g as [f sh p st]. destruct p as [t n off par ck sm ict ty].
  unfold parse_term_with. simpl.
  destruct ict.
  - intros H. apply bind_Done in H as (ck' & _ & H). simpl in H.
    destruct (ck' =? par) eqn:E; injection H as <- <-; simpl;
      repeat split; auto; try discriminate.
    + apply Z.eqb_eq in E. exact E.
    + apply Z.eqb_neq in E. exact E.
  - destruct (n =? 0).
    + intros H. apply bind_Done in H as (ty' & _ & H).
      injection H as <- <-. simpl. repeat split; auto; discriminate.
    + intros H. apply bind_Done in H as (x & _ & H).
      destruct (x =? 0).
      * injection H as <- <-. simpl. repeat split; auto; discriminate.
      * apply bind_Done in H as (sh' & _ & H).
        injection H as <- <-. simpl. repeat split; auto; discriminate.
Qed.

(** The default label. *)
Lemma ordinary_effect (c : Z) (g g' : FarmGPS F) (v : bool) :
  ordinary c g = Done (v, g') ->
  v = false /\ pub g' = pub g /\ shadow g' = shadow g /\ stats g' = stats g
  /\ length (term (parser g')) = length (term (parser g))
  /\ (0 <= term_offset (parser g) <= 19 -> 0 <= term_offset (parser g') <= 19)
  /\ sentence_type (parser g') = sentence_type (parser g).
Proof.
  destruct g as [f sh p st]. destruct p as [t n off par ck sm ict ty].
  unfold ordinary, sizeof_term. simpl.
  destruct (off <? 20 - 1) eqn:E.
  - intros H. apply bind_Done in H as (p1 & H1 & H).
    apply bind_Done in H1 as (t' & Hput & H1). injection H1 as <-.
    apply term_put_length in Hput. apply Z.ltb_lt in E.
    simpl in H. destruct ict; injection H as <- <-; simpl;
      repeat split; auto; intros; rewrite to_byte_small; lia.
  - simpl. destruct ict; intros H; injection H as <- <-; simpl; repeat split; auto; lia.
Qed.

(** [decode]: the buffer keeps its size, the write cursor stays within
    0..19, the character counter advances, the other two counters stay, and
    the published members change exactly when true is returned, to the
    [commit] of the [new_...] members. *)
Lemma decode_effect (c now : Z) (g g' : FarmGPS F) (v : bool) :
  decode c now g = Done (v, g') ->
  length (term (parser g')) = length (term (parser g))
  /\ (0 <= term_offset (parser g) <= 19 -> 0 <= term_offset (parser g') <= 19)
  /\ encoded_characters (stats g') = to_ulong (encoded_characters (stats g) + 1)
  /\ good_sentences (stats g') = good_sentences (stats g)
  /\ failed_checksum (stats g') = failed_checksum (stats g)
  /\ (v = true ->
      pub g' = commit now (sentence_type (parser g')) (shadow g') (pub g))
  /\ (v = false -> pub g' = pub g).
Proof.
  destruct g as [f sh p st]. destruct p as [t n off par ck sm ict ty].
  unfold decode. simpl.
  destruct (c =? TRIMBLE_ID).
  { intros H. injection H as <- <-. simpl. repeat split; auto; try lia; discriminate. }
  destruct ((c =? DOLLAR) || (c =? AT_SIGN)).
  { intros H. injection H as <- <-. simpl. repeat split; auto; try lia; discriminate. }
  destruct ((c =? 20) || (c =? 0) || (c =? SPACE)).
  { intros H. injection H as <- <-. simpl. repeat split; auto; try lia; discriminate. }
  destruct (is_terminator c).
  { intros H. apply bind_Done in H as (t' & Hput & H).
    apply bind_Done in H as ([v1 g1] & Hpt & H).
    injection H as <- <-.
    assert (length t' = length t) as Hlen
      by (destruct (c =? COMMA); apply term_put_length in Hput; exact Hput).
    clear Hput.
    apply parse_term_effect in Hpt as (Ht & _ & _ & _ & _ & Hict & Htrue & Hfalse).
    simpl in *. rewrite Ht.
    split; [exact Hlen|].
    split; [intros; lia|].
    destruct v1.
    - destruct (Htrue eq_refl) as (_ & Hty & Hsh & Hpub & _ & Hst).
      rewrite Hst, Hpub, Hsh. simpl.
      destruct (c =? COMMA); simpl in *; repeat split; auto; try discriminate;
        intros _; rewrite Hty; reflexivity.
    - destruct (Hfalse eq_refl) as (Hpub & Hck & Hnck).
      assert (stats g1 = count_character st) as ->.
      { destruct (c =? COMMA); simpl in *;
          destruct ict; simpl in *;
          first [apply Hck; reflexivity | apply Hnck; reflexivity]. }
      simpl. repeat split; auto; discriminate. }
  set (g0 := mkFarmGPS f sh (mkParser t n off par ck sm ict ty) (count_character st)).
  assert (ordinary c g0 = Done (v, g') ->
          length (term (parser g')) = length t
          /\ (0 <= off <= 19 -> 0 <= term_offset (parser g') <= 19)
          /\ encoded_characters (stats g') = to_ulong (encoded_characters st + 1)
          /\ good_sentences (stats g') = good_sentences st
          /\ failed_checksum (stats g') = failed_checksum st
          /\ (v = true ->
              pub g' = commit now (sentence_type (parser g')) (shadow g') f)
          /\ (v = false -> pub g' = f)) as Hord.
  { intros H. apply ordinary_effect in H as (-> & Hp & Hs & Hst & Hl & Ho & Hty).
    simpl in *. rewrite Hst. simpl. repeat split; auto; try discriminate; apply Ho; lia. }
  destruct (c =? ETX); [|exact Hord].
  intros H. apply bind_Done in H as (t1 & _ & H).
  destruct ((t1 =? DLE) && negb ict) eqn:Eguard; [|apply Hord; exact H].
  clear Hord. unfold trimble_end in H.
  apply bind_Done in H as (t2 & _ & H).
  apply bind_Done in H as (t3 & _ & H).
  apply bind_Done in H as ([v2 g2] & Hin & H).
  injection H as <- <-.
  apply andb_true_iff in Eguard as [_ Eict]. apply negb_true_iff in Eict. subst ict.
  subst g0. cbn [parser stats pub shadow with_parser with_stats term] in Hin |- *.
  match type of Hin with (if ?b then _ else _) = _ => destruct b end.
  - apply bind_Done in Hin as (t' & Hput & Hin).
    apply bind_Done in Hin as ([v1 g1] & Hp1 & Hp2).
    apply term_put_length in Hput.
    apply parse_term_effect in Hp1 as (Ht1 & _ & _ & _ & _ & Hict1 & Htrue1 & Hfalse1).
    apply parse_term_effect in Hp2 as (Ht2 & _ & _ & _ & _ & _ & Htrue2 & Hfalse2).
    cbn [parser stats pub shadow with_parser with_stats term set_term set_sum
         set_is_checksum_term set_term_offset set_term_number
         is_checksum_term sentence_type term_offset]
      in Hput, Ht1, Ht2, Hict1, Htrue1, Hfalse1, Htrue2, Hfalse2 |- *.
    rewrite Ht2, Ht1.
    split; [exact Hput|]. split; [intros; lia|].
    assert (pub g1 = f /\ stats g1 = count_character st) as [Hpub1 Hst1].
    { destruct v1.
      - destruct (Htrue1 eq_refl) as (Hc & _). discriminate Hc.
      - destruct (Hfalse1 eq_refl) as (Hpub & _ & Hnck).
        split; [exact Hpub | apply Hnck; reflexivity]. }
    destruct v2.
    + destruct (Htrue2 eq_refl) as (_ & Hty & Hsh & Hpub & _ & Hst).
      rewrite Hst, Hpub, Hsh, Hty, Hst1, Hpub1. simpl.
      repeat split; auto; discriminate.
    + destruct (Hfalse2 eq_refl) as (Hpub & Hck & _).
      destruct (Hck eq_refl) as (Hst & _).
      rewrite Hst, Hpub, Hst1, Hpub1. simpl. repeat split; auto; discriminate.
  - injection Hin as <- <-. simpl. repeat split; auto; try lia; discriminate.
Qed.

End Effects.

(** ** Totality away from the binary terminator *)

Section Totality.

Context {F : Type} {FO : FloatOps F}.

Lemma parse_term_total (ns : bool) (now : Z) (g : FarmGPS F) :
  length (term (parser g)) = 20%nat -> 0 ∈ term (parser g) ->
  exists v g', parse_term_with ns now g = Done (v, g').
Proof.
  intros Hlen Hz.
  destruct (is_checksum_term (parser g)) eqn:Hck.
  - destruct (term (parser g)) as [|c0 [|c1 rest]] eqn:Ht; try (simpl in Hlen; lia).
    rewrite (parse_term_checksum ns now g c0 c1 rest Hck Ht). simpl.
    match goal with |- context [if ?b then _ else _] => destruct b end;
      eexists _, _; reflexivity.
  - destruct (buffer_split _ Hz) as (a & r & Ht & Ha).
    destruct (parse_term_plain ns now g a r Hck Ht Ha) as (sh & ty & H & _).
    eexists _, _. exact H.
Qed.

Lemma ordinary_total (c : Z) (g : FarmGPS F) :
  length (term (parser g)) = 20%nat -> 0 <= term_offset (parser g) <= 19 ->
  exists g', ordinary c g = Done (false, g').
Proof.
  intros Hlen Hoff. unfold ordinary, sizeof_term.
  destruct (term_offset (parser g) <? 20 - 1) eqn:E.
  - apply Z.ltb_lt in E. rewrite term_put_inside by lia. simpl. eexists. reflexivity.
  - simpl. eexists. reflexivity.
Qed.

(** Every character but 3 is decoded, in every state whose buffer has its
    20 bytes and whose write cursor is inside it. *)
Lemma decode_total (c now : Z) (g : FarmGPS F) :
  length (term (parser g)) = 20%nat -> 0 <= term_offset (parser g) <= 19 ->
  c <> ETX ->
  exists v g', decode c now g = Done (v, g').
Proof.
  intros Hlen Hoff Hc.
  destruct (c =? TRIMBLE_ID) eqn:E1.
  { apply Z.eqb_eq in E1. subst c. rewrite decode_trimble_id. eexists _, _. reflexivity. }
  destruct (is_start c) eqn:E2.
  { rewrite (decode_start c now g E2). eexists _, _. reflexivity. }
  destruct (is_ignored c) eqn:E3.
  { rewrite (decode_ignored c now g E3). eexists _, _. reflexivity. }
  destruct (is_terminator c) eqn:E4.
  { rewrite (decode_terminator c now g E4).
    destruct g as [f sh p st]. destruct p as [t n off par ck sm ict ty].
    simpl in *.
    assert (0 ∈ <[Z.to_nat off := 0]> t) as Hz.
    { apply list_elem_of_lookup. exists (Z.to_nat off).
      apply list_lookup_insert_eq. lia. }
    assert (length (<[Z.to_nat off := 0]> t) = 20%nat) as Hl
      by (rewrite length_insert; exact Hlen).
    destruct (c =? COMMA); simpl;
      (rewrite term_put_inside by (simpl; lia)); simpl;
      match goal with
      | |- context [parse_term now ?g0] =>
          destruct (parse_term_total GPS_NO_STATS now g0 Hl Hz) as (v & g1 & Hp)
      end;
      unfold parse_term; rewrite Hp; simpl; eexists _, _; reflexivity. }
  assert (default_label c = true) as Hd.
  { unfold default_label. rewrite E1, E2, E3, E4. simpl.
    apply negb_true_iff. apply Z.eqb_neq. exact Hc. }
  rewrite (decode_default c now g Hd).
  destruct (ordinary_total c (with_stats (count_character (stats g)) g) Hlen Hoff)
    as (g' & H).
  exists false, g'. exact H.
Qed.

End Totality.

(** ** The buffer and the counters *)

Section Invariants.

Context {F : Type} {FO : FloatOps F}.

Lemma feed_bounded (evs : list (Z * Z)) (g g' : FarmGPS F) (vs : list bool) :
  feed evs g = Done (vs, g') ->
  length (term (parser g)) = 20%nat -> 0 <= term_offset (parser g) <= 19 ->
  length (term (parser g')) = 20%nat /\ 0 <= term_offset (parser g') <= 19.
Proof.
  revert g vs. induction evs as [|[c now] evs IH]; intros g vs H Hlen Hoff; simpl in H.
  - injection H as <- <-. auto.
  - apply bind_Done in H as ([v g1] & Hd & H).
    apply bind_Done in H as ([vs1 g2] & Hf & H).
    injection H as <- <-.
    apply decode_effect in Hd as (Hl & Ho & _).
    apply (IH g1 vs1 Hf); [congruence | auto].
Qed.

(** C6. In every state the decoder reaches from its constructor, whatever
    the characters received, [term_offset] is at most 19 (the buffer
    capacity minus one) and the buffer has its 20 bytes; a further call with
    any character but 3 returns and keeps this; and an ordinary character
    that arrives when the buffer is full ([term_offset] = 19) is not stored
    -- the buffer and the cursor stay as they are -- but it is XORed into
    [parity] when the decoder is not in a checksum term, and it is added to
    [sum]. *)
Theorem term_offset_bounded
    (mem : FarmGPS F) (evs : list (Z * Z)) (vs : list bool) (g : FarmGPS F) :
  length (term (parser mem)) = 20%nat ->
  feed evs (FarmGPS_ctor mem) = Done (vs, g) ->
  (length (term (parser g)) = 20%nat /\ 0 <= term_offset (parser g) <= 19)
  /\ (forall c now, c <> ETX ->
        exists v g', decode c now g = Done (v, g')
                     /\ 0 <= term_offset (parser g') <= sizeof_term - 1)
  /\ (forall c now, default_label c = true -> term_offset (parser g) = 19 ->
        exists g',
          decode c now g = Done (false, g')
          /\ term (parser g') = term (parser g)
          /\ term_offset (parser g') = 19
          /\ parity (parser g')
             = (if is_checksum_term (parser g) then parity (parser g)
                else to_byte (Z.lxor (parity (parser g)) c))
          /\ sum (parser g') = to_int (sum (parser g) + to_byte c)).
Proof.
  intros Hmem Hfeed.
  assert (length (term (parser g)) = 20%nat /\ 0 <= term_offset (parser g) <= 19)
    as [Hlen Hoff].
  { apply (feed_bounded evs _ g vs Hfeed); simpl; [|lia].
    rewrite length_insert. exact Hmem. }
  split; [auto|]. split.
  - intros c now Hc.
    destruct (decode_total c now g Hlen Hoff Hc) as (v & g' & Hd).
    exists v, g'. split; [exact Hd|].
    apply decode_effect in Hd as (_ & Ho & _). unfold sizeof_term.
    specialize (Ho Hoff). lia.
  - intros c now Hc H19. rewrite (decode_default c now g Hc).
    destruct g as [f sh p st]. destruct p as [t n off par ck sm ict ty].
    simpl in *. subst off. unfold ordinary, sizeof_term. simpl.
    destruct ict; eexists; (split; [reflexivity|]); simpl; auto.
Qed.

(** C7, as the code has it.  [GPS_NO_STATS] is defined in FarmGPS.h, so
    the two sentence counters are compiled out of [parse_term]: a call of
    [decode] adds one to [encoded_characters] (modulo 2^32) and leaves
    [good_sentences] and [failed_checksum] as they are, also when a checksum
    is compared.  With the macro undefined, a checksum term that matches
    adds one to [good_sentences] and one that does not adds one to
    [failed_checksum] (modulo 2^32). *)
Theorem counters_as_configured (c now : Z) (g g' : FarmGPS F) (v : bool) :
  decode c now g = Done (v, g') ->
  encoded_characters (stats g') = to_ulong (encoded_characters (stats g) + 1)
  /\ good_sentences (stats g') = good_sentences (stats g)
  /\ failed_checksum (stats g') = failed_checksum (stats g)
  /\ (forall (h h' : FarmGPS F) (r : bool),
        is_checksum_term (parser h) = true ->
        parse_term_with false now h = Done (r, h') ->
        r = (checksum (parser h') =? parity (parser h))
        /\ (r = true ->
            good_sentences (stats h') = to_ulong (good_sentences (stats h) + 1)
            /\ failed_checksum (stats h') = failed_checksum (stats h))
        /\ (r = false ->
            failed_checksum (stats h') = to_ulong (failed_checksum (stats h) + 1)
            /\ good_sentences (stats h') = good_sentences (stats h))).
Proof.
  intros Hd. apply decode_effect in Hd as (_ & _ & He & Hg & Hf & _).
  repeat (split; [assumption|]).
  intros h h' r Hck Hp.
  apply parse_term_effect in Hp as (_ & _ & _ & _ & _ & _ & Htrue & Hfalse).
  destruct r.
  - destruct (Htrue eq_refl) as (_ & _ & _ & _ & Hc & Hst).
    rewrite Hst, Hc. simpl. rewrite Z.eqb_refl.
    repeat split; auto; discriminate.
  - destruct (Hfalse eq_refl) as (_ & Hyes & _).
    destruct (Hyes Hck) as (Hst & Hne & _).
    rewrite Hst. simpl. apply Z.eqb_neq in Hne. rewrite Hne.
    repeat split; auto; discriminate.
Qed.

(** At the beginning of a term the character 3 makes [decode] read
    [term[-1]]. *)
Lemma etx_at_term_start (now : Z) (g : FarmGPS F) :
  term_offset (parser g) = 0 -> decode ETX now g = OutOfBounds.
Proof.
  intros Hoff. rewrite decode_etx. simpl. rewrite Hoff.
  rewrite term_at_negative by lia. reflexivity.
Qed.

(** C10: the out-of-bounds read.  In the state the constructor leaves,
    [term_offset] is 0; the character 3 makes [decode] evaluate
    [term[term_offset - 1]], which is [term[-1]].  After the character 16
    the guard holds with [term_offset] = 1 and the branch reads [term[-1]]
    and [term[-2]]. *)
Theorem etx_reads_before_buffer (mem : FarmGPS F) (now now' : Z) :
  decode ETX now (FarmGPS_ctor mem) = OutOfBounds
  /\ feed [(DLE, now); (ETX, now')] (FarmGPS_ctor mem) = OutOfBounds.
Proof.
  split; [reflexivity|].
  simpl. rewrite (decode_default DLE now _ eq_refl).
  unfold ordinary, sizeof_term, term_put. simpl.
  destruct (term (parser mem)) as [|x t]; simpl; reflexivity.
Qed.

End Invariants.

(** ** Sentences that commit *)

Section Commit.

Context {F : Type} {FO : FloatOps F}.

Lemma feed_deterministic (evs : list (Z * Z)) (g g1 g2 : FarmGPS F) (v1 v2 : list bool) :
  feed evs g = Done (v1, g1) -> feed evs g = Done (v2, g2) -> v1 = v2 /\ g1 = g2.
Proof. intros H1 H2. rewrite H1 in H2. injection H2 as <- <-. auto. Qed.

(** A valid sentence of at most 255 terms commits the members of the type
    its first field selects. *)
Lemma valid_sentence_commits
    (g : FarmGPS F) (start t0 tstar : Z) (payload : list (Z * Z)) (h1 h2 e : Z * Z) :
  length (term (parser g)) = 20%nat ->
  is_start start = true ->
  forallb payload_byte payload.*1 = true ->
  terminators payload.*1 <= 254 ->
  is_hex_digit h1.1 = true -> is_hex_digit h2.1 = true ->
  is_terminator e.1 = true -> e.1 <> COMMA ->
  16 * hex_to_int h1.1 + hex_to_int h2.1 = nmea_xor payload.*1 ->
  exists g',
    feed ((start, t0) :: payload ++ [(STAR, tstar); h1; h2; e]) g
    = Done (replicate (length payload + 4) false ++ [true], g')
    /\ pub g' = commit e.2 (type_of_token (stored (first_field payload.*1)))
                       (shadow g') (pub g)
    /\ length (term (parser g')) = 20%nat.
Proof.
  intros Hlen Hs Hall Hterm H1 H2 He Hne Hsum.
  destruct (step_start start t0 g Hlen Hs) as (g1 & Hd1 & Hin1 & Hp1 & _ & Hn1 & Hpar1 & _).
  destruct (feed_body payload tstar g1 [] Hin1 Hn1 Hall Hterm)
    as (g2 & Hf2 & Hp2 & Hl2 & Ho2 & Hc2 & Hpar2 & Hty2).
  destruct (feed_checksum_token g2 h1 h2 e Hl2 Ho2 Hc2 H1 H2 He Hne)
    as (g3 & Hf3 & Hp3 & Hs3 & _).
  rewrite Hpar1, Z.lxor_0_l in Hpar2.
  simpl in Hty2. rewrite type_of_token_take in Hty2.
  assert (expected_checksum (parser g2) h1.1 h2.1 = parity (parser g2)) as Hck.
  { unfold expected_checksum.
    destruct (types_eqb (sentence_type (parser g2)) XTE2); [reflexivity|].
    rewrite hex_pair_byte by assumption. congruence. }
  rewrite Hck, Z.eqb_refl in Hf3, Hp3.
  exists g3. split; [|split].
  - rewrite <- quiet_run.
    eapply feed_cons_done; [exact Hd1|].
    change (payload ++ [(STAR, tstar); h1; h2; e])
      with (payload ++ [(STAR, tstar)] ++ [h1; h2; e]).
    rewrite app_assoc.
    replace (replicate (length payload) false ++ [false; false; false; true])
      with (replicate (length payload + 1) false ++ [false; false; true]).
    2:{ rewrite replicate_add, <- app_assoc. reflexivity. }
    eapply feed_app_done; [exact Hf2 | exact Hf3].
  - rewrite Hp3, Hs3, Hty2, Hp2, Hp1. reflexivity.
  - apply (feed_bounded _ _ _ _ Hf3 Hl2). lia.
Qed.

Lemma commit_sets_flag (now : Z) (ty : types) (k : group) (sh : Shadow F) (f : Fix F) :
  group_of ty = Some k -> new_data k (commit now ty sh f) = true.
Proof. destruct ty, k; simpl; intros H; try discriminate H; reflexivity. Qed.

Lemma got_new_data_spec (k : group) (g : FarmGPS F) :
  (got_new_data k g).1 = new_data k (pub g)
  /\ new_data k (pub (got_new_data k g).2) = false
  /\ parser (got_new_data k g).2 = parser g
  /\ shadow (got_new_data k g).2 = shadow g
  /\ stats (got_new_data k g).2 = stats g.
Proof. destruct k; simpl; auto. Qed.

(** C8. The usage flag of a group is consume-once.  Its accessor returns
    the flag and clears it; only a call of [decode] that returns true, for a
    sentence type of the group, sets it; so after a valid sentence of the
    group the accessor returns true, called again at once it returns false,
    and after the same sentence has been received a second time it returns
    true again. *)
Theorem new_data_flag_consumed_once
    (k : group) (g : FarmGPS F) (start t0 tstar : Z) (payload : list (Z * Z))
    (h1 h2 e : Z * Z) :
  length (term (parser g)) = 20%nat ->
  is_start start = true ->
  forallb payload_byte payload.*1 = true ->
  terminators payload.*1 <= 254 ->
  group_of (type_of_token (stored (first_field payload.*1))) = Some k ->
  is_hex_digit h1.1 = true -> is_hex_digit h2.1 = true ->
  is_terminator e.1 = true -> e.1 <> COMMA ->
  16 * hex_to_int h1.1 + hex_to_int h2.1 = nmea_xor payload.*1 ->
  let sentence := (start, t0) :: payload ++ [(STAR, tstar); h1; h2; e] in
  let quiet := replicate (length payload + 4) false in
  (forall h : FarmGPS F,
      (got_new_data k h).1 = new_data k (pub h)
      /\ new_data k (pub (got_new_data k h).2) = false)
  /\ (forall (c now : Z) (h h' : FarmGPS F) (v : bool),
         new_data k (pub h) = false -> decode c now h = Done (v, h') ->
         new_data k (pub h') = true ->
         v = true /\ group_of (sentence_type (parser h')) = Some k)
  /\ exists g1,
       feed sentence g = Done (quiet ++ [true], g1)
       /\ (got_new_data k g1).1 = true
       /\ (got_new_data k (got_new_data k g1).2).1 = false
       /\ exists g2,
            feed sentence (got_new_data k (got_new_data k g1).2).2
            = Done (quiet ++ [true], g2)
            /\ (got_new_data k g2).1 = true.
Proof.
  intros Hlen Hs Hall Hterm Hk H1 H2 He Hne Hsum sentence quiet.
  split; [intros h; destruct (got_new_data_spec k h) as (? & ? & _); auto|].
  split.
  { intros c now h h' v Hflag Hd Hset.
    apply decode_effect in Hd as (_ & _ & _ & _ & _ & Htrue & Hfalse).
    destruct v.
    - split; [reflexivity|].
      rewrite (Htrue eq_refl) in Hset.
      destruct (sentence_type (parser h')), k; simpl in *;
        first [reflexivity | congruence].
    - rewrite (Hfalse eq_refl) in Hset. congruence. }
  destruct (valid_sentence_commits g start t0 tstar payload h1 h2 e
              Hlen Hs Hall Hterm H1 H2 He Hne Hsum) as (g1 & Hf1 & Hp1 & Hl1).
  exists g1. split; [exact Hf1|].
  destruct (got_new_data_spec k g1) as (Ha1 & Hb1 & Hc1 & _).
  destruct (got_new_data_spec k (got_new_data k g1).2) as (Ha2 & Hb2 & Hc2 & _).
  split; [rewrite Ha1, Hp1; apply commit_sets_flag; exact Hk|].
  split; [rewrite Ha2; exact Hb1|].
  assert (length (term (parser (got_new_data k (got_new_data k g1).2).2)) = 20%nat) as Hl2
    by (rewrite Hc2, Hc1; exact Hl1).
  destruct (valid_sentence_commits _ start t0 tstar payload h1 h2 e
              Hl2 Hs Hall Hterm H1 H2 He Hne Hsum) as (g2 & Hf2 & Hp2 & _).
  exists g2. split; [exact Hf2|].
  destruct (got_new_data_spec k g2) as (Ha3 & _).
  rewrite Ha3, Hp2. apply commit_sets_flag. exact Hk.
Qed.

End Commit.

(** ** The hemisphere letter *)

Lemma first_field_app (a b : list Z) :
  1 <= terminators a -> first_field (a ++ b) = first_field a.
Proof.
  induction a as [|c a IH]; simpl; [lia|].
  destruct (is_terminator c); [reflexivity|]. intros H. rewrite IH by lia. reflexivity.
Qed.

Lemma terminators_app (a b : list Z) :
  terminators (a ++ b) = terminators a + terminators b.
Proof. induction a as [|c a IH]; simpl; [reflexivity|]. rewrite IH. lia. Qed.

Section Hemisphere.

Context {F : Type} {FO : FloatOps F}.

Lemma in_term_buffer (g : FarmGPS F) (w : list Z) :
  in_term g w ->
  <[length w := 0]> (term (parser g))
  = w ++ 0 :: drop (S (length w)) (term (parser g)).
Proof.
  intros (Hlen & _ & Htake & _ & Hw & _).
  rewrite insert_take_drop by lia. rewrite Htake. reflexivity.
Qed.

(** [extract] reads the buffer up to the NUL only. *)
Lemma extract_canonical (ty : types) (n : Z) (w r : list Z) (sh : Shadow F) :
  0 ∉ w -> extract ty n (w ++ 0 :: r) sh = extract ty n (w ++ [0]) sh.
Proof.
  intros Hw. unfold extract.
  rewrite (c_str_prefix w r Hw), (c_str_prefix w [] Hw).
  assert (term_at (w ++ 0 :: r) 0 = term_at (w ++ [0]) 0) as ->
    by (destruct w; reflexivity).
  reflexivity.
Qed.

Lemma extract_negated (n : Z) (t : list Z) (sh : Shadow F) :
  n <> 2 -> n <> 3 ->
  extract GGA n t (negate_new_latitude sh)
  = (s ← extract GGA n t sh; Done (negate_new_latitude s)).
Proof.
  intros H2 H3. unfold extract.
  apply Z.eqb_neq in H2, H3. rewrite H2, H3.
  destruct (c_str t) as [s|]; destruct (term_at t 0) as [t0|]; simpl;
    repeat (match goal with |- context [if ?b then _ else _] => destruct b end;
            simpl; try reflexivity).
Qed.

Lemma extract_letter (c : Z) (r : list Z) (sh : Shadow F) :
  extract GGA 3 (c :: 0 :: r) sh
  = Done (if c =? 83 then negate_new_latitude sh else sh).
Proof. reflexivity. Qed.

Lemma commit_negated (now : Z) (sh : Shadow F) (f : Fix F) :
  commit now GGA (negate_new_latitude sh) f
  = with_latitude_negated (commit now GGA sh f).
Proof. reflexivity. Qed.

(** The first terms of a sentence, up to some terminator. *)
Lemma feed_head (pl : list (Z * Z)) (g : FarmGPS F) (w : list Z) :
  in_term g w -> term_number (parser g) = 0 ->
  forallb payload_byte pl.*1 = true ->
  1 <= terminators pl.*1 <= 255 ->
  exists g' w',
    feed pl g = Done (replicate (length pl) false, g')
    /\ in_term g' w'
    /\ pub g' = pub g
    /\ term_number (parser g') = terminators pl.*1
    /\ sentence_type (parser g')
       = type_of_token (take 19 (w ++ stored (first_field pl.*1))).
Proof.
  revert g w. induction pl as [|[c now] pl IH]; intros g w Hin Hn Hall Hterm.
  - simpl in Hterm. lia.
  - change (forallb payload_byte (c :: pl.*1) = true) in Hall.
    simpl in Hall. apply andb_true_iff in Hall as [Hc Hall].
    change ((c, now) :: pl).*1 with ([c] ++ pl.*1) in *.
    rewrite terminators_app in *.
    pose proof (terminators_nonneg pl.*1) as Hnn.
    unfold payload_byte in Hc. apply orb_true_iff in Hc as [Hc|Hc].
    + destruct (step_field c now g w Hin Hc) as (g1 & Hd & Hin1 & Hp & Hs & Hn1 & Hty & Hpar).
      assert (terminators [c] = 0) as Hc0
        by (simpl; rewrite (field_byte_not_terminator c Hc); lia).
      destruct (IH g1 _ Hin1 ltac:(congruence) Hall ltac:(lia))
        as (g2 & w2 & Hf & Hin2 & Hp2 & Hn2 & Hty2).
      exists g2, w2. split; [apply (feed_cons_done _ _ _ _ _ _ _ _ Hd Hf)|].
      rewrite take_take_app, <- app_assoc in Hty2.
      replace (stored (first_field ([c] ++ pl.*1)))
        with (stored [c] ++ stored (first_field pl.*1)).
      2:{ simpl. rewrite (field_byte_not_terminator c Hc). simpl.
          destruct (is_ignored c); reflexivity. }
      split; [exact Hin2|]. split; [congruence|]. split; [lia | exact Hty2].
    + apply andb_true_iff in Hc as [Hc Hstar]. apply negb_true_iff in Hstar.
      apply Z.eqb_neq in Hstar.
      destruct (step_separator c now g w Hin Hc Hstar)
        as (g1 & Hd & Hin1 & Hp & Hn1 & Hpar & Hty & _).
      rewrite Hn in Hn1. change (to_byte (0 + 1)) with 1 in Hn1.
      assert (terminators [c] = 1) as Hc1 by (simpl; rewrite Hc; lia).
      destruct (feed_payload pl g1 [] Hin1 Hall)
        as (g2 & w2 & Hf & Hin2 & Hp2 & Hpar2 & Hn2).
      destruct Hn2 as [Hn2 Hty2]; [lia|lia|].
      exists g2, w2. split; [apply (feed_cons_done _ _ _ _ _ _ _ _ Hd Hf)|].
      replace (first_field ([c] ++ pl.*1)) with (@nil Z) by (simpl; rewrite Hc; reflexivity).
      simpl stored. rewrite app_nil_r.
      destruct Hin as (_ & _ & _ & _ & Hw & _).
      rewrite firstn_all2 by lia.
      split; [exact Hin2|]. split; [congruence|]. split; [lia|].
      rewrite Hty2. apply (Hty Hn).
Qed.

(** One payload character, in two mirrored runs. *)
Lemma mirrored_step (c now : Z) (gN gS : FarmGPS F) (w : list Z) :
  mirrored gN gS w -> payload_byte c = true ->
  term_number (parser gN) + terminators [c] <= 255 ->
  exists gN' gS' w',
    decode c now gN = Done (false, gN')
    /\ decode c now gS = Done (false, gS')
    /\ mirrored gN' gS' w'
    /\ term_number (parser gN') = term_number (parser gN) + terminators [c].
Proof.
  intros (HiN & HiS & Hsh & Hn & HtN & HtS & H4) Hc H255.
  unfold payload_byte in Hc. apply orb_true_iff in Hc as [Hc|Hc].
  - destruct (step_field c now gN w HiN Hc) as (gN' & HdN & HiN' & _ & HsN & HnN & HtyN & _).
    destruct (step_field c now gS w HiS Hc) as (gS' & HdS & HiS' & _ & HsS & HnS & HtyS & _).
    exists gN', gS', (take 19 (w ++ stored [c])).
    split; [exact HdN|]. split; [exact HdS|].
    assert (terminators [c] = 0) as Hc0
      by (simpl; rewrite (field_byte_not_terminator c Hc); lia).
    split; [|lia].
    unfold mirrored. rewrite HsN, HsS, HnN, HnS, HtyN, HtyS. auto 10.
  - apply andb_true_iff in Hc as [Hc Hstar]. apply negb_true_iff in Hstar.
    apply Z.eqb_neq in Hstar.
    assert (terminators [c] = 1) as Hc1 by (simpl; rewrite Hc; lia).
    destruct (step_separator c now gN w HiN Hc Hstar)
      as (gN' & HdN & HiN' & _ & HnN & _ & _ & HN).
    destruct (step_separator c now gS w HiS Hc Hstar)
      as (gS' & HdS & HiS' & _ & HnS & _ & _ & HS).
    destruct HN as (HtyN & HeN & HxN); [lia|].
    destruct HS as (HtyS & HeS & HxS); [lia|].
    exists gN', gS', []. split; [exact HdN|]. split; [exact HdS|].
    rewrite to_byte_small in HnN by lia. rewrite to_byte_small in HnS by lia.
    split; [|lia].
    unfold mirrored. rewrite HtyN, HtyS, HnN, HnS, Hn.
    repeat (split; [first [assumption | reflexivity | lia]|]).
    split; [|repeat split; first [assumption | lia]].
    destruct w as [|c0 w].
    + rewrite (HeN eq_refl), (HeS eq_refl). exact Hsh.
    + assert (c0 :: w <> []) as Hne by discriminate.
      specialize (HxN Hne). specialize (HxS Hne).
      rewrite (in_term_buffer gN _ HiN) in HxN.
      rewrite (in_term_buffer gS _ HiS) in HxS.
      destruct HiN as (_ & _ & _ & Hz & _).
      rewrite extract_canonical in HxN, HxS by exact Hz.
      rewrite HtN in HxN. rewrite HtS, Hn, Hsh in HxS.
      rewrite extract_negated in HxS by lia.
      rewrite HxN in HxS. simpl in HxS. injection HxS as <-. reflexivity.
Qed.

Lemma mirrored_feed (evs : list (Z * Z)) (gN gS : FarmGPS F) (w : list Z) :
  mirrored gN gS w -> forallb payload_byte evs.*1 = true ->
  term_number (parser gN) + terminators evs.*1 <= 255 ->
  exists vN vS gN' gS' w',
    feed evs gN = Done (vN, gN')
    /\ feed evs gS = Done (vS, gS')
    /\ mirrored gN' gS' w'
    /\ term_number (parser gN') = term_number (parser gN) + terminators evs.*1.
Proof.
  revert gN gS w. induction evs as [|[c now] evs IH]; intros gN gS w Hm Hall H255.
  - exists [], [], gN, gS, w. simpl.
    split; [reflexivity|]. split; [reflexivity|]. split; [exact Hm | lia].
  - change (forallb payload_byte (c :: evs.*1) = true) in Hall.
    simpl in Hall. apply andb_true_iff in Hall as [Hc Hall].
    change ((c, now) :: evs).*1 with ([c] ++ evs.*1) in *.
    rewrite terminators_app in *.
    pose proof (terminators_nonneg evs.*1) as Hnn.
    destruct (mirrored_step c now gN gS w Hm Hc ltac:(lia))
      as (gN1 & gS1 & w1 & HdN & HdS & Hm1 & Hn1).
    destruct (IH gN1 gS1 w1 Hm1 Hall ltac:(lia))
      as (vN & vS & gN2 & gS2 & w2 & HfN & HfS & Hm2 & Hn2).
    exists (false :: vN), (false :: vS), gN2, gS2, w2.
    split; [apply (feed_cons_done _ _ _ _ _ _ _ _ HdN HfN)|].
    split; [apply (feed_cons_done _ _ _ _ _ _ _ _ HdS HfS)|].
    split; [exact Hm2 | lia].
Qed.

End Hemisphere.

Section HemisphereRuns.

Context {F : Type} {FO : FloatOps F}.

(** A terminator that completes a term other than the first one. *)
Lemma terminator_shadow (c now : Z) (g : FarmGPS F) (w : list Z) :
  in_term g w -> is_terminator c = true ->
  1 <= term_number (parser g) <= 254 ->
  exists g',
    decode c now g = Done (false, g')
    /\ length (term (parser g')) = 20%nat
    /\ term_offset (parser g') = 0
    /\ is_checksum_term (parser g') = (c =? STAR)
    /\ term_number (parser g') = term_number (parser g) + 1
    /\ sentence_type (parser g') = sentence_type (parser g)
    /\ (w = [] -> shadow g' = shadow g)
    /\ (w <> [] ->
        extract (sentence_type (parser g)) (term_number (parser g)) (w ++ [0]) (shadow g)
        = Done (shadow g'))
    /\ (c <> STAR -> in_term g' []).
Proof.
  intros Hin Hc Hn.
  destruct (step_terminator c now g w Hin Hc) as (sh & ty & Hd & _ & H1).
  destruct H1 as (Hty & He & Hx); [lia|].
  eexists. split; [exact Hd|]. simpl.
  pose proof Hin as (Hlen & _ & _ & Hz & _).
  rewrite length_insert, to_byte_small by lia.
  repeat (split; [first [assumption | reflexivity]|]).
  split.
  - intros Hne. specialize (Hx Hne).
    rewrite (in_term_buffer g w Hin), extract_canonical in Hx by exact Hz. exact Hx.
  - intros Hstar.
    destruct (step_separator c now g w Hin Hc Hstar) as (g1 & Hd1 & Hin1 & _).
    rewrite Hd in Hd1. injection Hd1 as <-. exact Hin1.
Qed.

(** The two runs after the term that holds the hemisphere letter. *)
Lemma letter_term (c now : Z) (gN gS : FarmGPS F) :
  in_term gN [78] -> in_term gS [83] ->
  shadow gS = shadow gN ->
  term_number (parser gN) = 3 -> term_number (parser gS) = 3 ->
  sentence_type (parser gN) = GGA -> sentence_type (parser gS) = GGA ->
  is_terminator c = true ->
  exists gN' gS',
    decode c now gN = Done (false, gN')
    /\ decode c now gS = Done (false, gS')
    /\ shadow gS' = negate_new_latitude (shadow gN')
    /\ length (term (parser gN')) = 20%nat /\ length (term (parser gS')) = 20%nat
    /\ term_offset (parser gN') = 0 /\ term_offset (parser gS') = 0
    /\ is_checksum_term (parser gN') = (c =? STAR)
    /\ is_checksum_term (parser gS') = (c =? STAR)
    /\ term_number (parser gN') = 4
    /\ (c <> STAR -> mirrored gN' gS' []).
Proof.
  intros HiN HiS Hsh HnN HnS HtN HtS Hc.
  destruct (terminator_shadow c now gN [78] HiN Hc ltac:(lia))
    as (gN' & HdN & HlN & HoN & HcN & HnN' & HtN' & _ & HxN & HinN).
  destruct (terminator_shadow c now gS [83] HiS Hc ltac:(lia))
    as (gS' & HdS & HlS & HoS & HcS & HnS' & HtS' & _ & HxS & HinS).
  specialize (HxN ltac:(discriminate)). specialize (HxS ltac:(discriminate)).
  rewrite HtN, HnN in HxN. rewrite HtS, HnS, Hsh in HxS.
  change ([78] ++ [0]) with [78; 0] in HxN. change ([83] ++ [0]) with [83; 0] in HxS.
  rewrite extract_letter in HxN, HxS.
  change (78 =? 83) with false in HxN. change (83 =? 83) with true in HxS.
  injection HxN as HxN. injection HxS as HxS.
  exists gN', gS'.
  repeat (split; [first [assumption | congruence | lia]|]).
  intros Hstar. unfold mirrored.
  repeat (split; [first [auto; congruence | lia]|]). lia.
Qed.

(** The ['*'] in two mirrored runs. *)
Lemma mirrored_star (now : Z) (gN gS : FarmGPS F) (w : list Z) :
  mirrored gN gS w -> term_number (parser gN) <= 254 ->
  exists gN' gS',
    decode STAR now gN = Done (false, gN')
    /\ decode STAR now gS = Done (false, gS')
    /\ shadow gS' = negate_new_latitude (shadow gN')
    /\ length (term (parser gN')) = 20%nat /\ length (term (parser gS')) = 20%nat
    /\ term_offset (parser gN') = 0 /\ term_offset (parser gS') = 0
    /\ is_checksum_term (parser gN') = true
    /\ is_checksum_term (parser gS') = true.
Proof.
  intros (HiN & HiS & Hsh & Hn & HtN & HtS & H4) H254.
  destruct (terminator_shadow STAR now gN w HiN eq_refl ltac:(lia))
    as (gN' & HdN & HlN & HoN & HcN & _ & _ & HeN & HxN & _).
  destruct (terminator_shadow STAR now gS w HiS eq_refl ltac:(lia))
    as (gS' & HdS & HlS & HoS & HcS & _ & _ & HeS & HxS & _).
  exists gN', gS'.
  split; [exact HdN|]. split; [exact HdS|].
  split; [|repeat split; assumption].
  destruct w as [|c0 w].
  - rewrite (HeN eq_refl), (HeS eq_refl). exact Hsh.
  - specialize (HxN ltac:(discriminate)). specialize (HxS ltac:(discriminate)).
    rewrite HtN in HxN. rewrite HtS, Hn, Hsh in HxS.
    rewrite extract_negated in HxS by lia.
    rewrite HxN in HxS. simpl in HxS. injection HxS as <-. reflexivity.
Qed.

End HemisphereRuns.

Section HemisphereSentences.

Context {F : Type} {FO : FloatOps F}.

Lemma separator_not_star (c : Z) :
  payload_byte c = true -> is_terminator c = true -> c <> STAR.
Proof.
  unfold payload_byte, field_byte. intros Hp Ht. rewrite Ht in Hp.
  destruct (c =? STAR) eqn:E; [|apply Z.eqb_neq in E; exact E].
  simpl in Hp. rewrite !andb_false_r in Hp. discriminate Hp.
Qed.

(** Two GGA sentences that differ in the hemisphere letter (term 3), "N"
    in one and "S" in the other, and in their checksum digits: at the end
    the pending latitude of the second is the negated one of the first. *)
Lemma hemisphere_shadows
    (g : FarmGPS F) (start t0 tl tstar : Z) (pre rest : list (Z * Z))
    (sep x1 x2 y1 y2 e : Z * Z) :
  length (term (parser g)) = 20%nat ->
  is_start start = true ->
  forallb payload_byte pre.*1 = true ->
  terminators pre.*1 = 2 ->
  stored (first_field pre.*1) = chars "GPGGA" ->
  is_terminator sep.1 = true -> sep.1 <> STAR ->
  forallb payload_byte rest.*1 = true ->
  begins_with_terminator rest.*1 = true ->
  terminators rest.*1 <= 250 ->
  is_hex_digit x1.1 = true -> is_hex_digit x2.1 = true ->
  is_hex_digit y1.1 = true -> is_hex_digit y2.1 = true ->
  is_terminator e.1 = true -> e.1 <> COMMA ->
  exists vN vS gN gS,
    feed ((start, t0) :: pre ++ [sep; (78, tl)] ++ rest ++ [(STAR, tstar); x1; x2; e]) g
    = Done (vN, gN)
    /\ feed ((start, t0) :: pre ++ [sep; (83, tl)] ++ rest ++ [(STAR, tstar); y1; y2; e]) g
       = Done (vS, gS)
    /\ shadow gS = negate_new_latitude (shadow gN).
Proof.
  intros Hlen Hs Hpre Hpre2 Hfirst Hsep Hsepstar Hrest Hbegin Hrest250
         Hx1 Hx2 Hy1 Hy2 He Hne.
  destruct sep as [csep tsep]. simpl in Hsep, Hsepstar.
  destruct (step_start start t0 g Hlen Hs) as (g1 & Hd1 & Hin1 & _ & _ & Hn1 & _).
  destruct (feed_head pre g1 [] Hin1 Hn1 Hpre ltac:(lia))
    as (g2 & w2 & Hf2 & Hin2 & _ & Hn2 & Hty2).
  simpl in Hty2. rewrite type_of_token_take, Hfirst in Hty2.
  change (type_of_token (chars "GPGGA")) with GGA in Hty2.
  destruct (step_separator csep tsep g2 w2 Hin2 Hsep Hsepstar)
    as (g3 & Hd3 & Hin3 & _ & Hn3 & _ & _ & H3).
  destruct H3 as (Hty3 & _); [lia|].
  rewrite Hn2, Hpre2 in Hn3. change (to_byte (2 + 1)) with 3 in Hn3.
  rewrite Hty2 in Hty3.
  destruct (step_field 78 tl g3 [] Hin3 eq_refl)
    as (gN4 & HdN4 & HinN4 & _ & HsN4 & HnN4 & HtN4 & _).
  destruct (step_field 83 tl g3 [] Hin3 eq_refl)
    as (gS4 & HdS4 & HinS4 & _ & HsS4 & HnS4 & HtS4 & _).
  change (take 19 ([] ++ stored [78])) with [78] in HinN4.
  change (take 19 ([] ++ stored [83])) with [83] in HinS4.
  assert (forall (L : Z) (g4 g5 : FarmGPS F) (z1 z2 : Z * Z) (vs : list bool),
             decode L tl g3 = Done (false, g4) ->
             feed (rest ++ [(STAR, tstar); z1; z2; e]) g4 = Done (vs, g5) ->
             feed ((start, t0) :: pre ++ [(csep, tsep); (L, tl)] ++ rest
                     ++ [(STAR, tstar); z1; z2; e]) g
             = Done (false :: replicate (length pre) false ++ false :: false :: vs, g5))
    as Hglue.
  { intros L g4 g5 z1 z2 vs Hd4 Hf5.
    eapply feed_cons_done; [exact Hd1|].
    eapply feed_app_done; [exact Hf2|].
    eapply feed_cons_done; [exact Hd3|].
    eapply feed_cons_done; [exact Hd4 | exact Hf5]. }
  assert (shadow gS4 = shadow gN4) as Hsh4 by congruence.
  destruct rest as [|[c0 tc0] rest'].
  - destruct (letter_term STAR tstar gN4 gS4 HinN4 HinS4 Hsh4
                ltac:(congruence) ltac:(congruence) ltac:(congruence)
                ltac:(congruence) eq_refl)
      as (gN5 & gS5 & HdN5 & HdS5 & Hsh5 & HlN & HlS & HoN & HoS & HcN & HcS & _).
    destruct (feed_checksum_token gN5 x1 x2 e HlN HoN HcN Hx1 Hx2 He Hne)
      as (gN6 & HfN6 & _ & HsN6 & _).
    destruct (feed_checksum_token gS5 y1 y2 e HlS HoS HcS Hy1 Hy2 He Hne)
      as (gS6 & HfS6 & _ & HsS6 & _).
    eexists _, _, gN6, gS6.
    split; [eapply (Hglue 78 gN4 gN6 x1 x2); [exact HdN4|];
            simpl app; eapply feed_cons_done; [exact HdN5 | exact HfN6]|].
    split; [eapply (Hglue 83 gS4 gS6 y1 y2); [exact HdS4|];
            simpl app; eapply feed_cons_done; [exact HdS5 | exact HfS6]|].
    congruence.
  - change (forallb payload_byte (c0 :: rest'.*1) = true) in Hrest.
    simpl in Hrest. apply andb_true_iff in Hrest as [Hc0 Hrest].
    change (is_terminator c0 = true) in Hbegin.
    pose proof (separator_not_star c0 Hc0 Hbegin) as Hc0star.
    change (((c0, tc0) :: rest').*1) with ([c0] ++ rest'.*1) in Hrest250.
    rewrite terminators_app in Hrest250.
    assert (terminators [c0] = 1) as Hc01 by (simpl; rewrite Hbegin; lia).
    destruct (letter_term c0 tc0 gN4 gS4 HinN4 HinS4 Hsh4
                ltac:(congruence) ltac:(congruence) ltac:(congruence)
                ltac:(congruence) Hbegin)
      as (gN5 & gS5 & HdN5 & HdS5 & _ & _ & _ & _ & _ & _ & _ & Hn5 & Hm5).
    specialize (Hm5 Hc0star).
    destruct (mirrored_feed rest' gN5 gS5 [] Hm5 Hrest ltac:(lia))
      as (vN6 & vS6 & gN6 & gS6 & w6 & HfN6 & HfS6 & Hm6 & Hn6).
    destruct (mirrored_star tstar gN6 gS6 w6 Hm6 ltac:(lia))
      as (gN7 & gS7 & HdN7 & HdS7 & Hsh7 & HlN & HlS & HoN & HoS & HcN & HcS).
    destruct (feed_checksum_token gN7 x1 x2 e HlN HoN HcN Hx1 Hx2 He Hne)
      as (gN8 & HfN8 & _ & HsN8 & _).
    destruct (feed_checksum_token gS7 y1 y2 e HlS HoS HcS Hy1 Hy2 He Hne)
      as (gS8 & HfS8 & _ & HsS8 & _).
    eexists _, _, gN8, gS8.
    split.
    { eapply (Hglue 78 gN4 gN8 x1 x2); [exact HdN4|].
      change (((c0, tc0) :: rest') ++ [(STAR, tstar); x1; x2; e])
        with ((c0, tc0) :: rest' ++ (STAR, tstar) :: [x1; x2; e]).
      eapply feed_cons_done; [exact HdN5|].
      eapply feed_app_done; [exact HfN6|].
      eapply feed_cons_done; [exact HdN7 | exact HfN8]. }
    split.
    { eapply (Hglue 83 gS4 gS8 y1 y2); [exact HdS4|].
      change (((c0, tc0) :: rest') ++ [(STAR, tstar); y1; y2; e])
        with ((c0, tc0) :: rest' ++ (STAR, tstar) :: [y1; y2; e]).
      eapply feed_cons_done; [exact HdS5|].
      eapply feed_app_done; [exact HfS6|].
      eapply feed_cons_done; [exact HdS7 | exact HfS8]. }
    congruence.
Qed.

End HemisphereSentences.

(** ** Independence of the groups *)

Section Groups.

Context {F : Type} {FO : FloatOps F}.

Lemma commit_frame (now : Z) (ty : types) (sh : Shadow F) (f : Fix F) :
  date (commit now ty sh f) = date f
  /\ (ty <> GGA -> GGA_members (commit now ty sh f) = GGA_members f)
  /\ (ty <> VTG -> VTG_members (commit now ty sh f) = VTG_members f)
  /\ (ty <> XTE -> ty <> XTE2 -> XTE_members (commit now ty sh f) = XTE_members f)
  /\ (ty = GGA ->
      GGA_members (commit now ty sh f)
      = (new_time sh, new_latitude sh, new_longitude sh, new_altitude sh,
         new_quality sh, now, true))
  /\ (ty = VTG ->
      VTG_members (commit now ty sh f) = (new_course sh, new_speed sh, now, true))
  /\ (ty = XTE \/ ty = XTE2 ->
      XTE_members (commit now ty sh f) = (new_xte sh, now, true)).
Proof.
  destruct ty; simpl; repeat split; intros; try reflexivity; try congruence;
    try (destruct H; discriminate).
Qed.

Lemma sentence_commits (g : FarmGPS F) (s : Sentence) :
  length (term (parser g)) = 20%nat ->
  well_formed s = true -> checksum_ok s = true ->
  exists g',
    feed (events s) g = Done (replicate (length (s_payload s) + 4) false ++ [true], g')
    /\ pub g' = commit (s_end s).2 (kind s) (shadow g') (pub g)
    /\ length (term (parser g')) = 20%nat.
Proof.
  intros Hlen Hwf Hck. unfold well_formed in Hwf.
  repeat (apply andb_true_iff in Hwf as [Hwf ?]).
  destruct s as [[start t0] payload tstar h1 h2 e].
  unfold events, kind, checksum_ok in *.
  cbn [s_start s_payload s_star s_digit1 s_digit2 s_end fst snd] in *.
  apply (valid_sentence_commits g start t0 tstar payload h1 h2 e);
    try assumption.
  - apply Z.leb_le. assumption.
  - apply Z.eqb_neq, negb_true_iff. assumption.
  - apply Z.eqb_eq. exact Hck.
Qed.

(** C9. A call of [decode] publishes only when it returns true, and then
    by [commit]: the members of the group of the sentence type take the
    values of their [new_...] members, the timekeeper of the group takes
    [millis()], its flag is set, and the members, timekeepers and flags of
    the other groups (and [date]) stay as they are.  Hence of two valid
    sentences received one after the other, the second leaves what the
    first published in every group but its own.  And of two valid GGA
    sentences that differ only in the hemisphere letter of term 3 ("N" in
    one, "S" in the other) and in their checksum digits, received in the
    same state at the same instants, the second publishes the negated
    latitude of the first and the same value in every other member. *)
Theorem commit_is_per_group :
  (forall (c now : Z) (g g' : FarmGPS F) (v : bool),
      decode c now g = Done (v, g') ->
      (v = false -> pub g' = pub g)
      /\ (v = true ->
          pub g' = commit now (sentence_type (parser g')) (shadow g') (pub g)))
  /\ (forall (now : Z) (ty : types) (sh : Shadow F) (f : Fix F),
         date (commit now ty sh f) = date f
         /\ (ty <> GGA -> GGA_members (commit now ty sh f) = GGA_members f)
         /\ (ty <> VTG -> VTG_members (commit now ty sh f) = VTG_members f)
         /\ (ty <> XTE -> ty <> XTE2 ->
             XTE_members (commit now ty sh f) = XTE_members f)
         /\ (ty = GGA ->
             GGA_members (commit now ty sh f)
             = (new_time sh, new_latitude sh, new_longitude sh, new_altitude sh,
                new_quality sh, now, true))
         /\ (ty = VTG ->
             VTG_members (commit now ty sh f)
             = (new_course sh, new_speed sh, now, true))
         /\ (ty = XTE \/ ty = XTE2 ->
             XTE_members (commit now ty sh f) = (new_xte sh, now, true)))
  /\ (forall (g : FarmGPS F) (s1 s2 : Sentence),
         length (term (parser g)) = 20%nat ->
         well_formed s1 = true -> checksum_ok s1 = true ->
         well_formed s2 = true -> checksum_ok s2 = true ->
         exists g1 g2,
           feed (events s1) g
           = Done (replicate (length (s_payload s1) + 4) false ++ [true], g1)
           /\ feed (events s2) g1
              = Done (replicate (length (s_payload s2) + 4) false ++ [true], g2)
           /\ date (pub g2) = date (pub g)
           /\ (kind s2 <> GGA -> GGA_members (pub g2) = GGA_members (pub g1))
           /\ (kind s2 <> VTG -> VTG_members (pub g2) = VTG_members (pub g1))
           /\ (kind s2 <> XTE -> kind s2 <> XTE2 ->
               XTE_members (pub g2) = XTE_members (pub g1)))
  /\ (forall (g : FarmGPS F) (start t0 tl tstar t1 t2 c1 c2 d1 d2 : Z)
             (pre rest : list (Z * Z)) (sep e : Z * Z),
         length (term (parser g)) = 20%nat ->
         is_start start = true ->
         forallb payload_byte pre.*1 = true ->
         terminators pre.*1 = 2 ->
         stored (first_field pre.*1) = chars "GPGGA" ->
         is_terminator sep.1 = true -> sep.1 <> STAR ->
         forallb payload_byte rest.*1 = true ->
         begins_with_terminator rest.*1 = true ->
         terminators rest.*1 <= 250 ->
         is_hex_digit c1 = true -> is_hex_digit c2 = true ->
         is_hex_digit d1 = true -> is_hex_digit d2 = true ->
         is_terminator e.1 = true -> e.1 <> COMMA ->
         16 * hex_to_int c1 + hex_to_int c2
         = nmea_xor (pre.*1 ++ [sep.1; 78] ++ rest.*1) ->
         16 * hex_to_int d1 + hex_to_int d2
         = nmea_xor (pre.*1 ++ [sep.1; 83] ++ rest.*1) ->
         let quiet := replicate (length pre + 2 + length rest + 4) false in
         exists gN gS,
           feed ((start, t0) :: pre ++ [sep; (78, tl)] ++ rest
                   ++ [(STAR, tstar); (c1, t1); (c2, t2); e]) g
           = Done (quiet ++ [true], gN)
           /\ feed ((start, t0) :: pre ++ [sep; (83, tl)] ++ rest
                      ++ [(STAR, tstar); (d1, t1); (d2, t2); e]) g
              = Done (quiet ++ [true], gS)
           /\ pub gS = with_latitude_negated (pub gN)).
Proof.
  split.
  { intros c now g g' v Hd.
    apply decode_effect in Hd as (_ & _ & _ & _ & _ & Htrue & Hfalse). auto. }
  split; [exact commit_frame|].
  split.
  { intros g s1 s2 Hlen Hwf1 Hck1 Hwf2 Hck2.
    destruct (sentence_commits g s1 Hlen Hwf1 Hck1) as (g1 & Hf1 & Hp1 & Hl1).
    destruct (sentence_commits g1 s2 Hl1 Hwf2 Hck2) as (g2 & Hf2 & Hp2 & _).
    exists g1, g2. split; [exact Hf1|]. split; [exact Hf2|].
    destruct (commit_frame (s_end s2).2 (kind s2) (shadow g2) (pub g1))
      as (Hd & HG & HV & HX & _).
    destruct (commit_frame (s_end s1).2 (kind s1) (shadow g1) (pub g))
      as (Hd1 & _).
    rewrite Hp2. repeat split; auto. congruence. }
  intros g start t0 tl tstar t1 t2 c1 c2 d1 d2 pre rest sep e
         Hlen Hs Hpre Hpre2 Hfirst Hsep Hsepstar Hrest Hbegin Hrest250
         Hc1 Hc2 Hd1 Hd2 He Hne HsumN HsumS quiet.
  destruct (hemisphere_shadows g start t0 tl tstar pre rest sep
              (c1, t1) (c2, t2) (d1, t1) (d2, t2) e
              Hlen Hs Hpre Hpre2 Hfirst Hsep Hsepstar Hrest Hbegin Hrest250
              Hc1 Hc2 Hd1 Hd2 He Hne)
    as (vN & vS & gN & gS & HfN & HfS & Hsh).
  assert (forall (L x1 x2 : Z),
             payload_byte L = true ->
             16 * hex_to_int x1 + hex_to_int x2
             = nmea_xor (pre.*1 ++ [sep.1; L] ++ rest.*1) ->
             is_hex_digit x1 = true -> is_hex_digit x2 = true ->
             exists g',
               feed ((start, t0) :: pre ++ [sep; (L, tl)] ++ rest
                       ++ [(STAR, tstar); (x1, t1); (x2, t2); e]) g
               = Done (quiet ++ [true], g')
               /\ pub g' = commit e.2 GGA (shadow g') (pub g)) as Hrun.
  { intros L x1 x2 HL Hsum Hx1 Hx2.
    pose proof (terminators_nonneg rest.*1) as Hnn.
    destruct (valid_sentence_commits g start t0 tstar
                (pre ++ [sep; (L, tl)] ++ rest) (x1, t1) (x2, t2) e)
      as (g' & Hf & Hp & _); auto.
    - assert (payload_byte sep.1 = true) as Hsepb.
      { unfold payload_byte. rewrite Hsep.
        apply Z.eqb_neq in Hsepstar. rewrite Hsepstar. apply orb_true_r. }
      rewrite !fmap_app, !forallb_app, Hpre, Hrest.
      change ([sep; (L, tl)].*1) with [sep.1; L].
      cbn [forallb]. rewrite HL, Hsepb. reflexivity.
    - rewrite !fmap_app, !terminators_app, Hpre2. simpl. rewrite Hsep.
      destruct (is_terminator L); lia.
    - rewrite !fmap_app. exact Hsum.
    - exists g'. split.
      + rewrite <- !app_assoc in Hf. subst quiet.
        rewrite !length_app in Hf. simpl length in Hf.
        replace (length pre + 2 + length rest + 4)%nat
          with (length pre + S (S (length rest)) + 4)%nat by lia.
        exact Hf.
      + rewrite Hp. rewrite !fmap_app, first_field_app by lia.
        rewrite Hfirst. reflexivity. }
  destruct (Hrun 78 c1 c2 eq_refl HsumN Hc1 Hc2) as (gN' & HfN' & HpN).
  destruct (Hrun 83 d1 d2 eq_refl HsumS Hd1 Hd2) as (gS' & HfS' & HpS).
  destruct (feed_deterministic _ _ _ _ _ _ HfN HfN') as [_ <-].
  destruct (feed_deterministic _ _ _ _ _ _ HfS HfS') as [_ <-].
  exists gN, gS. split; [exact HfN'|]. split; [exact HfS'|].
  rewrite HpS, HpN, Hsh. apply commit_negated.
Qed.

End Groups.

(** Reduction of the record projections and of the binds, and nothing
    else. *)
Ltac record_simpl :=
  cbn [pub shadow parser stats with_parser with_shadow with_pub with_stats
       term term_number term_offset parity checksum sum is_checksum_term
       sentence_type set_term set_term_number set_term_offset set_parity
       set_checksum set_sum set_is_checksum_term set_sentence_type
       mbind outcome_bind fst snd].

Ltac record_simpl_in H :=
  cbn [pub shadow parser stats with_parser with_shadow with_pub with_stats
       term term_number term_offset parity checksum sum is_checksum_term
       sentence_type set_term set_term_number set_term_offset set_parity
       set_checksum set_sum set_is_checksum_term set_sentence_type
       mbind outcome_bind fst snd] in H.

(** ** The binary frame terminator *)

Lemma to_int_range (x : Z) : -32768 <= to_int x <= 32767.
Proof.
  unfold to_int. pose proof (Z.mod_pos_bound (x + 32768) 65536 ltac:(lia)). lia.
Qed.

(** The test of the two-byte trailer is equality of 16-bit integers. *)
Lemma trailer_test (s hi lo : Z) :
  -32768 <= s <= 32767 ->
  (to_int (to_int (s - to_byte lo) - to_int (256 * to_byte hi)) =? 0)
  = (s =? to_int (256 * to_byte hi + to_byte lo)).
Proof.
  intros Hs. unfold to_int.
  destruct (Z.eqb_spec ((((s - to_byte lo + 32768) mod 65536 - 32768
                          - ((256 * to_byte hi + 32768) mod 65536 - 32768)) + 32768)
                          mod 65536 - 32768) 0) as [E|E];
    destruct (Z.eqb_spec s ((256 * to_byte hi + to_byte lo + 32768) mod 65536 - 32768))
      as [E'|E']; try reflexivity; exfalso;
    revert E E'; generalize (to_byte lo) (to_byte hi); intros a b E E';
    Z.to_euclidean_division_equations; lia.
Qed.

Section Trimble.

Context {F : Type} {FO : FloatOps F}.

(** C4. The character 3 outside a checksum term, when the last buffered
    character is 16 (and three characters are buffered): the three trailer
    bytes are subtracted from [sum]; if what remains equals, as a 16-bit
    integer, [256 * term[term_offset-3] + term[term_offset-2]], the term is
    cut at the trailer, [parse_term] runs on the payload and then once more
    with [is_checksum_term] set, and [decode] returns the result of that
    second run -- true for an XTE2 sentence, whose [checksum] is set to
    [parity]; otherwise [decode] returns false.  In both cases the term is
    closed.  When the last buffered character is not 16, or inside a
    checksum term, the character 3 is an ordinary one: appended to the term
    if there is room, XORed into [parity] outside a checksum term, added to
    [sum]. *)
Theorem trimble_terminator (now : Z) (g : FarmGPS F) (hi lo : Z) :
  length (term (parser g)) = 20%nat ->
  3 <= term_offset (parser g) <= 19 ->
  is_checksum_term (parser g) = false ->
  term_at (term (parser g)) (term_offset (parser g) - 1) = Done DLE ->
  term_at (term (parser g)) (term_offset (parser g) - 2) = Done lo ->
  term_at (term (parser g)) (term_offset (parser g) - 3) = Done hi ->
  let p := parser g in
  let sum3 := to_int (to_int (to_int (sum p - to_byte DLE) - to_byte lo) - to_byte hi) in
  let counted := with_stats (count_character (stats g)) g in
  let next := fun q => set_term_offset 0 (set_term_number (to_byte (term_number q + 1)) q) in
  (sum3 = 256 * to_byte hi + to_byte lo ->
   sum3 = to_int (256 * to_byte hi + to_byte lo))
  /\ (sum3 = to_int (256 * to_byte hi + to_byte lo) ->
   exists v1 ga v gb,
     parse_term now
       (with_parser
          (set_term (<[Z.to_nat (term_offset p - 3) := 0]> (term p)) (set_sum sum3 p))
          counted)
     = Done (v1, ga)
     /\ parse_term now (with_parser (set_is_checksum_term true (parser ga)) ga)
        = Done (v, gb)
     /\ decode ETX now g = Done (v, with_parser (next (parser gb)) gb)
     /\ (sentence_type (parser ga) = XTE2 ->
         v = true /\ checksum (parser gb) = parity (parser gb)))
  /\ (sum3 <> to_int (256 * to_byte hi + to_byte lo) ->
      decode ETX now g = Done (false, with_parser (next (set_sum sum3 p)) counted))
  /\ (forall h : FarmGPS F,
         length (term (parser h)) = 20%nat ->
         1 <= term_offset (parser h) <= 19 ->
         term_at (term (parser h)) (term_offset (parser h) - 1) <> Done DLE
         \/ is_checksum_term (parser h) = true ->
         decode ETX now h = ordinary ETX (with_stats (count_character (stats h)) h)
         /\ exists h',
              decode ETX now h = Done (false, h')
              /\ term (parser h')
                 = (if term_offset (parser h) <? 19
                    then <[Z.to_nat (term_offset (parser h)) := ETX]> (term (parser h))
                    else term (parser h))
              /\ term_offset (parser h')
                 = (if term_offset (parser h) <? 19 then term_offset (parser h) + 1
                    else term_offset (parser h))
              /\ parity (parser h')
                 = (if is_checksum_term (parser h) then parity (parser h)
                    else to_byte (Z.lxor (parity (parser h)) ETX))
              /\ sum (parser h') = to_int (sum (parser h) + ETX)).
Proof.
  intros Hlen Hoff Hck H1 H2 H3 p sum3 counted next.
  assert (decode ETX now g
          = (if sum3 =? to_int (256 * to_byte hi + to_byte lo)
             then
               '(_, g1) ← parse_term now
                           (with_parser
                              (set_term (<[Z.to_nat (term_offset p - 3) := 0]> (term p))
                                        (set_sum sum3 p)) counted);
               '(valid, g') ← parse_term now
                               (with_parser (set_is_checksum_term true (parser g1)) g1);
               Done (valid, with_parser (next (parser g')) g')
             else Done (false, with_parser (next (set_sum sum3 p)) counted))) as Hdec.
  { rewrite decode_etx. subst p sum3 counted next.
    destruct g as [f sh q st]. destruct q as [t n off par ck sm ict ty].
    record_simpl. record_simpl_in Hck. record_simpl_in H1.
    record_simpl_in H2. record_simpl_in H3. record_simpl_in Hoff.
    record_simpl_in Hlen. subst ict.
    rewrite H1. record_simpl.
    change ((DLE =? DLE) && negb false) with true. cbv iota.
    unfold trimble_end. record_simpl. rewrite H2. record_simpl.
    rewrite H3. record_simpl.
    rewrite trailer_test by apply to_int_range.
    match goal with |- context [?a =? ?b] => destruct (a =? b) end; [|reflexivity].
    rewrite term_put_inside by lia. record_simpl.
    match goal with |- context [parse_term now ?g0] => destruct (parse_term now g0) as [[v1 g1]|] end;
      [|reflexivity].
    record_simpl.
    match goal with |- context [parse_term now ?g0] => destruct (parse_term now g0) as [[v2 g2]|] end;
      reflexivity. }
  split.
  { intros Heq. pose proof (to_int_range (to_int (to_int (sum p - to_byte DLE) - to_byte lo)
                                             - to_byte hi)) as Hr.
    fold sum3 in Hr. rewrite <- Heq. unfold to_int.
    rewrite Z.mod_small by lia. lia. }
  split; [|split].
  - intros Heq. apply Z.eqb_eq in Heq. rewrite Heq in Hdec.
    set (g0 := with_parser
                 (set_term (<[Z.to_nat (term_offset p - 3) := 0]> (term p)) (set_sum sum3 p))
                 counted) in *.
    assert (length (term (parser g0)) = 20%nat) as Hl0
      by (subst g0; simpl; rewrite length_insert; exact Hlen).
    assert (0 ∈ term (parser g0)) as Hz0.
    { subst g0. simpl. apply list_elem_of_lookup. exists (Z.to_nat (term_offset p - 3)).
      apply list_lookup_insert_eq. subst p. lia. }
    destruct (parse_term_total GPS_NO_STATS now g0 Hl0 Hz0) as (v1 & ga & Hpa).
    fold (@parse_term F FO) in Hpa.
    pose proof (parse_term_effect _ _ _ _ _ Hpa) as (Hta & _).
    set (ga' := with_parser (set_is_checksum_term true (parser ga)) ga) in *.
    assert (length (term (parser ga')) = 20%nat) as Hla
      by (subst ga'; simpl; rewrite Hta; exact Hl0).
    assert (0 ∈ term (parser ga')) as Hza
      by (subst ga'; simpl; rewrite Hta; exact Hz0).
    destruct (parse_term_total GPS_NO_STATS now ga' Hla Hza) as (v & gb & Hpb).
    fold (@parse_term F FO) in Hpb.
    exists v1, ga, v, gb.
    split; [exact Hpa|]. split; [exact Hpb|].
    split; [rewrite Hdec, Hpa; simpl; fold ga'; rewrite Hpb; reflexivity|].
    intros Hty.
    destruct (term (parser ga')) as [|c0 [|c1 rest]] eqn:Ht; try (simpl in Hla; lia).
    unfold parse_term in Hpb.
    rewrite (parse_term_checksum _ now ga' c0 c1 rest eq_refl Ht) in Hpb.
    unfold expected_checksum in Hpb.
    assert (sentence_type (parser ga') = XTE2) as Hty' by (subst ga'; simpl; exact Hty).
    rewrite Hty' in Hpb. simpl in Hpb. rewrite Z.eqb_refl in Hpb.
    injection Hpb as <- <-. split; [reflexivity|].
    subst ga'. destruct (parser ga); reflexivity.
  - intros Hne. apply Z.eqb_neq in Hne. rewrite Hne in Hdec. exact Hdec.
  - intros h Hlh Hoh Hguard.
    assert (decode ETX now h = ordinary ETX (with_stats (count_character (stats h)) h))
      as Hord.
    { rewrite decode_etx. simpl.
      destruct (term_at_inside (term (parser h)) (term_offset (parser h) - 1) ltac:(lia))
        as (x & Hx & _).
      rewrite Hx. simpl.
      destruct Hguard as [Hg|Hg].
      - rewrite Hx in Hg.
        assert ((x =? DLE) = false) as -> by (apply Z.eqb_neq; congruence).
        reflexivity.
      - rewrite Hg, andb_false_r. reflexivity. }
    split; [exact Hord|]. rewrite Hord.
    destruct h as [f sh q st]. destruct q as [t n off par ck sm ict ty].
    simpl in *. unfold ordinary, sizeof_term. simpl.
    change (20 - 1) with 19.
    destruct (off <? 19) eqn:E.
    + apply Z.ltb_lt in E. rewrite term_put_inside by lia. simpl.
      rewrite to_byte_small by lia.
      destruct ict; eexists; (split; [reflexivity|]); simpl; auto.
    + simpl. destruct ict; eexists; (split; [reflexivity|]); simpl; auto.
Qed.

End Trimble.

(** ** Sentences that are turned down *)

(** Accesses past a prefix of the buffer. *)
Lemma term_at_app (w r : list Z) (k : Z) :
  0 <= k -> term_at (w ++ r) (Z.of_nat (length w) + k) = term_at r k.
Proof.
  intros Hk. unfold term_at.
  assert ((Z.of_nat (length w) + k <? 0) = false) as -> by (apply Z.ltb_ge; lia).
  assert ((k <? 0) = false) as -> by (apply Z.ltb_ge; lia).
  rewrite lookup_app_r by lia.
  replace (Z.to_nat (Z.of_nat (length w) + k) - length w)%nat with (Z.to_nat k) by lia.
  reflexivity.
Qed.

Lemma term_put_app (w r : list Z) (k v : Z) :
  0 <= k < Z.of_nat (length r) ->
  term_put (w ++ r) (Z.of_nat (length w) + k) v = Done (w ++ <[Z.to_nat k := v]> r).
Proof.
  intros Hk. rewrite term_put_inside by (rewrite length_app; lia).
  rewrite insert_app_r_alt by lia.
  replace (Z.to_nat (Z.of_nat (length w) + k) - length w)%nat with (Z.to_nat k) by lia.
  reflexivity.
Qed.

Section Mismatch.

Context {F : Type} {FO : FloatOps F}.

(** A character of a checksum token: stored like one of any other term,
    and not XORed into [parity]. *)
Lemma token_step (c now : Z) (g : FarmGPS F) (w : list Z) :
  length (term (parser g)) = 20%nat ->
  is_checksum_term (parser g) = true ->
  term_offset (parser g) = Z.of_nat (length w) ->
  take (length w) (term (parser g)) = w ->
  (length w <= 19)%nat ->
  field_byte c = true ->
  let w' := take 19 (w ++ stored [c]) in
  exists g',
    decode c now g = Done (false, g')
    /\ length (term (parser g')) = 20%nat
    /\ is_checksum_term (parser g') = true
    /\ term_offset (parser g') = Z.of_nat (length w')
    /\ take (length w') (term (parser g')) = w'
    /\ (length w' <= 19)%nat
    /\ pub g' = pub g /\ shadow g' = shadow g
    /\ parity (parser g') = parity (parser g)
    /\ sentence_type (parser g') = sentence_type (parser g).
Proof.
  intros Hlen Hck Hoff Htake Hw Hc w'.
  destruct g as [f sh p st]. destruct p as [t n off par ck sm ict ty].
  cbn [parser term term_offset is_checksum_term] in Hlen, Hck, Hoff, Htake.
  subst ict off.
  destruct (field_byte_cases c Hc) as [Hi|Hd].
  - assert (w' = w) as ->.
    { unfold w'. cbn [stored]. rewrite Hi, app_nil_r. apply firstn_all2. lia. }
    rewrite (decode_ignored c now _ Hi). eexists. split; [reflexivity|].
    record_simpl. repeat split; auto.
  - assert (is_ignored c = false) as Hni.
    { unfold default_label in Hd. destruct (is_ignored c); [|reflexivity].
      rewrite andb_false_r in Hd. discriminate Hd. }
    rewrite (decode_default c now _ Hd). unfold ordinary, sizeof_term. record_simpl.
    destruct (Z.of_nat (length w) <? 20 - 1) eqn:E.
    + apply Z.ltb_lt in E.
      assert (w' = w ++ [c]) as ->.
      { unfold w'. cbn [stored]. rewrite Hni. apply firstn_all2.
        rewrite length_app. cbn [length]. lia. }
      rewrite term_put_inside by lia. record_simpl. rewrite Nat2Z.id.
      eexists. split; [reflexivity|]. record_simpl.
      rewrite length_insert, length_app. cbn [length].
      split; [exact Hlen|]. split; [reflexivity|].
      split; [rewrite to_byte_small by lia; lia|].
      split; [|split; [lia|repeat split; reflexivity]].
      replace (length w + 1)%nat with (S (length w)) by lia.
      rewrite (take_S_r _ _ c).
      * rewrite take_insert_ge by lia. rewrite Htake. reflexivity.
      * apply list_lookup_insert_eq. lia.
    + apply Z.ltb_ge in E.
      assert (w' = w) as ->.
      { unfold w'. cbn [stored]. rewrite Hni.
        rewrite take_app_le by lia. apply firstn_all2. lia. }
      record_simpl. eexists. split; [reflexivity|]. record_simpl.
      repeat split; auto.
Qed.

Lemma token_run (evs : list (Z * Z)) (g : FarmGPS F) (w : list Z) :
  length (term (parser g)) = 20%nat ->
  is_checksum_term (parser g) = true ->
  term_offset (parser g) = Z.of_nat (length w) ->
  take (length w) (term (parser g)) = w ->
  (length w <= 19)%nat ->
  forallb field_byte evs.*1 = true ->
  let w' := take 19 (w ++ stored evs.*1) in
  exists g',
    feed evs g = Done (replicate (length evs) false, g')
    /\ length (term (parser g')) = 20%nat
    /\ is_checksum_term (parser g') = true
    /\ term_offset (parser g') = Z.of_nat (length w')
    /\ take (length w') (term (parser g')) = w'
    /\ (length w' <= 19)%nat
    /\ pub g' = pub g /\ shadow g' = shadow g
    /\ parity (parser g') = parity (parser g)
    /\ sentence_type (parser g') = sentence_type (parser g).
Proof.
  revert g w. induction evs as [|[c n] evs IH]; intros g w Hlen Hck Hoff Htake Hw Hall w'.
  - assert (w' = w) as ->.
    { unfold w'. cbn [fmap list_fmap stored]. rewrite app_nil_r. apply firstn_all2. lia. }
    exists g. repeat split; auto.
  - cbn [fmap list_fmap fst forallb] in Hall.
    apply andb_true_iff in Hall as [Hc Hall].
    destruct (token_step c n g w Hlen Hck Hoff Htake Hw Hc)
      as (g1 & Hd & Hl1 & Hi1 & Ho1 & Ht1 & Hw1 & Hp1 & Hs1 & Hpar1 & Hty1).
    destruct (IH g1 _ Hl1 Hi1 Ho1 Ht1 Hw1 Hall)
      as (g2 & Hf & Hl2 & Hi2 & Ho2 & Ht2 & Hw2 & Hp2 & Hs2 & Hpar2 & Hty2).
    assert (take 19 (take 19 (w ++ stored [c]) ++ stored evs.*1) = w') as Hww.
    { unfold w'. rewrite take_take_app, <- app_assoc.
      change ((c, n) :: evs).*1 with ([c] ++ evs.*1).
      f_equal. f_equal. cbn [app stored]. destruct (is_ignored c); reflexivity. }
    rewrite Hww in Ho2, Ht2, Hw2.
    exists g2. split; [exact (feed_cons_done _ _ _ _ _ _ _ _ Hd Hf)|].
    repeat split; try congruence; lia.
Qed.

(** The terminator of a checksum token of one stored character or more. *)
Lemma token_close (c now : Z) (g : FarmGPS F) (w : list Z) :
  length (term (parser g)) = 20%nat ->
  is_checksum_term (parser g) = true ->
  term_offset (parser g) = Z.of_nat (length w) ->
  take (length w) (term (parser g)) = w ->
  (length w <= 19)%nat ->
  w <> [] ->
  is_terminator c = true ->
  0 <= parity (parser g) < 256 ->
  let par := closing_parity (parity (parser g)) c in
  let ck := if types_eqb (sentence_type (parser g)) XTE2 then par else token_value w in
  exists g',
    decode c now g = Done (ck =? par, g')
    /\ pub g' = (if ck =? par
                 then commit now (sentence_type (parser g)) (shadow g) (pub g)
                 else pub g).
Proof.
  intros Hlen Hck Hoff Htake Hw Hne Hc Hpar.
  destruct g as [f sh p st]. destruct p as [t n off par0 ck0 sm ict ty].
  cbn [parser term term_offset is_checksum_term parity sentence_type shadow pub]
    in Hlen, Hck, Hoff, Htake, Hpar |- *.
  subst ict off.
  assert (exists x r, t = w ++ x :: r) as (x & r & Ht).
  { destruct (drop (length w) t) as [|x r] eqn:Ed.
    - apply (f_equal length) in Ed. rewrite length_drop in Ed. cbn [length] in Ed. lia.
    - exists x, r. rewrite <- Ed, <- Htake at 1. rewrite Htake.
      rewrite <- (take_drop (length w) t) at 1. rewrite Htake. reflexivity. }
  clear Htake. subst t.
  assert (closing_parity par0 c
          = (if c =? COMMA then to_byte (Z.lxor par0 c) else par0)) as Hcp.
  { unfold closing_parity. destruct (Z.eqb_spec c COMMA) as [->|_]; [|reflexivity].
    symmetry. apply to_byte_small. apply lxor_byte_range; [exact Hpar|].
    unfold COMMA. lia. }
  cbn zeta. rewrite Hcp.
  rewrite (decode_terminator c now _ Hc). cbn zeta.
  destruct w as [|c1 w]; [contradiction|].
  destruct (c =? COMMA); record_simpl;
    (replace (Z.of_nat (length (c1 :: w))) with (Z.of_nat (length (c1 :: w)) + 0) by lia);
    (rewrite (term_put_app (c1 :: w) (x :: r) 0 0) by (cbn [length]; lia));
    change (<[Z.to_nat 0 := 0]> (x :: r)) with (0 :: r);
    record_simpl; unfold parse_term;
    (destruct w as [|c2 w];
     [ erewrite (parse_term_checksum _ _ _ c1 0 r); [|reflexivity|reflexivity]
     | erewrite (parse_term_checksum _ _ _ c1 c2 (w ++ 0 :: r)); [|reflexivity|reflexivity] ]);
    unfold expected_checksum, token_value; cbn zeta; record_simpl;
    destruct (types_eqb ty XTE2);
    match goal with |- context [if ?a =? ?b then _ else _] => destruct (a =? b) end;
    eexists; (split; [reflexivity|]); reflexivity.
Qed.

(** C2, as the code has it.  An ASCII sentence whose first field is not
    "ROXTE", with at most 255 terms, and whose checksum token does not match:
    the token is any characters of a term, one of them stored at least, up
    to a terminator of any kind; the value read from it is
    [16 * hex_to_int(term[0]) + hex_to_int(term[1])] as a byte, for hex
    digits or not, and it differs from the XOR of the payload (XORed with
    the comma when a comma closes the token).  [decode] returns false on
    every character of the sentence and the published members (values,
    timekeepers and flags) are after the sentence what they were before
    it. *)
Theorem bad_checksum_discarded
    (g : FarmGPS F) (start t0 tstar : Z) (payload token : list (Z * Z)) (e : Z * Z) :
  length (term (parser g)) = 20%nat ->
  is_start start = true ->
  forallb payload_byte payload.*1 = true ->
  terminators payload.*1 <= 254 ->
  stored (first_field payload.*1) <> chars "ROXTE" ->
  forallb field_byte token.*1 = true ->
  stored token.*1 <> [] ->
  is_terminator e.1 = true ->
  token_value (stored token.*1) <> closing_parity (nmea_xor payload.*1) e.1 ->
  exists g',
    feed ((start, t0) :: payload ++ (STAR, tstar) :: token ++ [e]) g
    = Done (replicate (length payload + length token + 3) false, g')
    /\ pub g' = pub g.
Proof.
  intros Hlen Hs Hall Hterm Hfirst Htok Hne He Hsum.
  destruct (step_start start t0 g Hlen Hs) as (g1 & Hd1 & Hin1 & Hp1 & _ & Hn1 & Hpar1 & _).
  destruct (feed_body payload tstar g1 [] Hin1 Hn1 Hall Hterm)
    as (g2 & Hf2 & Hp2 & Hl2 & Ho2 & Hc2 & Hpar2 & Hty2).
  rewrite Hpar1, Z.lxor_0_l in Hpar2.
  rewrite app_nil_l, type_of_token_take in Hty2.
  destruct (token_run token g2 [] Hl2 Hc2 Ho2 (take_0 _) ltac:(cbn [length]; lia) Htok)
    as (g3 & Hf3 & Hl3 & Hc3 & Ho3 & Ht3 & Hw3 & Hp3 & _ & Hpar3 & Hty3).
  rewrite app_nil_l in Ho3, Ht3, Hw3.
  assert (take 19 (stored token.*1) <> []) as Hne3.
  { destruct (stored token.*1); [contradiction|discriminate]. }
  assert (token_value (take 19 (stored token.*1)) = token_value (stored token.*1)) as Hval.
  { destruct (stored token.*1) as [|c1 [|c2 w]]; reflexivity. }
  destruct (token_close e.1 e.2 g3 _ Hl3 Hc3 Ho3 Ht3 Hw3 Hne3 He) as (g4 & Hd4 & Hp4).
  { rewrite Hpar3, Hpar2. apply nmea_xor_range. }
  cbn zeta in Hd4, Hp4.
  assert (types_eqb (sentence_type (parser g3)) XTE2 = false) as Hx.
  { rewrite Hty3, Hty2.
    destruct (type_of_token (stored (first_field payload.*1))) eqn:E; try reflexivity.
    apply type_of_token_cases in E. contradiction. }
  rewrite Hx, Hval, Hpar3, Hpar2 in Hd4, Hp4.
  assert ((token_value (stored token.*1) =? closing_parity (nmea_xor payload.*1) e.1)
          = false) as Hfalse by (apply Z.eqb_neq; exact Hsum).
  rewrite Hfalse in Hd4, Hp4.
  exists g4. split; [|congruence].
  replace (replicate (length payload + length token + 3) false)
    with (false :: replicate (length payload + 1) false
                ++ replicate (length token) false ++ [false]).
  2:{ replace (length payload + length token + 3)%nat
        with (S (length payload + 1) + (length token + 1))%nat by lia.
      rewrite (replicate_add (S (length payload + 1)) (length token + 1)).
      rewrite (replicate_add (length token) 1). reflexivity. }
  eapply feed_cons_done; [exact Hd1|].
  change (payload ++ (STAR, tstar) :: token ++ [e])
    with (payload ++ [(STAR, tstar)] ++ token ++ [e]).
  rewrite app_assoc.
  eapply feed_app_done; [exact Hf2|].
  eapply feed_app_done; [exact Hf3|].
  destruct e as [ce ne]. cbn [feed]. cbn [fst snd] in Hd4. rewrite Hd4. reflexivity.
Qed.

End Mismatch.

(** * The theorems at concrete sentences

    The decoder is run in exact arithmetic, from the state its constructor
    leaves in zeroed memory. *)

Ltac evaluated :=
  first [ vm_compute; reflexivity
        | vm_compute; discriminate
        | vm_compute; lia
        | vm_compute; split; discriminate
        | apply (bool_decide_unpack _); vm_compute; exact I ].

Lemma valid_sentence_accepted_witness :
  exists g',
    feed (events Exact.gga) Exact.fresh
    = Done (replicate (length Exact.gga_payload + 4) false ++ [true], g').
Proof.
  apply (valid_sentence_accepted Exact.fresh 36 1000 1000 Exact.gga_payload
           (52, 1000) (55, 1000) (13, 1000)); evaluated.
Defined.

Lemma bad_checksum_discarded_witness :
  exists g',
    feed ((36, 1000) :: Exact.gga_payload
            ++ (STAR, 1000) :: Exact.text "4 8" 1000 ++ [(13, 1000)]) Exact.fresh
    = Done (replicate (length Exact.gga_payload + length (Exact.text "4 8" 1000) + 3) false,
            g')
    /\ pub g' = pub Exact.fresh.
Proof.
  apply (bad_checksum_discarded Exact.fresh 36 1000 1000 Exact.gga_payload
           (Exact.text "4 8" 1000) (13, 1000)); evaluated.
Defined.

(** The value read from a checksum token is that of [hex_to_int] on any
    characters: for the token "t7", 16 * 68 + 7 is 71 as a byte, the XOR of
    the payload of the GGA sentence, and the sentence is accepted as with
    "47". *)
Lemma non_hex_token_accepted :
  token_value (chars "t7") = nmea_xor Exact.gga_payload.*1
  /\ exists g',
       feed ((36, 1000) :: Exact.gga_payload
               ++ (STAR, 1000) :: Exact.text "t7" 1000 ++ [(13, 1000)]) Exact.fresh
       = Done (replicate (length Exact.gga_payload + 4) false ++ [true], g').
Proof. split; [evaluated|]. eexists. evaluated. Qed.

(** C2 fails for the sentence "$ROXTE,1.5*00": its checksum digits do not
    give the XOR of its payload, and yet [decode] returns true on the
    terminator of the checksum token and publishes the cross-track error. *)
Lemma roxte_bad_checksum_commits :
  well_formed Exact.roxte_bad = true
  /\ checksum_ok Exact.roxte_bad = false
  /\ exists g',
       feed (events Exact.roxte_bad) Exact.fresh
       = Done (replicate 13 false ++ [true], g')
       /\ xte (pub g') <> xte (pub Exact.fresh)
       /\ new_XTE_data (pub g') <> new_XTE_data (pub Exact.fresh).
Proof.
  split; [vm_compute; reflexivity|]. split; [vm_compute; reflexivity|].
  eexists. split; [vm_compute; reflexivity|].
  split; vm_compute; discriminate.
Qed.

(** C3 fails for the ASCII sentence "$ROXTE,1.5*00": the value its
    checksum term is compared with is not the one of the two digits "00"
    but [parity] itself. *)
Lemma roxte_expected_value_is_parity :
  exists vs g',
    feed (events Exact.roxte_bad) Exact.fresh = Done (vs, g')
    /\ last vs = Some true
    /\ checksum (parser g') <> to_byte (16 * hex_to_int 48 + hex_to_int 48)
    /\ checksum (parser g') = parity (parser g').
Proof.
  eexists _, _. split; [vm_compute; reflexivity|].
  split; [reflexivity|]. split; [vm_compute; discriminate | reflexivity].
Qed.

Lemma parity_is_xor_of_checksum_domain_witness :
  exists vs g1,
    feed ((36, 1000) :: Exact.gga_payload) Exact.fresh = Done (vs, g1)
    /\ parity (parser g1) = nmea_xor Exact.gga_payload.*1.
Proof.
  destruct (parity_is_xor_of_checksum_domain Exact.fresh 36 1000 1000
              Exact.gga_payload (Exact.text "47" 1000)) as [H _];
    [evaluated | evaluated | evaluated | evaluated | exact H].
Defined.

Lemma trimble_terminator_witness :
  exists v g',
    decode ETX 7 (Exact.after Exact.trimble_frame Exact.fresh) = Done (v, g').
Proof.
  destruct (trimble_terminator 7 (Exact.after Exact.trimble_frame Exact.fresh) 2 82)
    as (_ & Hmatch & _); [evaluated | evaluated | evaluated | evaluated | evaluated | evaluated |].
  destruct Hmatch as (v1 & ga & v & gb & _ & _ & Hd & _); [evaluated|].
  eexists _, _. exact Hd.
Defined.

Lemma first_term_selects_type_witness :
  parse_term 1000 Exact.gga_first_term
  = Done (false, with_parser (set_sentence_type GGA (parser Exact.gga_first_term))
                             Exact.gga_first_term).
Proof.
  destruct (first_term_selects_type 1000 Exact.gga_first_term (chars "GPGGA")
              (replicate 14 0)) as [H _];
    [evaluated | evaluated | evaluated | evaluated | exact H].
Defined.

Lemma term_offset_bounded_witness :
  exists g',
    decode 90 9 (Exact.after Exact.long_term Exact.fresh) = Done (false, g')
    /\ term (parser g') = term (parser (Exact.after Exact.long_term Exact.fresh))
    /\ term_offset (parser g') = 19.
Proof.
  destruct (term_offset_bounded Exact.zeroed Exact.long_term (replicate 27 false)
              (Exact.after Exact.long_term Exact.fresh)) as (_ & _ & H);
    [evaluated | evaluated |].
  destruct (H 90 9) as (g' & Hd & Ht & Ho & _); [evaluated | evaluated |].
  exists g'. auto.
Defined.

Lemma counters_as_configured_witness :
  good_sentences (stats (Exact.after (events Exact.gga) Exact.fresh))
  = good_sentences (stats Exact.gga_before_end)
  /\ encoded_characters (stats (Exact.after (events Exact.gga) Exact.fresh))
     = to_ulong (encoded_characters (stats Exact.gga_before_end) + 1).
Proof.
  destruct (counters_as_configured 13 1000 Exact.gga_before_end
              (Exact.after (events Exact.gga) Exact.fresh) true)
    as (He & Hg & _); [evaluated|].
  split; assumption.
Defined.

(** C7 fails on the code as configured: the last character of the GGA
    sentence completes a checksum term that matches ([decode] returns
    true), and [good_sentences] is not incremented. *)
Lemma good_sentence_not_counted :
  exists g',
    decode 13 1000 Exact.gga_before_end = Done (true, g')
    /\ good_sentences (stats g')
       <> to_ulong (good_sentences (stats Exact.gga_before_end) + 1).
Proof.
  eexists. split; [vm_compute; reflexivity|]. vm_compute. discriminate.
Qed.

Lemma new_data_flag_consumed_once_witness :
  exists g1,
    feed (events Exact.gga) Exact.fresh
    = Done (replicate (length Exact.gga_payload + 4) false ++ [true], g1)
    /\ (got_new_GGA_data g1).1 = true
    /\ (got_new_GGA_data (got_new_GGA_data g1).2).1 = false.
Proof.
  destruct (new_data_flag_consumed_once GGA_group Exact.fresh 36 1000 1000
              Exact.gga_payload (52, 1000) (55, 1000) (13, 1000))
    as (_ & _ & g1 & Hf & H1 & H2 & _);
    [evaluated | evaluated | evaluated | evaluated | evaluated | evaluated
    | evaluated | evaluated | evaluated | evaluated |].
  exists g1. auto.
Defined.

Lemma commit_is_per_group_witness :
  (exists g1 g2,
      feed (events Exact.gga) Exact.fresh
      = Done (replicate (length (s_payload Exact.gga) + 4) false ++ [true], g1)
      /\ feed (events Exact.vtg) g1
         = Done (replicate (length (s_payload Exact.vtg) + 4) false ++ [true], g2)
      /\ GGA_members (pub g2) = GGA_members (pub g1))
  /\ (exists gN gS,
         feed ((36, 1000) :: Exact.gga_pre ++ [(44, 1000); (78, 1000)] ++ Exact.gga_rest
                 ++ [(STAR, 1000); (52, 1000); (55, 1000); (13, 1000)]) Exact.fresh
         = Done (replicate (length Exact.gga_pre + 2 + length Exact.gga_rest + 4) false
                   ++ [true], gN)
         /\ feed ((36, 1000) :: Exact.gga_pre ++ [(44, 1000); (83, 1000)] ++ Exact.gga_rest
                    ++ [(STAR, 1000); (53, 1000); (65, 1000); (13, 1000)]) Exact.fresh
            = Done (replicate (length Exact.gga_pre + 2 + length Exact.gga_rest + 4) false
                      ++ [true], gS)
         /\ pub gS = with_latitude_negated (pub gN)).
Proof.
  destruct (@commit_is_per_group Q Exact.exact_ops) as (_ & _ & Htwo & Hhemi).
  split.
  - destruct (Htwo Exact.fresh Exact.gga Exact.vtg)
      as (g1 & g2 & Hf1 & Hf2 & _ & HG & _);
      [evaluated | evaluated | evaluated | evaluated | evaluated |].
    exists g1, g2. split; [exact Hf1|]. split; [exact Hf2|].
    apply HG. evaluated.
  - apply (Hhemi Exact.fresh 36 1000 1000 1000 1000 1000 52 55 53 65
             Exact.gga_pre Exact.gga_rest (44, 1000) (13, 1000)); evaluated.
Defined.

(** * Further properties of the code *)

(** ** The checksum digits *)

Lemma upper_hex_digit_value (n : Z) :
  0 <= n <= 15 ->
  hex_to_int (upper_hex_digit n) = n /\ is_hex_digit (upper_hex_digit n) = true.
Proof.
  intros Hn. unfold upper_hex_digit, hex_to_int, is_hex_digit.
  destruct (Z.ltb_spec n 10);
    repeat match goal with
           | |- context [?a <=? ?b] => destruct (Z.leb_spec a b)
           end; simpl; split; try reflexivity; lia.
Qed.

Lemma lower_hex_digit_value (n : Z) :
  0 <= n <= 15 ->
  hex_to_int (lower_hex_digit n) = n /\ is_hex_digit (lower_hex_digit n) = true.
Proof.
  intros Hn. unfold lower_hex_digit, hex_to_int, is_hex_digit.
  destruct (Z.ltb_spec n 10);
    repeat match goal with
           | |- context [?a <=? ?b] => destruct (Z.leb_spec a b)
           end; simpl; split; try reflexivity; lia.
Qed.

Lemma byte_nibbles (b : Z) :
  0 <= b < 256 -> 0 <= b / 16 <= 15 /\ 0 <= b mod 16 <= 15 /\ 16 * (b / 16) + b mod 16 = b.
Proof. intros Hb. Z.to_euclidean_division_equations. lia. Qed.

Section ChecksumDigits.

Context {F : Type} {FO : FloatOps F}.

(** X1. The two hexadecimal digits of a byte, in either case, are read back
    by [hex_to_int] as that byte; and a sentence that ends in the two
    digits of the XOR of its payload is accepted: [decode] returns true on
    the terminator of the checksum token and false before. *)
Theorem checksum_digits_round_trip
    (g : FarmGPS F) (start t0 tstar t1 t2 : Z) (payload : list (Z * Z)) (e : Z * Z) :
  length (term (parser g)) = 20%nat ->
  is_start start = true ->
  forallb payload_byte payload.*1 = true ->
  is_terminator e.1 = true -> e.1 <> COMMA ->
  (forall b, 0 <= b < 256 ->
      16 * hex_to_int (upper_hex_digit (b / 16)) + hex_to_int (upper_hex_digit (b mod 16)) = b
      /\ 16 * hex_to_int (lower_hex_digit (b / 16)) + hex_to_int (lower_hex_digit (b mod 16)) = b)
  /\ exists g',
       feed ((start, t0) :: payload
               ++ [(STAR, tstar);
                   (upper_hex_digit (nmea_xor payload.*1 / 16), t1);
                   (upper_hex_digit (nmea_xor payload.*1 mod 16), t2); e]) g
       = Done (replicate (length payload + 4) false ++ [true], g').
Proof.
  intros Hlen Hs Hall He Hne.
  assert (forall b, 0 <= b < 256 ->
             16 * hex_to_int (upper_hex_digit (b / 16)) + hex_to_int (upper_hex_digit (b mod 16)) = b
             /\ 16 * hex_to_int (lower_hex_digit (b / 16)) + hex_to_int (lower_hex_digit (b mod 16)) = b)
    as Hround.
  { intros b Hb. destruct (byte_nibbles b Hb) as (Hhi & Hlo & Heq).
    destruct (upper_hex_digit_value _ Hhi) as [-> _].
    destruct (upper_hex_digit_value _ Hlo) as [-> _].
    destruct (lower_hex_digit_value _ Hhi) as [-> _].
    destruct (lower_hex_digit_value _ Hlo) as [-> _]. auto. }
  split; [exact Hround|].
  pose proof (nmea_xor_range payload.*1) as Hx.
  destruct (byte_nibbles _ Hx) as (Hhi & Hlo & _).
  set (h1 := (upper_hex_digit (nmea_xor payload.*1 / 16), t1)).
  set (h2 := (upper_hex_digit (nmea_xor payload.*1 mod 16), t2)).
  assert (is_hex_digit h1.1 = true) as H1 by apply (upper_hex_digit_value _ Hhi).
  assert (is_hex_digit h2.1 = true) as H2 by apply (upper_hex_digit_value _ Hlo).
  destruct (step_start start t0 g Hlen Hs) as (g1 & Hd1 & Hin1 & _ & _ & _ & Hpar1 & _).
  destruct (feed_body_parity payload tstar g1 [] Hin1 Hall)
    as (g2 & Hf2 & _ & Hl2 & Ho2 & Hc2 & Hpar2).
  destruct (feed_checksum_token g2 h1 h2 e Hl2 Ho2 Hc2 H1 H2 He Hne) as (g3 & Hf3 & _).
  rewrite Hpar1, Z.lxor_0_l in Hpar2.
  assert (expected_checksum (parser g2) h1.1 h2.1 = parity (parser g2)) as Hck.
  { unfold expected_checksum.
    destruct (types_eqb (sentence_type (parser g2)) XTE2); [reflexivity|].
    rewrite hex_pair_byte by assumption. rewrite Hpar2.
    apply (proj1 (Hround _ Hx)). }
  rewrite Hck, Z.eqb_refl in Hf3.
  exists g3. rewrite <- quiet_run.
  eapply feed_cons_done; [exact Hd1|].
  change (payload ++ [(STAR, tstar); h1; h2; e])
    with (payload ++ [(STAR, tstar)] ++ [h1; h2; e]).
  rewrite app_assoc.
  replace (replicate (length payload) false ++ [false; false; false; true])
    with (replicate (length payload + 1) false ++ [false; false; true]).
  2:{ rewrite replicate_add, <- app_assoc. reflexivity. }
  eapply feed_app_done; [exact Hf2 | exact Hf3].
Qed.

End ChecksumDigits.

(** ** [strcmp] against a string literal *)

Lemma strcmp_literal (lit rest s : list Z) :
  0 ∉ lit -> (length lit < length s)%nat ->
  strcmp s (lit ++ 0 :: rest) = Done (bool_decide (take (S (length lit)) s = lit ++ [0]))
  /\ strcmp (lit ++ 0 :: rest) s = Done (bool_decide (take (S (length lit)) s = lit ++ [0])).
Proof.
  revert s. induction lit as [|c lit IH]; intros [|x s] Hz Hlen;
    try (simpl in Hlen; lia).
  - simpl. destruct (Z.eqb_spec x 0) as [->|Hx].
    + split; reflexivity.
    + assert ((0 =? x) = false) as -> by (apply Z.eqb_neq; congruence).
      rewrite take_0. rewrite bool_decide_eq_false_2 by congruence. split; reflexivity.
  - apply not_elem_of_cons in Hz as [Hc Hz]. simpl in Hlen.
    destruct (IH s Hz ltac:(lia)) as [IH1 IH2].
    cbn [strcmp app length take].
    destruct (Z.eqb_spec x c) as [->|Hx].
    + rewrite Z.eqb_refl.
      assert ((c =? 0) = false) as -> by (apply Z.eqb_neq; congruence).
      rewrite IH1, IH2.
      assert (bool_decide (take (S (length lit)) s = lit ++ [0])
              = bool_decide (c :: take (S (length lit)) s = c :: lit ++ [0])) as ->.
      { apply bool_decide_ext. split; [congruence | intros H; injection H; auto]. }
      split; reflexivity.
    + assert ((c =? x) = false) as -> by (apply Z.eqb_neq; congruence).
      rewrite bool_decide_eq_false_2 by congruence. split; reflexivity.
Qed.

Section Literal.

Context {F : Type} {FO : FloatOps F}.

(** X2. [strcmp] against a NUL-terminated string reads no further than the
    terminator of that string: on every buffer that is longer than the
    string it returns, whether the buffer holds a NUL or not, in either
    argument order, and it returns true exactly when the buffer begins with
    the string and its NUL.  The classification of a first term therefore
    stays inside every buffer of six bytes or more. *)
Theorem strcmp_against_literal (lit rest s : list Z) :
  0 ∉ lit -> (length lit < length s)%nat ->
  strcmp s (lit ++ 0 :: rest) = Done (bool_decide (take (S (length lit)) s = lit ++ [0]))
  /\ strcmp (lit ++ 0 :: rest) s = strcmp s (lit ++ 0 :: rest)
  /\ (forall t : list Z, (6 <= length t)%nat -> exists ty, classify t = Done ty).
Proof.
  intros Hz Hlen. destruct (strcmp_literal lit rest s Hz Hlen) as [H1 H2].
  split; [exact H1|]. split; [congruence|].
  intros t Ht. unfold classify.
  change GPGGA_TERM with (chars "GPGGA" ++ 0 :: []).
  change GPVTG_TERM with (chars "GPVTG" ++ 0 :: []).
  change GPXTE_TERM with (chars "GPXTE" ++ 0 :: []).
  change ROXTE_TERM with (chars "ROXTE" ++ 0 :: []).
  rewrite (proj1 (strcmp_literal (chars "GPGGA") [] t no_nul_in_chars_GPGGA Ht)).
  rewrite (proj1 (strcmp_literal (chars "GPVTG") [] t no_nul_in_chars_GPVTG Ht)).
  rewrite (proj1 (strcmp_literal (chars "GPXTE") [] t no_nul_in_chars_GPXTE Ht)).
  rewrite (proj1 (strcmp_literal (chars "ROXTE") [] t no_nul_in_chars_ROXTE Ht)).
  cbn [mbind outcome_bind].
  repeat (match goal with |- context [bool_decide ?P] => destruct (bool_decide P) end;
          [eexists; reflexivity|]).
  eexists. reflexivity.
Qed.

End Literal.

(** ** Concrete instances *)

Lemma checksum_digits_round_trip_witness :
  exists g',
    feed ((36, 1000) :: Exact.gga_payload
            ++ [(STAR, 1000);
                (upper_hex_digit (nmea_xor Exact.gga_payload.*1 / 16), 1000);
                (upper_hex_digit (nmea_xor Exact.gga_payload.*1 mod 16), 1000);
                (13, 1000)]) Exact.fresh
    = Done (replicate (length Exact.gga_payload + 4) false ++ [true], g').
Proof.
  eapply proj2.
  apply (checksum_digits_round_trip Exact.fresh 36 1000 1000 1000 1000
           Exact.gga_payload (13, 1000)); evaluated.
Defined.

Lemma strcmp_against_literal_witness :
  strcmp (term (parser Exact.gga_first_term)) (chars "GPGGA" ++ 0 :: [])
  = Done (bool_decide (take 6 (term (parser Exact.gga_first_term)) = chars "GPGGA" ++ [0])).
Proof.
  eapply proj1.
  apply (strcmp_against_literal (chars "GPGGA") [] (term (parser Exact.gga_first_term)));
    first [evaluated | vm_compute; lia].
Defined.

(** ** The published members are only written *)

Section WriteOnly.

Context {F : Type} {FO : FloatOps F}.

Lemma parse_term_ignores_published (ns : bool) (now : Z) (g : FarmGPS F) (f : Fix F) :
  parse_term_with ns now (with_pub f g)
  = ('(v, g') ← parse_term_with ns now g;
     Done (v, with_pub (if v : bool then commit now (sentence_type (parser g)) (shadow g) f
                        else f) g')).
Proof.
  destruct g as [f0 sh p st]. destruct p as [t n off par ck sm ict ty].
  unfold parse_term_with. record_simpl.
  destruct ict.
  - destruct (types_eqb ty XTE2); record_simpl.
    + rewrite Z.eqb_refl. reflexivity.
    + destruct (term_at t 0) as [c0|]; [|reflexivity]. record_simpl.
      destruct (term_at t 1) as [c1|]; [|reflexivity]. record_simpl.
      destruct (to_byte (16 * hex_to_int c0 + hex_to_int c1) =? par); reflexivity.
  - destruct (n =? 0).
    + destruct (classify t) as [ty'|]; reflexivity.
    + destruct (term_at t 0) as [c0|]; [|reflexivity]. record_simpl.
      destruct (c0 =? 0); [reflexivity|].
      destruct (extract ty n t sh) as [sh'|]; reflexivity.
Qed.

Lemma ordinary_ignores_published (c : Z) (g : FarmGPS F) (f : Fix F) :
  ordinary c (with_pub f g)
  = ('(v, g') ← ordinary c g; Done (v, with_pub f g'))
  /\ (forall v g', ordinary c g = Done (v, g') -> v = false).
Proof.
  destruct g as [f0 sh p st]. unfold ordinary. record_simpl.
  destruct (term_offset p <? sizeof_term - 1); record_simpl.
  - destruct (term_put (term p) (term_offset p) c) as [t'|]; record_simpl.
    + split; [reflexivity|]. intros v g' H. injection H as <- _. reflexivity.
    + split; [reflexivity|]. discriminate.
  - split; [reflexivity|]. intros v g' H. injection H as <- _. reflexivity.
Qed.

Lemma with_parser_pub (q : Parser) (f : Fix F) (g : FarmGPS F) :
  with_parser q (with_pub f g) = with_pub f (with_parser q g).
Proof. reflexivity. Qed.

Lemma with_stats_pub (st : Stats) (f : Fix F) (g : FarmGPS F) :
  with_stats st (with_pub f g) = with_pub f (with_stats st g).
Proof. reflexivity. Qed.

Lemma with_pub_pub (f f' : Fix F) (g : FarmGPS F) :
  with_pub f (with_pub f' g) = with_pub f g.
Proof. reflexivity. Qed.

Lemma trimble_end_ignores_published (now t1 : Z) (g : FarmGPS F) (f : Fix F) :
  is_checksum_term (parser g) = false ->
  trimble_end now t1 (with_pub f g)
  = ('(v, g') ← trimble_end now t1 g;
     Done (v, with_pub (if v : bool
                        then commit now (sentence_type (parser g')) (shadow g') f
                        else f) g')).
Proof.
  intros Hict. unfold trimble_end.
  change (parser (with_pub f g)) with (parser g).
  destruct (term_at (term (parser g)) (term_offset (parser g) - 2)) as [t2|];
    [|reflexivity].
  cbn [mbind outcome_bind].
  destruct (term_at (term (parser g)) (term_offset (parser g) - 3)) as [t3|];
    [|reflexivity].
  cbn [mbind outcome_bind].
  match goal with |- context [if ?b then _ else _] => destruct b end;
    [|rewrite with_parser_pub; reflexivity].
  match goal with |- context [term_put ?a ?b ?d] => destruct (term_put a b d) as [t'|] end;
    [|reflexivity].
  cbn [mbind outcome_bind]. unfold parse_term.
  rewrite with_parser_pub, parse_term_ignores_published.
  match goal with
  | |- context [parse_term_with ?ns now ?h] =>
      destruct (parse_term_with ns now h) as [[v1 g1]|] eqn:H1; [|reflexivity]
  end.
  apply parse_term_effect in H1 as (_ & _ & _ & _ & _ & Hict1 & Htrue1 & _).
  cbn [parser with_parser set_term set_sum is_checksum_term] in Hict1, Htrue1.
  assert (v1 = false) as ->.
  { destruct v1; [|reflexivity]. destruct (Htrue1 eq_refl) as (Hc & _).
    rewrite Hict in Hc. discriminate Hc. }
  cbn [mbind outcome_bind].
  change (parser (with_pub f g1)) with (parser g1).
  rewrite with_parser_pub, parse_term_ignores_published.
  match goal with
  | |- context [parse_term_with ?ns now ?h] =>
      destruct (parse_term_with ns now h) as [[v2 g2]|] eqn:H2; [|reflexivity]
  end.
  apply parse_term_effect in H2 as (_ & _ & _ & _ & _ & _ & Htrue2 & _).
  cbn [mbind outcome_bind]. destruct v2; [|reflexivity].
  destruct (Htrue2 eq_refl) as (_ & Hty & Hsh & _).
  cbn [parser shadow with_parser] in Hty, Hsh.
  change (parser (with_pub ?a g2)) with (parser g2).
  rewrite with_parser_pub.
  cbn [parser shadow with_parser with_pub set_term_offset set_term_number sentence_type].
  rewrite Hty, Hsh. reflexivity.
Qed.

(** [decode] on a decoder whose published members are replaced, as far as
    the model goes: an access outside the buffer is [OutOfBounds] on both
    sides. *)
Lemma decode_with_pub (c now : Z) (g : FarmGPS F) (f' : Fix F) :
  decode c now (with_pub f' g)
  = ('(v, g') ← decode c now g;
     Done (v, with_pub (if v : bool
                        then commit now (sentence_type (parser g')) (shadow g') f'
                        else f') g')).
Proof.
  assert (forall h : FarmGPS F,
             ordinary c (with_pub f' h)
             = ('(v, g') ← ordinary c h;
                Done (v, with_pub (if v : bool
                                   then commit now (sentence_type (parser g')) (shadow g') f'
                                   else f') g'))) as Hord.
  { intros h. destruct (ordinary_ignores_published c h f') as [E Hv]. rewrite E.
    destruct (ordinary c h) as [[v g']|] eqn:Eo; [|reflexivity].
    rewrite (Hv _ _ eq_refl). reflexivity. }
  unfold decode.
  change (stats (with_pub f' g)) with (stats g). rewrite with_stats_pub.
  set (h := with_stats (count_character (stats g)) g).
  change (parser (with_pub f' h)) with (parser h).
  destruct (c =? TRIMBLE_ID); [reflexivity|].
  destruct ((c =? DOLLAR) || (c =? AT_SIGN)); [reflexivity|].
  destruct ((c =? 20) || (c =? 0) || (c =? SPACE)); [reflexivity|].
  destruct (is_terminator c).
  { match goal with |- context [term_put ?a ?b ?d] => destruct (term_put a b d) as [t'|] end;
      [|reflexivity].
    cbn [mbind outcome_bind]. unfold parse_term.
    rewrite with_parser_pub, parse_term_ignores_published.
    match goal with
    | |- context [parse_term_with ?ns now ?k] =>
        destruct (parse_term_with ns now k) as [[v g1]|] eqn:H; [|reflexivity]
    end.
    apply parse_term_effect in H as (_ & _ & _ & _ & _ & _ & Htrue & _).
    cbn [mbind outcome_bind]. destruct v; [|reflexivity].
    destruct (Htrue eq_refl) as (_ & Hty & Hsh & _).
    cbn [parser shadow with_parser] in Hty, Hsh.
    change (parser (with_pub ?a g1)) with (parser g1).
    rewrite with_parser_pub.
    cbn [parser shadow with_parser with_pub set_term_offset set_term_number
         set_is_checksum_term sentence_type].
    rewrite Hty, Hsh. reflexivity. }
  destruct (c =? ETX); [|apply Hord].
  destruct (term_at (term (parser h)) (term_offset (parser h) - 1)) as [t1|];
    [|reflexivity].
  cbn [mbind outcome_bind].
  destruct ((t1 =? DLE) && negb (is_checksum_term (parser h))) eqn:Eg; [|apply Hord].
  apply andb_true_iff in Eg as [_ Eict]. apply negb_true_iff in Eict.
  apply trimble_end_ignores_published. exact Eict.
Qed.


(** X3. A call of [decode] that stays inside the term buffer reads no
    published member.  When [decode] returns on a character, it returns the
    same value on the decoder whose published members (values, timekeepers,
    usage flags) are replaced by any others, and it leaves the same parsing
    state, pending members and statistics; the published members it leaves
    are the given ones, or their [commit] when it returns true.  So a call
    of an accessor that clears a usage flag before such a call of [decode]
    changes nothing of what it does.  The call that reads before the buffer
    (the character 3 at the start of a term, or after a 16 with fewer than
    three characters buffered) is not covered: what lies before [term] in
    memory is not part of the model. *)
Theorem decode_ignores_published
    (c now : Z) (g g' : FarmGPS F) (v : bool) (f : Fix F) :
  decode c now g = Done (v, g') ->
  decode c now (with_pub f g)
  = Done (v, with_pub (if v then commit now (sentence_type (parser g')) (shadow g') f
                       else f) g')
  /\ (forall k : group,
        decode c now (got_new_data k g).2
        = Done (v, with_pub (if v
                             then commit now (sentence_type (parser g')) (shadow g')
                                         (pub (got_new_data k g).2)
                             else pub (got_new_data k g).2) g')).
Proof.
  intros H. split.
  - rewrite decode_with_pub, H. reflexivity.
  - intros k.
    assert ((got_new_data k g).2 = with_pub (pub (got_new_data k g).2) g) as Hg
      by (destruct k, g; reflexivity).
    rewrite Hg at 1. rewrite decode_with_pub, H. reflexivity.
Qed.

End WriteOnly.

Lemma decode_ignores_published_witness :
  decode 13 1000 (with_pub (pub (Exact.after (events Exact.vtg) Exact.fresh))
                           Exact.gga_before_end)
  = Done (true,
          with_pub (commit 1000
                      (sentence_type (parser (Exact.after [(13, 1000)] Exact.gga_before_end)))
                      (shadow (Exact.after [(13, 1000)] Exact.gga_before_end))
                      (pub (Exact.after (events Exact.vtg) Exact.fresh)))
                   (Exact.after [(13, 1000)] Exact.gga_before_end)).
Proof.
  eapply proj1.
  apply (decode_ignores_published 13 1000 Exact.gga_before_end
           (Exact.after [(13, 1000)] Exact.gga_before_end) true
           (pub (Exact.after (events Exact.vtg) Exact.fresh))); evaluated.
Defined.

(** ** The 16-bit sum of a binary frame *)

Lemma to_int_add (a b : Z) : to_int (to_int a + b) = to_int (a + b).
Proof.
  unfold to_int.
  replace ((a + 32768) mod 65536 - 32768 + b + 32768)
    with ((a + 32768) mod 65536 + b) by lia.
  replace (a + b + 32768) with ((a + 32768) + b) by lia.
  rewrite Zplus_mod_idemp_l. reflexivity.
Qed.

Lemma to_int_small (x : Z) : -32768 <= x <= 32767 -> to_int x = x.
Proof. intros H. unfold to_int. rewrite Z.mod_small by lia. lia. Qed.

Section FrameSum.

Context {F : Type} {FO : FloatOps F}.

(** Every case label but [191] and [3] has its [sum += byte(c)]. *)
Lemma decode_sum (c now : Z) (g g' : FarmGPS F) (v : bool) :
  decode c now g = Done (v, g') -> c <> ETX ->
  sum (parser g')
  = (if c =? TRIMBLE_ID then 0 else to_int (sum (parser g) + to_byte c)).
Proof.
  intros H Hc. unfold decode in H.
  set (h := with_stats (count_character (stats g)) g) in H.
  change (parser h) with (parser g) in H.
  destruct (c =? TRIMBLE_ID); [injection H as _ <-; reflexivity|].
  destruct ((c =? DOLLAR) || (c =? AT_SIGN)); [injection H as _ <-; reflexivity|].
  destruct ((c =? 20) || (c =? 0) || (c =? SPACE)); [injection H as _ <-; reflexivity|].
  destruct (is_terminator c).
  - apply bind_Done in H as (t' & _ & H).
    apply bind_Done in H as ([v1 g1] & Hp & H). injection H as _ <-.
    apply parse_term_effect in Hp as (_ & _ & _ & _ & Hs & _).
    cbn [parser with_parser sum set_is_checksum_term set_term_offset set_term_number
         set_term set_sum] in *.
    rewrite Hs. destruct (c =? COMMA); reflexivity.
  - assert ((c =? ETX) = false) as E by (apply Z.eqb_neq; exact Hc).
    rewrite E in H. unfold ordinary in H.
    apply bind_Done in H as (p1 & Hp1 & H). injection H as _ <-.
    assert (sum p1 = sum (parser g)) as Hs.
    { change (parser h) with (parser g) in Hp1.
      destruct (term_offset (parser g) <? sizeof_term - 1).
      - apply bind_Done in Hp1 as (t' & _ & Hp1). injection Hp1 as <-. reflexivity.
      - injection Hp1 as <-. reflexivity. }
    cbn [parser with_parser sum set_sum].
    destruct (is_checksum_term p1); cbn [sum set_parity]; rewrite Hs; reflexivity.
Qed.

Lemma feed_sum (evs : list (Z * Z)) (g g' : FarmGPS F) (vs : list bool) :
  forallb plain_byte evs.*1 = true ->
  feed evs g = Done (vs, g') ->
  -32768 <= sum (parser g) <= 32767 ->
  sum (parser g') = to_int (sum (parser g) + byte_sum evs.*1).
Proof.
  revert g vs. induction evs as [|[c n] evs IH]; intros g vs Hall H Hr.
  - injection H as _ <-. cbn [fmap list_fmap byte_sum]. rewrite Z.add_0_r.
    symmetry. apply to_int_small. exact Hr.
  - cbn [fmap list_fmap fst forallb byte_sum] in *.
    apply andb_true_iff in Hall as [Hc Hall].
    cbn [feed] in H.
    apply bind_Done in H as ([v g1] & Hd & H).
    apply bind_Done in H as ([vs1 g2] & Hf & H). injection H as _ <-.
    unfold plain_byte in Hc. apply andb_true_iff in Hc as [H191 H3].
    apply negb_true_iff in H191, H3.
    pose proof (decode_sum c n g g1 v Hd ltac:(apply Z.eqb_neq; exact H3)) as Hs.
    rewrite H191 in Hs.
    rewrite (IH g1 vs1 Hall Hf) by (rewrite Hs; apply to_int_range).
    rewrite Hs, to_int_add. f_equal. lia.
Qed.

(** A stream without the character 3 is decoded to its end. *)
Lemma feed_without_etx (evs : list (Z * Z)) (g : FarmGPS F) :
  length (term (parser g)) = 20%nat -> 0 <= term_offset (parser g) <= 19 ->
  ETX ∉ evs.*1 -> exists vs g', feed evs g = Done (vs, g').
Proof.
  revert g. induction evs as [|[c0 n0] evs IH]; intros g Hlen Hoff Hn.
  - eexists _, _. reflexivity.
  - cbn [fmap list_fmap fst] in Hn. apply not_elem_of_cons in Hn as [Hc Hn].
    destruct (decode_total c0 n0 g Hlen Hoff ltac:(congruence)) as (v & g1 & Hd).
    pose proof (decode_effect _ _ _ _ _ Hd) as (Hl & Ho & _).
    destruct (IH g1 ltac:(congruence) (Ho Hoff) Hn) as (vs & g2 & Hf).
    exists (v :: vs), g2. exact (feed_cons_done _ _ _ _ _ _ _ _ Hd Hf).
Qed.

Lemma plain_bytes_without_etx (l : list Z) :
  forallb plain_byte l = true -> ETX ∉ l.
Proof.
  induction l as [|c l IH]; cbn [forallb]; [intros _; apply not_elem_of_nil|].
  intros H. apply andb_true_iff in H as [Hc H].
  apply not_elem_of_cons. split; [|exact (IH H)].
  intros <-. discriminate Hc.
Qed.

Lemma signed_chars_plain (l : list Z) :
  forallb signed_char l = true -> ETX ∉ l -> forallb plain_byte l = true.
Proof.
  induction l as [|c l IH]; [reflexivity|]. cbn [forallb]. intros H Hn.
  apply andb_true_iff in H as [Hc H]. apply not_elem_of_cons in Hn as [Hc3 Hn].
  rewrite (IH H Hn), andb_true_r.
  unfold signed_char in Hc. apply andb_true_iff in Hc as [_ Hc]. apply Z.leb_le in Hc.
  unfold plain_byte, TRIMBLE_ID.
  assert ((c =? 191) = false) as -> by (apply Z.eqb_neq; lia).
  assert ((c =? ETX) = false) as -> by (apply Z.eqb_neq; congruence).
  reflexivity.
Qed.

(** X6. With [char] signed, as on the 8-bit boards, every character but 3
    is added to [sum] as a byte: the constructor sets [sum] to 0 and no such
    character resets it.  From a state whose buffer has its 20 bytes, after any run
    of characters of -128..127 other than 3 -- start markers, ignored
    characters, terminators and ordinary characters alike, stored in the
    term buffer or not -- [decode] has returned on each and [sum] is the sum
    it had plus these characters taken as bytes, reduced to a two's
    complement [int] of 16 bits.  The frame id of the binary protocol is no
    exception: the byte 0xBF is the character -65 there, which no case
    label matches; it is an ordinary character and adds 191 to [sum]. *)
Theorem sum_counts_every_byte (g : FarmGPS F) (evs : list (Z * Z)) :
  length (term (parser g)) = 20%nat ->
  0 <= term_offset (parser g) <= 19 ->
  -32768 <= sum (parser g) <= 32767 ->
  forallb signed_char evs.*1 = true ->
  ETX ∉ evs.*1 ->
  (exists vs g',
      feed evs g = Done (vs, g')
      /\ sum (parser g') = to_int (sum (parser g) + byte_sum evs.*1))
  /\ signed_char (-65) = true
  /\ to_byte (-65) = 191
  /\ (forall (now : Z) (h : FarmGPS F),
         decode (-65) now h = ordinary (-65) (with_stats (count_character (stats h)) h))
  /\ (forall mem : FarmGPS F, sum (parser (FarmGPS_ctor mem)) = 0).
Proof.
  intros Hlen Hoff Hsum Hall Hn.
  split; [|split; [reflexivity|split; [reflexivity|split; [|reflexivity]]]].
  - destruct (feed_without_etx evs g Hlen Hoff Hn) as (vs & g' & Hf).
    exists vs, g'. split; [exact Hf|].
    exact (feed_sum evs g g' vs (signed_chars_plain _ Hall Hn) Hf Hsum).
  - intros now h. apply decode_default. reflexivity.
Qed.

End FrameSum.

Lemma sum_counts_every_byte_witness :
  exists vs g',
    feed ((-65, 5) :: Exact.trimble_frame) Exact.fresh = Done (vs, g')
    /\ sum (parser g')
       = to_int (sum (parser Exact.fresh) + byte_sum ((-65, 5) :: Exact.trimble_frame).*1).
Proof.
  eapply proj1.
  apply (sum_counts_every_byte Exact.fresh ((-65, 5) :: Exact.trimble_frame));
    first [evaluated | vm_compute; split; discriminate].
Defined.

(** ** Where [decode] leaves the buffer *)

Section Bounds.

Context {F : Type} {FO : FloatOps F}.

(** With three characters or more in the term, the body of [case 3:] stays
    inside the buffer. *)
Lemma trimble_end_total (now t1 : Z) (g : FarmGPS F) :
  length (term (parser g)) = 20%nat -> 3 <= term_offset (parser g) <= 19 ->
  exists v g', trimble_end now t1 g = Done (v, g').
Proof.
  intros Hlen Hoff. unfold trimble_end.
  destruct (term_at_inside (term (parser g)) (term_offset (parser g) - 2) ltac:(lia))
    as (t2 & -> & _).
  destruct (term_at_inside (term (parser g)) (term_offset (parser g) - 3) ltac:(lia))
    as (t3 & -> & _).
  cbn [mbind outcome_bind].
  match goal with |- context [if ?b then _ else _] => destruct b end.
  2:{ cbn [mbind outcome_bind]. eexists _, _. reflexivity. }
  cbn [term term_offset set_sum].
  rewrite term_put_inside by lia. cbn [mbind outcome_bind].
  match goal with
  | |- context [parse_term now ?h] =>
      destruct (parse_term_total GPS_NO_STATS now h) as (v1 & g1 & H1)
  end.
  { cbn [parser with_parser term set_term]. rewrite length_insert. exact Hlen. }
  { cbn [parser with_parser term set_term].
    apply list_elem_of_lookup. exists (Z.to_nat (term_offset (parser g) - 3)).
    apply list_lookup_insert_eq. lia. }
  unfold parse_term. rewrite H1. cbn [mbind outcome_bind].
  apply parse_term_effect in H1 as (Ht & _).
  cbn [parser with_parser term set_term] in Ht.
  match goal with
  | |- context [parse_term_with ?ns now ?h] =>
      destruct (parse_term_total ns now h) as (v2 & g2 & H2)
  end.
  { cbn [parser with_parser term set_is_checksum_term]. rewrite Ht, length_insert.
    exact Hlen. }
  { cbn [parser with_parser term set_is_checksum_term]. rewrite Ht.
    apply list_elem_of_lookup. exists (Z.to_nat (term_offset (parser g) - 3)).
    apply list_lookup_insert_eq. lia. }
  rewrite H2. cbn [mbind outcome_bind]. eexists _, _. reflexivity.
Qed.

(** X4. The one access outside the term buffer.  In a state whose buffer has
    its 20 bytes and whose write cursor is within 0..19 (every state reached
    from the constructor), [decode] leaves the buffer exactly on the
    character 3 when the term is empty, or when one or two characters are
    buffered, the last of them is 16 and the decoder is not in a checksum
    term.  A stream without the character 3 is decoded to its end. *)
Theorem decode_out_of_bounds_iff (c now : Z) (g : FarmGPS F) :
  length (term (parser g)) = 20%nat -> 0 <= term_offset (parser g) <= 19 ->
  (decode c now g = OutOfBounds
   <-> c = ETX
       /\ (term_offset (parser g) = 0
           \/ (term_offset (parser g) <= 2
               /\ term_at (term (parser g)) (term_offset (parser g) - 1) = Done DLE
               /\ is_checksum_term (parser g) = false)))
  /\ (forall evs : list (Z * Z),
         ETX ∉ evs.*1 -> exists vs g', feed evs g = Done (vs, g')).
Proof.
  intros Hlen Hoff. split.
  - destruct (Z.eq_dec c ETX) as [->|Hc].
    2:{ destruct (decode_total c now g Hlen Hoff Hc) as (v & g' & ->).
        split; [discriminate|]. intros [H _]. contradiction. }
    destruct (Z.eq_dec (term_offset (parser g)) 0) as [H0|H0].
    { rewrite (etx_at_term_start now g H0). split; auto. }
    rewrite decode_etx. cbn zeta.
    change (parser (with_stats (count_character (stats g)) g)) with (parser g).
    destruct (term_at_inside (term (parser g)) (term_offset (parser g) - 1) ltac:(lia))
      as (x & Hx & _).
    rewrite Hx. cbn [mbind outcome_bind].
    destruct ((x =? DLE) && negb (is_checksum_term (parser g))) eqn:Eg.
    + apply andb_true_iff in Eg as [Ex Ei]. apply Z.eqb_eq in Ex. subst x.
      apply negb_true_iff in Ei.
      destruct (Z_le_gt_dec (term_offset (parser g)) 2) as [H2|H2].
      * split; [intros _; split; [reflexivity|]; right; auto|]. intros _.
        unfold trimble_end.
        change (parser (with_stats (count_character (stats g)) g)) with (parser g).
        destruct (Z.eq_dec (term_offset (parser g)) 1) as [E1|E1].
        -- rewrite (term_at_negative _ (term_offset (parser g) - 2)) by lia. reflexivity.
        -- destruct (term_at (term (parser g)) (term_offset (parser g) - 2));
             [|reflexivity].
           cbn [mbind outcome_bind].
           rewrite (term_at_negative _ (term_offset (parser g) - 3)) by lia. reflexivity.
      * destruct (trimble_end_total now DLE (with_stats (count_character (stats g)) g))
          as (v & g' & ->); [exact Hlen | cbn [parser with_stats]; lia |].
        split; [discriminate|]. intros [_ [H|[H _]]]; lia.
    + destruct (ordinary_total ETX (with_stats (count_character (stats g)) g) Hlen Hoff)
        as (g' & ->).
      split; [discriminate|]. intros [_ [H|(_ & H & Hi)]]; [contradiction|].
      injection H as ->. rewrite Hi in Eg. discriminate Eg.
  - intros evs Hn. exact (feed_without_etx evs g Hlen Hoff Hn).
Qed.

End Bounds.

Lemma decode_out_of_bounds_iff_witness :
  decode ETX 0 Exact.fresh = OutOfBounds.
Proof.
  destruct (decode_out_of_bounds_iff ETX 0 Exact.fresh) as [[_ H] _];
    [evaluated | evaluated |].
  apply H. split; [reflexivity|]. left. evaluated.
Defined.

(** ** When [decode] returns true *)

Section ReturnsTrue.

Context {F : Type} {FO : FloatOps F}.

(** X5. [decode] returns true only on a terminator that closes a checksum
    term and on the character 3 that closes a binary frame (outside a
    checksum term, after a buffered 16); never on a frame id, a start
    marker, an ignored or an ordinary character.  When it returns true the
    expected checksum equals the accumulator, the term is closed and the
    term counter has advanced. *)
Theorem decode_true_only_on_checksum (c now : Z) (g g' : FarmGPS F) :
  decode c now g = Done (true, g') ->
  ((is_terminator c = true /\ is_checksum_term (parser g) = true)
   \/ (c = ETX /\ is_checksum_term (parser g) = false
       /\ term_at (term (parser g)) (term_offset (parser g) - 1) = Done DLE))
  /\ checksum (parser g') = parity (parser g')
  /\ term_offset (parser g') = 0
  /\ term_number (parser g') = to_byte (term_number (parser g) + 1)
  /\ is_checksum_term (parser g') = ((c =? ETX) || (c =? STAR)).
Proof.
  unfold decode.
  set (h := with_stats (count_character (stats g)) g).
  change (parser h) with (parser g).
  destruct (c =? TRIMBLE_ID) eqn:E1; [discriminate|].
  destruct ((c =? DOLLAR) || (c =? AT_SIGN)) eqn:E2; [discriminate|].
  destruct ((c =? 20) || (c =? 0) || (c =? SPACE)) eqn:E3; [discriminate|].
  destruct (is_terminator c) eqn:E4.
  - intros H. apply bind_Done in H as (t' & _ & H).
    apply bind_Done in H as ([v g1] & Hp & H). injection H as -> <-.
    apply parse_term_effect in Hp as (_ & Hn & _ & Hpar & _ & _ & Htrue & _).
    destruct (Htrue eq_refl) as (Hict & _ & _ & _ & Hck & _).
    cbn [parser with_parser term_number parity checksum term_offset is_checksum_term
         set_is_checksum_term set_term_offset set_term_number set_term set_sum] in *.
    assert (c <> ETX) as Hne.
    { intros ->. discriminate E4. }
    apply Z.eqb_neq in Hne. rewrite Hne.
    split; [left; split; [reflexivity|]|].
    { destruct (c =? COMMA); exact Hict. }
    rewrite Hck, Hpar, Hn.
    destruct (c =? COMMA); cbn [term_number parity set_parity]; auto.
  - destruct (c =? ETX) eqn:E5.
    2:{ intros H. apply ordinary_effect in H as (H & _). discriminate H. }
    apply Z.eqb_eq in E5. subst c.
    intros H. apply bind_Done in H as (t1 & Ht1 & H).
    destruct ((t1 =? DLE) && negb (is_checksum_term (parser g))) eqn:Eg.
    2:{ apply ordinary_effect in H as (H & _). discriminate H. }
    apply andb_true_iff in Eg as [Ex Ei]. apply Z.eqb_eq in Ex. subst t1.
    apply negb_true_iff in Ei.
    split; [right; auto|].
    unfold trimble_end in H. change (parser h) with (parser g) in H.
    apply bind_Done in H as (t2 & _ & H).
    apply bind_Done in H as (t3 & _ & H).
    apply bind_Done in H as ([v gb] & Hb & H). injection H as -> <-.
    match type of Hb with (if ?b then _ else _) = _ => destruct b end;
      [|discriminate Hb].
    apply bind_Done in Hb as (t' & _ & Hb).
    apply bind_Done in Hb as ([v1 ga] & Ha & Hb).
    apply parse_term_effect in Ha as (_ & Hna & _).
    apply parse_term_effect in Hb as (_ & Hnb & _ & Hpar & _ & Hib & Htrue & _).
    destruct (Htrue eq_refl) as (_ & _ & _ & _ & Hck & _).
    cbn [parser with_parser term_number parity checksum term_offset is_checksum_term
         set_is_checksum_term set_term_offset set_term_number set_term set_sum] in *.
    rewrite Hck, Hpar, Hnb, Hna, Hib. auto.
Qed.

End ReturnsTrue.

Lemma decode_true_only_on_checksum_witness :
  (is_terminator 13 = true /\ is_checksum_term (parser Exact.gga_before_end) = true)
  \/ (13 = ETX /\ is_checksum_term (parser Exact.gga_before_end) = false
      /\ term_at (term (parser Exact.gga_before_end))
                 (term_offset (parser Exact.gga_before_end) - 1) = Done DLE).
Proof.
  eapply proj1.
  apply (decode_true_only_on_checksum 13 1000 Exact.gga_before_end
           (Exact.after [(13, 1000)] Exact.gga_before_end)); evaluated.
Defined.

(** ** Binary frames *)

Lemma stored_app (a b : list Z) : stored (a ++ b) = stored a ++ stored b.
Proof.
  induction a as [|c a IH]; [reflexivity|]. cbn [app stored].
  destruct (is_ignored c); [exact IH|]. rewrite IH. reflexivity.
Qed.

Lemma stored_default (l : list Z) : forallb default_label l = true -> stored l = l.
Proof.
  induction l as [|c l IH]; [reflexivity|]. cbn [forallb stored].
  intros H. apply andb_true_iff in H as [Hc H].
  assert (is_ignored c = false) as ->.
  { unfold default_label in Hc. destruct (is_ignored c); [|reflexivity].
    rewrite andb_false_r in Hc. discriminate Hc. }
  rewrite (IH H). reflexivity.
Qed.

Lemma default_label_field (c : Z) : default_label c = true -> field_byte c = true.
Proof.
  unfold default_label, field_byte. intros H.
  destruct (c =? TRIMBLE_ID), (is_start c), (is_ignored c), (is_terminator c), (c =? ETX);
    try discriminate H; reflexivity.
Qed.

Lemma field_byte_plain (c : Z) : field_byte c = true -> plain_byte c = true.
Proof.
  unfold plain_byte, field_byte. intros H.
  destruct (c =? TRIMBLE_ID), (is_start c), (is_terminator c), (c =? ETX);
    try discriminate H; reflexivity.
Qed.

Lemma terminator_plain (c : Z) : is_terminator c = true -> plain_byte c = true.
Proof.
  unfold plain_byte, is_terminator, TRIMBLE_ID, ETX, COMMA, COLON, STAR, CR, LF.
  intros H. repeat (apply orb_true_iff in H as [H|H]); apply Z.eqb_eq in H; subst c;
    reflexivity.
Qed.

Lemma forallb_field_plain (l : list Z) :
  forallb field_byte l = true -> forallb plain_byte l = true.
Proof.
  induction l as [|c l IH]; [reflexivity|]. cbn [forallb]. intros H.
  apply andb_true_iff in H as [Hc H]. rewrite (field_byte_plain c Hc), (IH H). reflexivity.
Qed.

Lemma byte_sum_app (a b : list Z) : byte_sum (a ++ b) = byte_sum a + byte_sum b.
Proof. induction a as [|c a IH]; cbn [app byte_sum]; [lia|]. rewrite IH. lia. Qed.

Lemma quiet_frame (a b : nat) :
  (replicate a false ++ false :: replicate (b + 3) false) ++ [true]
  = replicate (a + b + 4) false ++ [true].
Proof.
  replace (a + b + 4)%nat with (a + S (b + 3))%nat by lia.
  rewrite (replicate_add a (S (b + 3))). reflexivity.
Qed.

Section BinaryFrame.

Context {F : Type} {FO : FloatOps F}.

(** The character 3 after a term [w] and the trailer [hi], [lo], 16, in term
    1 of a sentence of type XTE2, when the sum matches. *)
Lemma frame_end (now : Z) (g : FarmGPS F) (w : list Z) (hi lo : Z) :
  in_term g (w ++ [hi; lo; DLE]) ->
  term_number (parser g) = 1 ->
  sentence_type (parser g) = XTE2 ->
  to_int (to_int (to_int (sum (parser g) - to_byte DLE) - to_byte lo) - to_byte hi)
  = to_int (256 * to_byte hi + to_byte lo) ->
  exists g',
    decode ETX now g = Done (true, g')
    /\ pub g' = commit now XTE2 (shadow g') (pub g)
    /\ shadow g' = (if bool_decide (w = []) then shadow g
                    else set_new_xte (parse_decimal w) (shadow g))
    /\ is_checksum_term (parser g') = true
    /\ sentence_type (parser g') = XTE2
    /\ term_offset (parser g') = 0
    /\ length (term (parser g')) = 20%nat.
Proof.
  intros (Hlen & Hoff & Htake & Hz & Hw & Hict & Hpar) Hn Hty Hsum.
  destruct g as [f sh p st]. destruct p as [t n off par ck sm ict ty].
  cbn [parser term term_number term_offset parity checksum sum is_checksum_term
       sentence_type pub shadow] in *.
  subst n ty ict.
  rewrite length_app in Hoff, Htake, Hw. cbn [length] in Hoff, Htake, Hw.
  assert (exists r, t = w ++ hi :: lo :: DLE :: r) as [r Ht].
  { exists (drop (length w + 3) t).
    rewrite <- (take_drop (length w + 3) t) at 1. rewrite Htake, <- app_assoc.
    reflexivity. }
  assert (length (hi :: lo :: DLE :: r) = (20 - length w)%nat) as Hr.
  { apply (f_equal length) in Ht. rewrite length_app, Hlen in Ht. lia. }
  clear Htake. subst t off.
  rewrite decode_etx. cbn zeta.
  cbn [parser with_stats term term_offset is_checksum_term stats].
  replace (Z.of_nat (length w + 3) - 1) with (Z.of_nat (length w) + 2) by lia.
  rewrite (term_at_app w (hi :: lo :: DLE :: r) 2) by lia.
  change (term_at (hi :: lo :: DLE :: r) 2) with (@Done Z DLE).
  cbn [mbind outcome_bind]. rewrite Z.eqb_refl. cbn [andb negb].
  unfold trimble_end. record_simpl.
  replace (Z.of_nat (length w + 3) - 2) with (Z.of_nat (length w) + 1) by lia.
  replace (Z.of_nat (length w + 3) - 3) with (Z.of_nat (length w) + 0) by lia.
  rewrite (term_at_app w (hi :: lo :: DLE :: r) 1) by lia.
  rewrite (term_at_app w (hi :: lo :: DLE :: r) 0) by lia.
  change (term_at (hi :: lo :: DLE :: r) 1) with (@Done Z lo).
  change (term_at (hi :: lo :: DLE :: r) 0) with (@Done Z hi).
  cbn [mbind outcome_bind].
  rewrite trailer_test by apply to_int_range.
  rewrite Hsum, Z.eqb_refl.
  rewrite (term_put_app w (hi :: lo :: DLE :: r) 0 0) by (cbn [length]; lia).
  change (<[Z.to_nat 0 := 0]> (hi :: lo :: DLE :: r)) with (0 :: lo :: DLE :: r).
  cbn [mbind outcome_bind]. unfold parse_term, parse_term_with.
  cbn [parser with_parser term term_number is_checksum_term sentence_type set_term
       set_sum shadow].
  change (1 =? 0) with false. cbv iota.
  apply not_elem_of_app in Hz as [Hzw _].
  destruct w as [|c w].
  - change (term_at ([] ++ 0 :: lo :: DLE :: r) 0) with (@Done Z 0).
    cbn [mbind outcome_bind]. rewrite Z.eqb_refl.
    record_simpl. cbn [types_eqb]. record_simpl. rewrite Z.eqb_refl.
    eexists. split; [reflexivity|]. record_simpl.
    rewrite bool_decide_eq_true_2 by reflexivity.
    repeat split. cbn [app length] in *. lia.
  - change (term_at ((c :: w) ++ 0 :: lo :: DLE :: r) 0) with (@Done Z c).
    cbn [mbind outcome_bind].
    apply not_elem_of_cons in Hzw as Hc.
    assert ((c =? 0) = false) as -> by (apply Z.eqb_neq; intros ->; tauto).
    unfold extract. change (1 =? 1) with true. cbv iota.
    rewrite (c_str_prefix (c :: w) (lo :: DLE :: r) Hzw).
    record_simpl. cbn [types_eqb]. record_simpl. rewrite Z.eqb_refl.
    eexists. split; [reflexivity|]. record_simpl.
    rewrite bool_decide_eq_false_2 by discriminate.
    repeat split. rewrite length_app. cbn [length] in *. lia.
Qed.

Lemma to_int_sub (a b : Z) : to_int (to_int a - b) = to_int (a - b).
Proof. exact (to_int_add a (- b)). Qed.

Lemma to_int_sub3 (x a b c : Z) :
  to_int (to_int (to_int (to_int x - a) - b) - c) = to_int (x - a - b - c).
Proof.
  rewrite to_int_sub.
  replace (to_int (to_int x - a) - b - c) with (to_int (to_int x - a) - (b + c)) by lia.
  rewrite to_int_sub.
  replace (to_int x - a - (b + c)) with (to_int x - (a + b + c)) by lia.
  rewrite to_int_sub. f_equal. lia.
Qed.

(** A whole binary frame of type XTE2, received at the start of a first
    term. *)
Lemma frame_run
    (g : FarmGPS F) (td now : Z) (name field : list (Z * Z)) (sep hi lo : Z * Z) :
  length (term (parser g)) = 20%nat ->
  term_offset (parser g) = 0 ->
  term_number (parser g) = 0 ->
  is_checksum_term (parser g) = false ->
  0 <= parity (parser g) < 256 ->
  -32768 <= sum (parser g) <= 32767 ->
  name.*1 = chars "ROXTE" ->
  is_terminator sep.1 = true -> sep.1 <> STAR ->
  forallb field_byte field.*1 = true ->
  (length (stored field.*1) <= 16)%nat ->
  default_label hi.1 = true -> default_label lo.1 = true ->
  to_int (sum (parser g) + byte_sum (name.*1 ++ sep.1 :: field.*1))
  = to_int (256 * to_byte hi.1 + to_byte lo.1) ->
  exists g',
    feed (name ++ sep :: field ++ [hi; lo; (DLE, td); (ETX, now)]) g
    = Done (replicate (length name + length field + 4) false ++ [true], g')
    /\ pub g' = commit now XTE2 (shadow g') (pub g)
    /\ shadow g' = (if bool_decide (stored field.*1 = []) then shadow g
                    else set_new_xte (parse_decimal (stored field.*1)) (shadow g))
    /\ is_checksum_term (parser g') = true
    /\ sentence_type (parser g') = XTE2
    /\ term_offset (parser g') = 0
    /\ length (term (parser g')) = 20%nat.
Proof.
  intros Hlen Hoff0 Htn0 Hict Hpar Hsumr Hname Hsep Hstar Hfield Hroom Hhi Hlo Hsum.
  set (g1 := g).
  assert (in_term g1 []) as Hin1.
  { unfold in_term, g1. cbn [length].
    split; [exact Hlen|]. split; [exact Hoff0|]. split; [apply take_0|].
    split; [apply not_elem_of_nil|]. split; [lia|]. split; [exact Hict | exact Hpar]. }
  assert (forallb field_byte name.*1 = true) as Hnf by (rewrite Hname; reflexivity).
  destruct (feed_field name g1 [] Hin1 Hnf)
    as (g2 & Hf2 & Hin2 & Hp2 & Hs2 & Hn2 & _ & _).
  rewrite Hname in Hin2.
  change (take 19 ([] ++ stored (chars "ROXTE"))) with (chars "ROXTE") in Hin2.
  destruct (step_separator sep.1 sep.2 g2 (chars "ROXTE") Hin2 Hsep Hstar)
    as (g3 & Hd3 & Hin3 & Hp3 & Hn3 & _ & Hty3 & _).
  unfold g1 in Hn2. rewrite Htn0 in Hn2.
  destruct (Hty3 Hn2) as [Hty Hs3]. rewrite Hn2 in Hn3.
  change (to_byte (0 + 1)) with 1 in Hn3.
  assert (type_of_token (chars "ROXTE") = XTE2) as Htok by (vm_compute; reflexivity).
  rewrite Htok in Hty.
  set (tail := field ++ [hi; lo; (DLE, td)]).
  assert (tail.*1 = field.*1 ++ [hi.1; lo.1; DLE]) as Htail
    by (unfold tail; rewrite fmap_app; reflexivity).
  assert (forallb field_byte tail.*1 = true) as Htf.
  { rewrite Htail, forallb_app, Hfield. cbn [forallb andb].
    rewrite (default_label_field _ Hhi), (default_label_field _ Hlo). reflexivity. }
  destruct (feed_field tail g3 [] Hin3 Htf)
    as (g4 & Hf4 & Hin4 & Hp4 & Hs4 & Hn4 & Hty4 & _).
  rewrite Htail, app_nil_l, stored_app in Hin4.
  rewrite (stored_default [hi.1; lo.1; DLE]) in Hin4
    by (cbn [forallb]; rewrite Hhi, Hlo; reflexivity).
  rewrite take_ge in Hin4 by (rewrite length_app; cbn [length]; lia).
  (* the sum of the frame *)
  assert (feed (name ++ sep :: tail) g1
          = Done (replicate (length name) false ++ false :: replicate (length tail) false, g4))
    as Hrun.
  { eapply feed_app_done; [exact Hf2|].
    destruct sep as [cs ts]. eapply feed_cons_done; [exact Hd3 | exact Hf4]. }
  assert (forallb plain_byte (name ++ sep :: tail).*1 = true) as Hplain.
  { rewrite fmap_app, fmap_cons, forallb_app. cbn [forallb].
    rewrite (forallb_field_plain _ Hnf), (forallb_field_plain _ Htf),
      (terminator_plain _ Hsep). reflexivity. }
  pose proof (feed_sum _ _ _ _ Hplain Hrun Hsumr) as Hsum4.
  unfold g1 in Hsum4.
  assert (to_int (to_int (to_int (sum (parser g4) - to_byte DLE) - to_byte lo.1)
                  - to_byte hi.1)
          = to_int (256 * to_byte hi.1 + to_byte lo.1)) as Htest.
  { rewrite Hsum4, to_int_sub3, <- Hsum.
    f_equal. rewrite fmap_app, fmap_cons, Htail.
    rewrite !byte_sum_app. cbn [byte_sum]. rewrite !byte_sum_app. cbn [byte_sum]. lia. }
  destruct (frame_end now g4 (stored field.*1) hi.1 lo.1 Hin4
              ltac:(congruence) ltac:(congruence) Htest)
    as (g5 & Hd5 & Hp5 & Hs5 & Hi5 & Hty5 & Ho5 & Hl5).
  exists g5. split.
  - replace (name ++ sep :: field ++ [hi; lo; (DLE, td); (ETX, now)])
      with ((name ++ sep :: tail) ++ [(ETX, now)]).
    2:{ unfold tail. rewrite <- !app_assoc. cbn [app]. rewrite <- !app_assoc. reflexivity. }
    replace (replicate (length name + length field + 4) false ++ [true])
      with ((replicate (length name) false ++ false :: replicate (length tail) false)
              ++ [true]).
    2:{ unfold tail. rewrite length_app. cbn [length]. apply quiet_frame. }
    eapply feed_app_done; [exact Hrun|].
    cbn [feed]. rewrite Hd5. reflexivity.
  - rewrite Hp5, Hs5, Hs4, Hs3, Hs2, Hp4, Hp3, Hp2.
    repeat split; auto.
Qed.


(** X7. A binary frame is accepted on its 16-bit sum.  At the start of a
    first term outside a checksum term -- the state the constructor leaves,
    where [sum] is 0 -- the characters "ROXTE", a separator, a field of at
    most 16 stored characters, two ordinary characters [hi] and [lo], 16 and
    3 are accepted when [256 * hi + lo] is, as a 16-bit integer, [sum] as it
    was plus the sum of the characters before [hi]: [decode] returns false
    up to the character 3 and true on it, the cross-track error published
    is the value of the field (the pending one if the field is empty), its
    timekeeper is the instant of the character 3 and its usage flag is set.
    The decoder is left in a checksum term.  No frame id takes part: with
    [char] signed the byte 0xBF never reaches [case 191]. *)
Theorem binary_frame_accepted
    (g : FarmGPS F) (td now : Z) (name field : list (Z * Z)) (sep hi lo : Z * Z) :
  length (term (parser g)) = 20%nat ->
  term_offset (parser g) = 0 ->
  term_number (parser g) = 0 ->
  is_checksum_term (parser g) = false ->
  0 <= parity (parser g) < 256 ->
  -32768 <= sum (parser g) <= 32767 ->
  name.*1 = chars "ROXTE" ->
  is_terminator sep.1 = true -> sep.1 <> STAR ->
  forallb field_byte field.*1 = true ->
  (length (stored field.*1) <= 16)%nat ->
  default_label hi.1 = true -> default_label lo.1 = true ->
  to_int (sum (parser g) + byte_sum (name.*1 ++ sep.1 :: field.*1))
  = to_int (256 * to_byte hi.1 + to_byte lo.1) ->
  exists g',
    feed (name ++ sep :: field ++ [hi; lo; (DLE, td); (ETX, now)]) g
    = Done (replicate (length name + length field + 4) false ++ [true], g')
    /\ XTE_members (pub g')
       = (if bool_decide (stored field.*1 = []) then new_xte (shadow g)
          else parse_decimal (stored field.*1), now, true)
    /\ GGA_members (pub g') = GGA_members (pub g)
    /\ VTG_members (pub g') = VTG_members (pub g)
    /\ is_checksum_term (parser g') = true.
Proof.
  intros Hlen Hoff Htn Hict Hpar Hsumr Hname Hsep Hstar Hfield Hroom Hhi Hlo Hsum.
  destruct (frame_run g td now name field sep hi lo
              Hlen Hoff Htn Hict Hpar Hsumr Hname Hsep Hstar Hfield Hroom Hhi Hlo Hsum)
    as (g' & Hf & Hp & Hs & Hi & _).
  exists g'. split; [exact Hf|]. rewrite Hp, Hs.
  split; [|split; [|split]]; try reflexivity; try exact Hi.
  destruct (bool_decide (stored field.*1 = [])); reflexivity.
Qed.

End BinaryFrame.

Lemma binary_frame_accepted_witness :
  exists g',
    feed (Exact.text "ROXTE" 5 ++ (44, 5) :: Exact.text "1.5" 5
            ++ [(2, 5); (82, 5); (DLE, 5); (ETX, 7)]) Exact.fresh
    = Done (replicate (length (Exact.text "ROXTE" 5) + length (Exact.text "1.5" 5) + 4) false
              ++ [true], g')
    /\ XTE_members (pub g')
       = (if bool_decide (stored (Exact.text "1.5" 5).*1 = [])
          then new_xte (shadow Exact.fresh)
          else parse_decimal (stored (Exact.text "1.5" 5).*1), 7, true)
    /\ GGA_members (pub g') = GGA_members (pub Exact.fresh)
    /\ VTG_members (pub g') = VTG_members (pub Exact.fresh)
    /\ is_checksum_term (parser g') = true.
Proof.
  apply (binary_frame_accepted Exact.fresh 5 7 (Exact.text "ROXTE" 5)
           (Exact.text "1.5" 5) (44, 5) (2, 5) (82, 5));
    first [evaluated | vm_compute; lia | vm_compute; split; discriminate
          | vm_compute; split; [discriminate|reflexivity]].
Defined.

(** ** After a binary frame *)

Section AfterFrame.

Context {F : Type} {FO : FloatOps F}.

(** Inside a checksum term, the characters of a term change neither
    [is_checksum_term] nor the sentence type. *)
Lemma checksum_term_run (evs : list (Z * Z)) (g : FarmGPS F) :
  length (term (parser g)) = 20%nat -> 0 <= term_offset (parser g) <= 19 ->
  is_checksum_term (parser g) = true ->
  forallb field_byte evs.*1 = true ->
  exists g',
    feed evs g = Done (replicate (length evs) false, g')
    /\ pub g' = pub g /\ shadow g' = shadow g
    /\ length (term (parser g')) = 20%nat
    /\ 0 <= term_offset (parser g') <= 19
    /\ is_checksum_term (parser g') = true
    /\ sentence_type (parser g') = sentence_type (parser g).
Proof.
  revert g. induction evs as [|[c n] evs IH]; intros g Hlen Hoff Hict Hall.
  - exists g. repeat split; auto; lia.
  - cbn [fmap list_fmap fst forallb] in Hall.
    apply andb_true_iff in Hall as [Hc Hall].
    destruct (step_checksum_char c n g Hlen Hoff Hict Hc)
      as (g1 & Hd & Hp & Hs & Hl & Ho & Hi & _ & Ht).
    destruct (IH g1 Hl Ho Hi Hall) as (g2 & Hf & Hp2 & Hs2 & Hl2 & Ho2 & Hi2 & Ht2).
    exists g2. split; [exact (feed_cons_done _ _ _ _ _ _ _ _ Hd Hf)|].
    repeat split; try congruence; lia.
Qed.

(** A terminator inside a checksum term of a sentence of type XTE2. *)
Lemma xte2_checksum_terminator (c now : Z) (g : FarmGPS F) :
  length (term (parser g)) = 20%nat -> 0 <= term_offset (parser g) <= 19 ->
  is_checksum_term (parser g) = true ->
  sentence_type (parser g) = XTE2 ->
  is_terminator c = true ->
  exists g',
    decode c now g = Done (true, g')
    /\ pub g' = commit now XTE2 (shadow g) (pub g)
    /\ shadow g' = shadow g.
Proof.
  intros Hlen Hoff Hict Hty Hc. rewrite (decode_terminator c now g Hc).
  destruct g as [f sh p st]. destruct p as [t n off par ck sm ict ty].
  cbn [parser term term_offset is_checksum_term sentence_type] in Hlen, Hoff, Hict, Hty.
  subst ict ty. cbn zeta.
  destruct (c =? COMMA); record_simpl;
    (rewrite term_put_inside by lia); record_simpl;
    unfold parse_term, parse_term_with; record_simpl; cbn [types_eqb]; record_simpl;
    rewrite Z.eqb_refl; eexists; (split; [reflexivity|]); record_simpl; auto.
Qed.

(** X8. An accepted binary frame leaves the decoder in a checksum term, and
    the characters of a term do not end it.  Whatever such characters
    follow the frame of X7, on the next terminator [decode] returns true
    again and publishes the cross-track error of the frame once more, with
    the instant of that terminator: the comma after the "ROXTE" of the next
    frame, for one. *)
Theorem accepted_frame_republishes
    (g : FarmGPS F) (td now : Z) (name field mid : list (Z * Z))
    (sep hi lo e : Z * Z) :
  length (term (parser g)) = 20%nat ->
  term_offset (parser g) = 0 ->
  term_number (parser g) = 0 ->
  is_checksum_term (parser g) = false ->
  0 <= parity (parser g) < 256 ->
  -32768 <= sum (parser g) <= 32767 ->
  name.*1 = chars "ROXTE" ->
  is_terminator sep.1 = true -> sep.1 <> STAR ->
  forallb field_byte field.*1 = true ->
  (length (stored field.*1) <= 16)%nat ->
  default_label hi.1 = true -> default_label lo.1 = true ->
  to_int (sum (parser g) + byte_sum (name.*1 ++ sep.1 :: field.*1))
  = to_int (256 * to_byte hi.1 + to_byte lo.1) ->
  forallb field_byte mid.*1 = true ->
  is_terminator e.1 = true ->
  exists g1 g2,
    feed (name ++ sep :: field ++ [hi; lo; (DLE, td); (ETX, now)]) g
    = Done (replicate (length name + length field + 4) false ++ [true], g1)
    /\ is_checksum_term (parser g1) = true
    /\ feed (mid ++ [e]) g1 = Done (replicate (length mid) false ++ [true], g2)
    /\ XTE_members (pub g2) = (xte (pub g1), e.2, true)
    /\ GGA_members (pub g2) = GGA_members (pub g1)
    /\ VTG_members (pub g2) = VTG_members (pub g1).
Proof.
  intros Hlen Hoff Htn Hict Hpar Hsumr Hname Hsep Hstar Hfield Hroom Hhi Hlo Hsum Hmid He.
  destruct (frame_run g td now name field sep hi lo
              Hlen Hoff Htn Hict Hpar Hsumr Hname Hsep Hstar Hfield Hroom Hhi Hlo Hsum)
    as (g1 & Hf & Hp & Hs & Hi & Hty & Ho & Hl).
  destruct (checksum_term_run mid g1 Hl ltac:(lia) Hi Hmid)
    as (g1' & Hf' & Hp' & Hs' & Hl' & Ho' & Hi' & Hty').
  destruct (xte2_checksum_terminator e.1 e.2 g1' Hl' Ho' Hi' ltac:(congruence) He)
    as (g2 & Hd2 & Hp2 & _).
  exists g1, g2. split; [exact Hf|]. split; [exact Hi|]. split.
  - eapply feed_app_done; [exact Hf'|]. destruct e as [ce ne].
    cbn [feed]. cbn [fst snd] in Hd2. rewrite Hd2. reflexivity.
  - rewrite Hp2, Hs', Hp', Hp. repeat split.
Qed.

End AfterFrame.

Lemma accepted_frame_republishes_witness :
  exists g1 g2,
    feed (Exact.text "ROXTE" 5 ++ (44, 5) :: Exact.text "1.5" 5
            ++ [(2, 5); (82, 5); (DLE, 5); (ETX, 7)]) Exact.fresh
    = Done (replicate (length (Exact.text "ROXTE" 5) + length (Exact.text "1.5" 5) + 4) false
              ++ [true], g1)
    /\ is_checksum_term (parser g1) = true
    /\ feed (Exact.text "ROXTE" 9 ++ [(44, 9)]) g1
       = Done (replicate (length (Exact.text "ROXTE" 9)) false ++ [true], g2)
    /\ XTE_members (pub g2) = (xte (pub g1), 9, true)
    /\ GGA_members (pub g2) = GGA_members (pub g1)
    /\ VTG_members (pub g2) = VTG_members (pub g1).
Proof.
  apply (accepted_frame_republishes Exact.fresh 5 7 (Exact.text "ROXTE" 5)
           (Exact.text "1.5" 5) (Exact.text "ROXTE" 9)
           (44, 5) (2, 5) (82, 5) (44, 9));
    first [evaluated | vm_compute; lia | vm_compute; split; discriminate
          | vm_compute; split; [discriminate|reflexivity]].
Defined.

(** ** Sentences without values *)

Lemma first_field_token (tok seps : list Z) :
  forallb field_byte tok = true -> forallb is_separator seps = true ->
  first_field (tok ++ seps) = tok.
Proof.
  intros Htok Hseps. induction tok as [|c tok IH].
  - destruct seps as [|s seps]; [reflexivity|].
    cbn [forallb] in Hseps. apply andb_true_iff in Hseps as [Hs _].
    unfold is_separator in Hs. apply andb_true_iff in Hs as [Hs _].
    cbn [app first_field]. rewrite Hs. reflexivity.
  - cbn [forallb] in Htok. apply andb_true_iff in Htok as [Hc Htok].
    cbn [app first_field]. rewrite (field_byte_not_terminator c Hc), (IH Htok).
    reflexivity.
Qed.

Lemma separators_payload (seps : list Z) :
  forallb is_separator seps = true ->
  forallb payload_byte seps = true /\ terminators seps = Z.of_nat (length seps).
Proof.
  induction seps as [|s seps IH]; [split; reflexivity|].
  cbn [forallb terminators length]. intros H. apply andb_true_iff in H as [Hs H].
  destruct (IH H) as [IH1 IH2].
  assert (payload_byte s = true) as ->.
  { unfold payload_byte. unfold is_separator in Hs. rewrite Hs. apply orb_true_r. }
  unfold is_separator in Hs. apply andb_true_iff in Hs as [-> _].
  rewrite IH1, IH2. split; [reflexivity|lia].
Qed.

Lemma field_payload (tok : list Z) :
  forallb field_byte tok = true ->
  forallb payload_byte tok = true /\ terminators tok = 0.
Proof.
  induction tok as [|c tok IH]; [split; reflexivity|].
  cbn [forallb terminators]. intros H. apply andb_true_iff in H as [Hc H].
  destruct (IH H) as [IH1 IH2].
  assert (payload_byte c = true) as -> by (unfold payload_byte; rewrite Hc; reflexivity).
  rewrite IH1, IH2, (field_byte_not_terminator c Hc). split; [reflexivity|lia].
Qed.

Section NoValues.

Context {F : Type} {FO : FloatOps F}.

(** Separators that close the first term or empty terms leave the pending
    members as they are. *)
Lemma feed_separators (seps : list (Z * Z)) (g : FarmGPS F) (w : list Z) :
  in_term g w -> term_number (parser g) = 0 \/ w = [] ->
  forallb is_separator seps.*1 = true ->
  exists g' w',
    feed seps g = Done (replicate (length seps) false, g')
    /\ in_term g' w'
    /\ (term_number (parser g') = 0 \/ w' = [])
    /\ shadow g' = shadow g.
Proof.
  revert g w. induction seps as [|[c n] seps IH]; intros g w Hin Hw Hall.
  - exists g, w. auto.
  - cbn [fmap list_fmap fst forallb] in Hall.
    apply andb_true_iff in Hall as [Hc Hall].
    unfold is_separator in Hc. apply andb_true_iff in Hc as [Hc Hstar].
    apply negb_true_iff in Hstar. apply Z.eqb_neq in Hstar.
    destruct (step_separator c n g w Hin Hc Hstar)
      as (g1 & Hd & Hin1 & _ & _ & _ & H0 & H1).
    assert (shadow g1 = shadow g) as Hs.
    { destruct (Z.eq_dec (term_number (parser g)) 0) as [E|E].
      - apply (H0 E).
      - destruct Hw as [Hw|Hw]; [contradiction|]. apply (H1 E). exact Hw. }
    destruct (IH g1 [] Hin1 (or_intror eq_refl) Hall) as (g2 & w2 & Hf & Hin2 & Hw2 & Hs2).
    exists g2, w2. split; [exact (feed_cons_done _ _ _ _ _ _ _ _ Hd Hf)|].
    split; [exact Hin2|]. split; [exact Hw2|]. congruence.
Qed.

(** X9. A sentence without values publishes what the [new_...] members
    hold.  A valid sentence made of a first term and separators only (every
    further term empty) assigns none of the [new_...] members, and its
    checksum term publishes them as they were before the sentence: the
    values of an earlier sentence, accepted or not, or, right after
    construction, what the memory held, since the constructor assigns none
    of them. *)
Theorem empty_terms_publish_pending
    (g : FarmGPS F) (start t0 tstar : Z) (tok seps : list (Z * Z)) (h1 h2 e : Z * Z) :
  length (term (parser g)) = 20%nat ->
  is_start start = true ->
  forallb field_byte tok.*1 = true ->
  forallb is_separator seps.*1 = true ->
  (length seps <= 254)%nat ->
  is_hex_digit h1.1 = true -> is_hex_digit h2.1 = true ->
  is_terminator e.1 = true -> e.1 <> COMMA ->
  16 * hex_to_int h1.1 + hex_to_int h2.1 = nmea_xor (tok ++ seps).*1 ->
  (exists g',
      feed ((start, t0) :: (tok ++ seps) ++ [(STAR, tstar); h1; h2; e]) g
      = Done (replicate (length (tok ++ seps) + 4) false ++ [true], g')
      /\ pub g' = commit e.2 (type_of_token (stored tok.*1)) (shadow g) (pub g)
      /\ shadow g' = shadow g)
  /\ (forall mem : FarmGPS F, shadow (FarmGPS_ctor mem) = shadow mem).
Proof.
  intros Hlen Hs Htok Hseps Hmany H1 H2 He Hne Hck.
  split; [|reflexivity].
  destruct (field_payload _ Htok) as [Hpt Htt].
  destruct (separators_payload _ Hseps) as [Hps Hts].
  assert (forallb payload_byte (tok ++ seps).*1 = true) as Hall
    by (rewrite fmap_app, forallb_app, Hpt, Hps; reflexivity).
  assert (terminators (tok ++ seps).*1 <= 254) as Hterm.
  { rewrite fmap_app, terminators_app, Htt, Hts, length_fmap. lia. }
  destruct (valid_sentence_commits g start t0 tstar (tok ++ seps) h1 h2 e
              Hlen Hs Hall Hterm H1 H2 He Hne Hck) as (g' & Hf & Hp & _).
  exists g'. split; [exact Hf|].
  rewrite fmap_app, (first_field_token _ _ Htok Hseps) in Hp.
  assert (shadow g' = shadow g) as Hsh; [|rewrite Hsh in Hp; auto].
  destruct (step_start start t0 g Hlen Hs) as (g1 & Hd1 & Hin1 & _ & Hs1 & Hn1 & _).
  destruct (feed_field tok g1 [] Hin1 Htok) as (g2 & Hf2 & Hin2 & _ & Hs2 & Hn2 & _).
  assert (term_number (parser g2) = 0) as Hn2' by congruence.
  destruct (feed_separators seps g2 _ Hin2 (or_introl Hn2') Hseps)
    as (g3 & w3 & Hf3 & Hin3 & Hw3 & Hs3).
  destruct (step_terminator STAR tstar g3 w3 Hin3 eq_refl) as (sh & ty & Hd4 & H0 & H1').
  assert (sh = shadow g3) as ->.
  { destruct (Z.eq_dec (term_number (parser g3)) 0) as [E|E].
    - apply (H0 E).
    - destruct Hw3 as [Hw3|Hw3]; [contradiction|]. apply (H1' E). exact Hw3. }
  match type of Hd4 with _ = Done (false, ?x) => set (g4 := x) in Hd4 end.
  destruct (feed_checksum_token g4 h1 h2 e) as (g5 & Hf5 & _ & Hs5 & _); auto.
  { unfold g4. cbn [parser term]. rewrite length_insert. apply Hin3. }
  assert (exists vs, feed ((start, t0) :: (tok ++ seps) ++ [(STAR, tstar); h1; h2; e]) g
                     = Done (vs, g5)) as [vs Hrun].
  { eexists. eapply feed_cons_done; [exact Hd1|].
    eapply feed_app_done.
    - eapply feed_app_done; [exact Hf2 | exact Hf3].
    - eapply feed_cons_done; [exact Hd4 | exact Hf5]. }
  rewrite Hrun in Hf. injection Hf as _ <-.
  rewrite Hs5. unfold g4. cbn [shadow]. congruence.
Qed.

End NoValues.

Lemma empty_terms_publish_pending_witness :
  exists g',
    feed ((36, 1) :: (Exact.text "GPGGA" 1 ++ Exact.text ",,," 1)
            ++ [(STAR, 1); (55, 1); (65, 1); (13, 2)]) Exact.fresh
    = Done (replicate (length (Exact.text "GPGGA" 1 ++ Exact.text ",,," 1) + 4) false
              ++ [true], g')
    /\ pub g' = commit 2 (type_of_token (stored (Exact.text "GPGGA" 1).*1))
                       (shadow Exact.fresh) (pub Exact.fresh)
    /\ shadow g' = shadow Exact.fresh.
Proof.
  eapply proj1.
  apply (empty_terms_publish_pending Exact.fresh 36 1 1 (Exact.text "GPGGA" 1)
           (Exact.text ",,," 1) (55, 1) (65, 1) (13, 2));
    first [evaluated | vm_compute; lia].
Defined.

(** ** The checksum token *)

Section ChecksumToken.

Context {F : Type} {FO : FloatOps F}.

(** A character of the checksum token after its first two: the first two
    stay where they are. *)
Lemma checksum_tail_step (c now : Z) (g : FarmGPS F) (c1 c2 : Z) (rest : list Z) :
  term (parser g) = c1 :: c2 :: rest ->
  length (term (parser g)) = 20%nat ->
  2 <= term_offset (parser g) <= 19 ->
  is_checksum_term (parser g) = true ->
  field_byte c = true ->
  exists g' rest',
    decode c now g = Done (false, g')
    /\ term (parser g') = c1 :: c2 :: rest'
    /\ length (term (parser g')) = 20%nat
    /\ 2 <= term_offset (parser g') <= 19
    /\ is_checksum_term (parser g') = true
    /\ pub g' = pub g /\ shadow g' = shadow g
    /\ parity (parser g') = parity (parser g)
    /\ sentence_type (parser g') = sentence_type (parser g).
Proof.
  intros Ht Hlen Hoff Hck Hc.
  destruct g as [f sh p st]. destruct p as [t n off par ck sm ict ty].
  cbn [parser term term_offset is_checksum_term] in Ht, Hlen, Hoff, Hck. subst ict t.
  destruct (field_byte_cases c Hc) as [Hi|Hd].
  - rewrite (decode_ignored c now _ Hi). eexists _, rest. split; [reflexivity|].
    record_simpl. repeat split; auto; lia.
  - rewrite (decode_default c now _ Hd). unfold ordinary, sizeof_term. record_simpl.
    destruct (off <? 20 - 1) eqn:E.
    + apply Z.ltb_lt in E. rewrite term_put_inside by lia. record_simpl.
      destruct (Z.to_nat off) as [|[|k]] eqn:Ek; try lia.
      eexists _, (<[k := c]> rest). split; [reflexivity|]. record_simpl.
      split; [reflexivity|]. cbn [length] in *. rewrite length_insert.
      rewrite to_byte_small by lia. repeat split; auto; lia.
    + record_simpl. eexists _, rest. split; [reflexivity|]. record_simpl.
      repeat split; auto; lia.
Qed.

Lemma checksum_tail_run (evs : list (Z * Z)) (g : FarmGPS F) (c1 c2 : Z) (rest : list Z) :
  term (parser g) = c1 :: c2 :: rest ->
  length (term (parser g)) = 20%nat ->
  2 <= term_offset (parser g) <= 19 ->
  is_checksum_term (parser g) = true ->
  forallb field_byte evs.*1 = true ->
  exists g' rest',
    feed evs g = Done (replicate (length evs) false, g')
    /\ term (parser g') = c1 :: c2 :: rest'
    /\ length (term (parser g')) = 20%nat
    /\ 2 <= term_offset (parser g') <= 19
    /\ is_checksum_term (parser g') = true
    /\ pub g' = pub g /\ shadow g' = shadow g
    /\ parity (parser g') = parity (parser g)
    /\ sentence_type (parser g') = sentence_type (parser g).
Proof.
  revert g rest. induction evs as [|[c n] evs IH]; intros g rest Ht Hlen Hoff Hck Hall.
  - exists g, rest. repeat split; auto; lia.
  - cbn [fmap list_fmap fst forallb] in Hall.
    apply andb_true_iff in Hall as [Hc Hall].
    destruct (checksum_tail_step c n g c1 c2 rest Ht Hlen Hoff Hck Hc)
      as (g1 & r1 & Hd & Ht1 & Hl1 & Ho1 & Hi1 & Hp1 & Hs1 & Hpar1 & Hty1).
    destruct (IH g1 r1 Ht1 Hl1 Ho1 Hi1 Hall)
      as (g2 & r2 & Hf & Ht2 & Hl2 & Ho2 & Hi2 & Hp2 & Hs2 & Hpar2 & Hty2).
    exists g2, r2. split; [exact (feed_cons_done _ _ _ _ _ _ _ _ Hd Hf)|].
    repeat split; try congruence; lia.
Qed.

(** The terminator of a checksum token of two characters or more.  A comma
    is XORed into [parity] before the comparison. *)
Lemma checksum_close (c now : Z) (g : FarmGPS F) (c1 c2 : Z) (rest : list Z) :
  term (parser g) = c1 :: c2 :: rest ->
  length (term (parser g)) = 20%nat ->
  2 <= term_offset (parser g) <= 19 ->
  is_checksum_term (parser g) = true ->
  is_terminator c = true ->
  let par := if c =? COMMA then to_byte (Z.lxor (parity (parser g)) COMMA)
             else parity (parser g) in
  let ck := if types_eqb (sentence_type (parser g)) XTE2 then par
            else to_byte (16 * hex_to_int c1 + hex_to_int c2) in
  exists g',
    decode c now g = Done (ck =? par, g')
    /\ pub g' = (if ck =? par
                 then commit now (sentence_type (parser g)) (shadow g) (pub g)
                 else pub g).
Proof.
  intros Ht Hlen Hoff Hck Hc.
  destruct g as [f sh p st]. destruct p as [t n off par0 ck0 sm ict ty].
  cbn [parser term term_offset is_checksum_term parity sentence_type shadow pub]
    in Ht, Hlen, Hoff, Hck |- *.
  subst ict t. cbn zeta.
  rewrite (decode_terminator c now _ Hc). cbn zeta.
  destruct (Z.to_nat off) as [|[|k]] eqn:Ek; try lia.
  destruct (c =? COMMA) eqn:E; [apply Z.eqb_eq in E; subst c|]; cbv iota; record_simpl;
    (rewrite term_put_inside by lia); rewrite Ek;
    change (<[S (S k) := 0]> (c1 :: c2 :: rest)) with (c1 :: c2 :: <[k := 0]> rest);
    record_simpl; unfold parse_term;
    (erewrite parse_term_checksum; [|reflexivity|reflexivity]);
    unfold expected_checksum; cbn zeta; record_simpl;
    destruct (types_eqb ty XTE2);
    match goal with |- context [if ?a =? ?b then _ else _] => destruct (a =? b) end;
    eexists; (split; [reflexivity|]); reflexivity.
Qed.

(** The first two characters of a checksum token. *)
Lemma checksum_head (g : FarmGPS F) (h1 h2 : Z * Z) :
  length (term (parser g)) = 20%nat ->
  term_offset (parser g) = 0 ->
  is_checksum_term (parser g) = true ->
  default_label h1.1 = true -> default_label h2.1 = true ->
  exists g' rest,
    feed [h1; h2] g = Done ([false; false], g')
    /\ term (parser g') = h1.1 :: h2.1 :: rest
    /\ length (term (parser g')) = 20%nat
    /\ term_offset (parser g') = 2
    /\ is_checksum_term (parser g') = true
    /\ pub g' = pub g /\ shadow g' = shadow g
    /\ parity (parser g') = parity (parser g)
    /\ sentence_type (parser g') = sentence_type (parser g).
Proof.
  intros Hlen Hoff Hck H1 H2.
  destruct h1 as [c1 n1], h2 as [c2 n2].
  destruct g as [f sh p st]. destruct p as [t n off par ck0 sm ict ty].
  cbn [parser term term_offset is_checksum_term fst] in *. subst ict off.
  destruct t as [|x0 [|x1 t]]; try (cbn [length] in Hlen; lia).
  cbn [feed]. rewrite (decode_default c1 n1 _ H1). unfold ordinary, sizeof_term.
  record_simpl. unfold term_put. cbn [length].
  assert ((0 <=? 0) && (0 <? Z.of_nat (S (S (length t)))) = true) as ->
    by (apply andb_true_iff; split; [apply Z.leb_le | apply Z.ltb_lt]; lia).
  change (0 <? 20 - 1) with true. record_simpl.
  rewrite (decode_default c2 n2 _ H2). unfold ordinary, sizeof_term.
  record_simpl. change (to_byte (0 + 1)) with 1.
  change (1 <? 20 - 1) with true. cbv iota.
  rewrite term_put_inside by (rewrite length_insert; cbn [length]; lia).
  record_simpl.
  eexists _, t. split; [reflexivity|]. record_simpl.
  split; [reflexivity|]. split; [exact Hlen|]. repeat split; reflexivity.
Qed.

Lemma lxor_comma_differs (x : Z) : Z.lxor x COMMA <> x.
Proof.
  intros H. apply (f_equal (Z.lxor x)) in H.
  rewrite <- Z.lxor_assoc, Z.lxor_nilpotent, Z.lxor_0_l in H. discriminate H.
Qed.

Lemma quiet_token (n m : nat) (b : bool) :
  false :: (replicate (n + 1) false ++ [false; false] ++ replicate m false ++ [b])
  = replicate (n + m + 4) false ++ [b].
Proof.
  replace (n + m + 4)%nat with (S (n + 1) + (2 + m))%nat by lia.
  rewrite (replicate_add (S (n + 1)) (2 + m)), <- app_assoc. reflexivity.
Qed.

(** X10. A comma after the checksum token takes part in the checksum.  A
    comma is a terminator, so it closes the checksum term; but its case
    label XORs it into [parity] before the term is processed.  For a
    sentence whose type is not XTE2 the two digits are therefore compared
    with the XOR of the payload and the comma: [decode] returns true on that
    comma exactly when the digits give this value, and a sentence with the
    right checksum is turned down, the published members staying as they
    are. *)
Theorem comma_after_checksum
    (g : FarmGPS F) (start t0 tstar tc : Z) (payload : list (Z * Z)) (h1 h2 : Z * Z) :
  length (term (parser g)) = 20%nat ->
  is_start start = true ->
  forallb payload_byte payload.*1 = true ->
  terminators payload.*1 <= 254 ->
  stored (first_field payload.*1) <> chars "ROXTE" ->
  is_hex_digit h1.1 = true -> is_hex_digit h2.1 = true ->
  let accepted := 16 * hex_to_int h1.1 + hex_to_int h2.1
                  =? Z.lxor (nmea_xor payload.*1) COMMA in
  exists g',
    feed ((start, t0) :: payload ++ [(STAR, tstar); h1; h2; (COMMA, tc)]) g
    = Done (replicate (length payload + 4) false ++ [accepted], g')
    /\ (accepted = false -> pub g' = pub g)
    /\ (16 * hex_to_int h1.1 + hex_to_int h2.1 = nmea_xor payload.*1 -> accepted = false).
Proof.
  intros Hlen Hs Hall Hterm Hty H1 H2 accepted.
  destruct (step_start start t0 g Hlen Hs) as (g1 & Hd1 & Hin1 & Hp1 & _ & Hn1 & Hpar1 & _).
  destruct (feed_body payload tstar g1 [] Hin1 Hn1 Hall Hterm)
    as (g2 & Hf2 & Hp2 & Hl2 & Ho2 & Hi2 & Hpar2 & Hty2).
  rewrite Hpar1, Z.lxor_0_l in Hpar2.
  rewrite app_nil_l, type_of_token_take in Hty2.
  destruct (checksum_head g2 h1 h2 Hl2 Ho2 Hi2
              (hex_digit_default _ H1) (hex_digit_default _ H2))
    as (g3 & rest & Hf3 & Ht3 & Hl3 & Ho3 & Hi3 & Hp3 & _ & Hpar3 & Hty3).
  destruct (checksum_close COMMA tc g3 h1.1 h2.1 rest Ht3 Hl3 ltac:(lia) Hi3 eq_refl)
    as (g4 & Hd4 & Hp4).
  cbn zeta in Hd4, Hp4. change (COMMA =? COMMA) with true in Hd4, Hp4. cbv iota in Hd4, Hp4.
  assert (types_eqb (sentence_type (parser g3)) XTE2 = false) as Hne.
  { rewrite Hty3, Hty2.
    destruct (type_of_token (stored (first_field payload.*1))) eqn:E; try reflexivity.
    apply type_of_token_cases in E. contradiction. }
  rewrite Hne in Hd4, Hp4.
  rewrite hex_pair_byte in Hd4, Hp4 by assumption.
  rewrite Hpar3, Hpar2 in Hd4, Hp4.
  pose proof (nmea_xor_range payload.*1) as Hx.
  rewrite (to_byte_small (Z.lxor (nmea_xor payload.*1) COMMA)) in Hd4, Hp4
    by (apply lxor_byte_range; [exact Hx | unfold COMMA; lia]).
  fold accepted in Hd4, Hp4.
  exists g4. split; [|split].
  - replace (length payload + 4)%nat with (length payload + 0 + 4)%nat by lia.
    rewrite <- (quiet_token (length payload) 0 accepted).
    eapply feed_cons_done; [exact Hd1|].
    change (payload ++ [(STAR, tstar); h1; h2; (COMMA, tc)])
      with (payload ++ [(STAR, tstar)] ++ [h1; h2] ++ [(COMMA, tc)]).
    rewrite (app_assoc payload).
    eapply feed_app_done; [exact Hf2|].
    eapply feed_app_done; [exact Hf3|].
    cbn [feed replicate app]. rewrite Hd4. reflexivity.
  - intros E. rewrite E in Hp4. congruence.
  - intros E. unfold accepted. rewrite E. apply Z.eqb_neq.
    intros E'. symmetry in E'. exact (lxor_comma_differs _ E').
Qed.

(** X11. Only the first two characters of the checksum token count.  What
    follows the two digits before the terminator of the token -- any
    characters of a term, more of them than the buffer holds if need be --
    is stored or dropped, never XORed into [parity], and never compared: a
    sentence whose two digits give the XOR of its payload is accepted with
    such a tail as it is without. *)
Theorem checksum_token_tail_ignored
    (g : FarmGPS F) (start t0 tstar : Z) (payload junk : list (Z * Z)) (h1 h2 e : Z * Z) :
  length (term (parser g)) = 20%nat ->
  is_start start = true ->
  forallb payload_byte payload.*1 = true ->
  is_hex_digit h1.1 = true -> is_hex_digit h2.1 = true ->
  forallb field_byte junk.*1 = true ->
  is_terminator e.1 = true -> e.1 <> COMMA ->
  16 * hex_to_int h1.1 + hex_to_int h2.1 = nmea_xor payload.*1 ->
  exists g',
    feed ((start, t0) :: payload ++ [(STAR, tstar); h1; h2] ++ junk ++ [e]) g
    = Done (replicate (length payload + length junk + 4) false ++ [true], g')
    /\ pub g' = commit e.2 (sentence_type (parser g')) (shadow g') (pub g).
Proof.
  intros Hlen Hs Hall H1 H2 Hjunk He Hne Hck.
  destruct (step_start start t0 g Hlen Hs) as (g1 & Hd1 & Hin1 & Hp1 & _ & _ & Hpar1 & _).
  destruct (feed_body_parity payload tstar g1 [] Hin1 Hall)
    as (g2 & Hf2 & Hp2 & Hl2 & Ho2 & Hi2 & Hpar2).
  rewrite Hpar1, Z.lxor_0_l in Hpar2.
  destruct (checksum_head g2 h1 h2 Hl2 Ho2 Hi2
              (hex_digit_default _ H1) (hex_digit_default _ H2))
    as (g3 & rest & Hf3 & Ht3 & Hl3 & Ho3 & Hi3 & Hp3 & _ & Hpar3 & _).
  destruct (checksum_tail_run junk g3 h1.1 h2.1 rest Ht3 Hl3 ltac:(lia) Hi3 Hjunk)
    as (g4 & rest4 & Hf4 & Ht4 & Hl4 & Ho4 & Hi4 & Hp4 & _ & Hpar4 & _).
  destruct (checksum_close e.1 e.2 g4 h1.1 h2.1 rest4 Ht4 Hl4 Ho4 Hi4 He)
    as (g5 & Hd5 & _).
  cbn zeta in Hd5.
  assert ((e.1 =? COMMA) = false) as Hcomma by (apply Z.eqb_neq; exact Hne).
  rewrite Hcomma in Hd5.
  rewrite hex_pair_byte, Hck, Hpar4, Hpar3, Hpar2 in Hd5 by assumption.
  assert (((if types_eqb (sentence_type (parser g4)) XTE2
            then nmea_xor payload.*1 else nmea_xor payload.*1)
           =? nmea_xor payload.*1) = true) as Htrue
    by (destruct (types_eqb _ _); apply Z.eqb_refl).
  rewrite Htrue in Hd5.
  exists g5. split.
  - rewrite <- (quiet_token (length payload) (length junk) true).
    eapply feed_cons_done; [exact Hd1|].
    change ([(STAR, tstar); h1; h2] ++ junk ++ [e])
      with ([(STAR, tstar)] ++ [h1; h2] ++ junk ++ [e]).
    rewrite (app_assoc payload).
    eapply feed_app_done; [exact Hf2|].
    eapply feed_app_done; [exact Hf3|].
    eapply feed_app_done; [exact Hf4|].
    destruct e as [ce ne]. cbn [feed]. cbn [fst snd] in Hd5. rewrite Hd5. reflexivity.
  - apply decode_effect in Hd5 as (_ & _ & _ & _ & _ & Hpub & _).
    rewrite (Hpub eq_refl). congruence.
Qed.

End ChecksumToken.

Lemma comma_after_checksum_witness :
  exists g',
    feed ((36, 1000) :: Exact.gga_payload ++ [(STAR, 1000); (52, 1000); (55, 1000); (COMMA, 1000)])
         Exact.fresh
    = Done (replicate (length Exact.gga_payload + 4) false
              ++ [16 * hex_to_int 52 + hex_to_int 55
                  =? Z.lxor (nmea_xor Exact.gga_payload.*1) COMMA], g')
    /\ ((16 * hex_to_int 52 + hex_to_int 55
         =? Z.lxor (nmea_xor Exact.gga_payload.*1) COMMA) = false -> pub g' = pub Exact.fresh)
    /\ (16 * hex_to_int 52 + hex_to_int 55 = nmea_xor Exact.gga_payload.*1
        -> (16 * hex_to_int 52 + hex_to_int 55
            =? Z.lxor (nmea_xor Exact.gga_payload.*1) COMMA) = false).
Proof.
  apply (comma_after_checksum Exact.fresh 36 1000 1000 1000 Exact.gga_payload
           (52, 1000) (55, 1000)); evaluated.
Defined.

Lemma checksum_token_tail_ignored_witness :
  exists g',
    feed ((36, 1000) :: Exact.gga_payload
            ++ [(STAR, 1000); (52, 1000); (55, 1000)] ++ Exact.text "ABC" 1000 ++ [(13, 1001)])
         Exact.fresh
    = Done (replicate (length Exact.gga_payload + length (Exact.text "ABC" 1000) + 4) false
              ++ [true], g')
    /\ pub g' = commit 1001 (sentence_type (parser g')) (shadow g') (pub Exact.fresh).
Proof.
  apply (checksum_token_tail_ignored Exact.fresh 36 1000 1000 Exact.gga_payload
           (Exact.text "ABC" 1000) (52, 1000) (55, 1000) (13, 1001)); evaluated.
Defined.

(** ** Date and time *)

Section DateTime.

Context {F : Type} {FO : FloatOps F} {FL : FloatToLong F}.

Lemma feed_date (evs : list (Z * Z)) (g g' : FarmGPS F) (vs : list bool) :
  feed evs g = Done (vs, g') -> date (pub g') = date (pub g).
Proof.
  revert g vs. induction evs as [|[c n] evs IH]; intros g vs H.
  - injection H as _ <-. reflexivity.
  - cbn [feed] in H.
    apply bind_Done in H as ([v g1] & Hd & H).
    apply bind_Done in H as ([vs1 g2] & Hf & H). injection H as _ <-.
    rewrite (IH g1 vs1 Hf).
    apply decode_effect in Hd as (_ & _ & _ & _ & _ & Ht & Hn).
    destruct v.
    + rewrite (Ht eq_refl). apply commit_frame.
    + rewrite (Hn eq_refl). reflexivity.
Qed.

(** X12. The date is never decoded.  No call of [decode] assigns [date]:
    after any stream it is what it was, and from the constructor on it is
    GPS_INVALID_LONG.  [get_datetime] returns this value as the date, and
    [get_datetime_details] makes the year 1995, the month 72 and the day
    184 of it, whatever was received. *)
Theorem date_is_never_decoded
    (mem g : FarmGPS F) (evs : list (Z * Z)) (vs : list bool) :
  feed evs (FarmGPS_ctor mem) = Done (vs, g) ->
  date (pub g) = GPS_INVALID_LONG
  /\ (get_datetime g).1 = GPS_INVALID_LONG
  /\ outyear (get_datetime_details g) = 1995
  /\ outmonth (get_datetime_details g) = 72
  /\ outday (get_datetime_details g) = 184
  /\ (forall (g0 g1 : FarmGPS F) (evs0 : list (Z * Z)) (vs0 : list bool),
         feed evs0 g0 = Done (vs0, g1) -> date (pub g1) = date (pub g0)).
Proof.
  intros H.
  apply feed_date in H. change (date (pub (FarmGPS_ctor mem))) with GPS_INVALID_LONG in H.
  split; [exact H|].
  unfold get_datetime_details, get_datetime. cbn [fst]. rewrite H.
  split; [reflexivity|]. split; [reflexivity|]. split; [reflexivity|].
  split; [reflexivity|].
  intros g0 g1 evs0 vs0 H0. exact (feed_date _ _ _ _ H0).
Qed.

(** X13. The time of day is read two digits too low.  [time] holds the
    value of the time term of a GGA sentence, which is written hhmmss: as an
    [unsigned long] it is hh * 10000 + mm * 100 + ss.
    [get_datetime_details] divides by 1000000 for the hour, as for a value
    hhmmsscc: the hour it gives is 0, the minute is the hour received, the
    second is the minute received and the hundredths are the seconds. *)
Theorem time_of_day_is_shifted (g : FarmGPS F) (hh mi ss : Z) :
  0 <= hh < 24 -> 0 <= mi < 60 -> 0 <= ss < 60 ->
  ulong_of_float (time (pub g)) = hh * 10000 + mi * 100 + ss ->
  outhour (get_datetime_details g) = 0
  /\ outminute (get_datetime_details g) = hh
  /\ outsecond (get_datetime_details g) = mi
  /\ outhundredths (get_datetime_details g) = ss.
Proof.
  intros Hh Hm Hs Ht.
  unfold get_datetime_details, get_datetime. rewrite Ht.
  cbn [outhour outminute outsecond outhundredths].
  unfold to_byte. repeat split; Z.to_euclidean_division_equations; lia.
Qed.

End DateTime.

Lemma date_is_never_decoded_witness :
  date (pub (Exact.after (events Exact.gga) Exact.fresh)) = GPS_INVALID_LONG
  /\ (get_datetime (Exact.after (events Exact.gga) Exact.fresh)).1 = GPS_INVALID_LONG
  /\ outyear (get_datetime_details (Exact.after (events Exact.gga) Exact.fresh)) = 1995
  /\ outmonth (get_datetime_details (Exact.after (events Exact.gga) Exact.fresh)) = 72
  /\ outday (get_datetime_details (Exact.after (events Exact.gga) Exact.fresh)) = 184.
Proof.
  destruct (date_is_never_decoded Exact.zeroed
              (Exact.after (events Exact.gga) Exact.fresh) (events Exact.gga)
              (replicate (length Exact.gga_payload + 4) false ++ [true]))
    as (H1 & H2 & H3 & H4 & H5 & _); [evaluated|].
  repeat split; assumption.
Defined.

Lemma time_of_day_is_shifted_witness :
  outhour (get_datetime_details (Exact.after (events Exact.gga) Exact.fresh)) = 0
  /\ outminute (get_datetime_details (Exact.after (events Exact.gga) Exact.fresh)) = 12
  /\ outsecond (get_datetime_details (Exact.after (events Exact.gga) Exact.fresh)) = 35
  /\ outhundredths (get_datetime_details (Exact.after (events Exact.gga) Exact.fresh)) = 19.
Proof.
  apply (time_of_day_is_shifted (Exact.after (events Exact.gga) Exact.fresh) 12 35 19);
    first [lia | evaluated].
Defined.

(** ** What a term is *)

Section TermValue.

Context {F : Type} {FO : FloatOps F}.

(** X14. A term is the first 19 stored characters between two terminators.
    At the start of a term other than the first, the characters received up
    to the next terminator are stored without the ignored ones (0, 20 and
    the space) and only as far as the buffer goes; the value assigned to the
    [new_...] member of the term is the one [parse_term] extracts from
    these characters, and an empty term assigns nothing.  The string handed
    to [atof] or [atoi] is this prefix; for term 1 of a GGA sentence it
    gives [new_time]. *)
Theorem term_is_stored_prefix (g : FarmGPS F) (field : list (Z * Z)) (sep : Z * Z) :
  in_term g [] ->
  1 <= term_number (parser g) <= 254 ->
  forallb field_byte field.*1 = true ->
  is_terminator sep.1 = true ->
  let w := take 19 (stored field.*1) in
  exists g',
    feed (field ++ [sep]) g = Done (replicate (length field + 1) false, g')
    /\ pub g' = pub g
    /\ term_number (parser g') = term_number (parser g) + 1
    /\ (w = [] -> shadow g' = shadow g)
    /\ (w <> [] ->
        extract (sentence_type (parser g)) (term_number (parser g)) (w ++ [0]) (shadow g)
        = Done (shadow g'))
    /\ c_str (w ++ [0]) = Done w
    /\ (w <> [] -> sentence_type (parser g) = GGA -> term_number (parser g) = 1 ->
        new_time (shadow g') = parse_decimal w).
Proof.
  intros Hin Hn Hfield Hsep w.
  destruct (feed_field field g [] Hin Hfield)
    as (g1 & Hf1 & Hin1 & Hp1 & Hs1 & Hn1 & Hty1 & _).
  rewrite app_nil_l in Hin1. fold w in Hin1.
  destruct (terminator_shadow sep.1 sep.2 g1 w Hin1 Hsep ltac:(lia))
    as (g2 & Hd2 & _ & _ & _ & Hn2 & _ & He & Hx & _).
  assert (0 ∉ w) as Hz by apply Hin1.
  assert (c_str (w ++ [0]) = Done w) as Hstr by (apply (c_str_prefix w []); exact Hz).
  exists g2. split.
  - rewrite replicate_add. eapply feed_app_done; [exact Hf1|].
    destruct sep as [cs ns]. cbn [feed]. cbn [fst snd] in Hd2. rewrite Hd2. reflexivity.
  - pose proof (decode_effect _ _ _ _ _ Hd2) as (_ & _ & _ & _ & _ & _ & Hpub).
    rewrite Hty1, Hn1, Hs1 in Hx. rewrite Hs1 in He.
    split; [rewrite (Hpub eq_refl); exact Hp1|].
    split; [lia|]. split; [exact He|]. split; [exact Hx|]. split; [exact Hstr|].
    intros Hw Hty H1. specialize (Hx Hw). rewrite Hty, H1 in Hx.
    unfold extract in Hx. change (1 =? 1) with true in Hx. cbv iota in Hx.
    rewrite Hstr in Hx. cbn [mbind outcome_bind] in Hx. injection Hx as <-. reflexivity.
Qed.

(** X16. The term counter is a byte.  After term 255 of a sentence the
    counter is 0 again, and the term that follows is taken for a first
    term: it assigns no value and selects the sentence type anew. *)
Theorem term_256_selects_type
    (g : FarmGPS F) (w : list Z) (field : list (Z * Z)) (sep1 sep2 : Z * Z) :
  in_term g w ->
  term_number (parser g) = 255 ->
  is_separator sep1.1 = true ->
  forallb field_byte field.*1 = true ->
  is_terminator sep2.1 = true ->
  exists g1 g2,
    decode sep1.1 sep1.2 g = Done (false, g1)
    /\ term_number (parser g1) = 0
    /\ feed (field ++ [sep2]) g1 = Done (replicate (length field + 1) false, g2)
    /\ sentence_type (parser g2) = type_of_token (stored field.*1)
    /\ shadow g2 = shadow g1
    /\ term_number (parser g2) = 1.
Proof.
  intros Hin Hn Hs1 Hfield Hs2.
  unfold is_separator in Hs1. apply andb_true_iff in Hs1 as [Hs1 Hstar].
  apply negb_true_iff in Hstar. apply Z.eqb_neq in Hstar.
  destruct (step_separator sep1.1 sep1.2 g w Hin Hs1 Hstar)
    as (g1 & Hd1 & Hin1 & _ & Hn1 & _).
  rewrite Hn in Hn1. change (to_byte (255 + 1)) with 0 in Hn1.
  destruct (feed_field field g1 [] Hin1 Hfield)
    as (g1' & Hf & Hin1' & _ & Hsh & Hn1' & _).
  rewrite app_nil_l in Hin1'.
  destruct (step_terminator sep2.1 sep2.2 g1' _ Hin1' Hs2) as (sh & ty & Hd2 & H0 & _).
  destruct (H0 ltac:(congruence)) as [-> ->].
  match type of Hd2 with _ = Done (false, ?x) => exists g1, x end.
  split; [exact Hd1|]. split; [exact Hn1|]. split.
  - rewrite replicate_add. eapply feed_app_done; [exact Hf|].
    destruct sep2 as [cs ns]. cbn [feed]. cbn [fst snd] in Hd2. rewrite Hd2. reflexivity.
  - cbn [parser shadow sentence_type term_number]. rewrite type_of_token_take.
    split; [reflexivity|]. split; [exact Hsh|]. rewrite Hn1', Hn1. reflexivity.
Qed.

(** X15. [encoded_characters] counts the calls of [decode], modulo 2^32,
    from the value the memory held: with [GPS_NO_STATS] defined the
    constructor does not assign the statistics.  A run returns one value
    for each character, and it leaves the other two counters as they
    are. *)
Theorem characters_are_counted
    (mem g g' : FarmGPS F) (evs : list (Z * Z)) (vs : list bool) :
  0 <= encoded_characters (stats g) < 4294967296 ->
  feed evs g = Done (vs, g') ->
  encoded_characters (stats g')
  = to_ulong (encoded_characters (stats g) + Z.of_nat (length evs))
  /\ length vs = length evs
  /\ good_sentences (stats g') = good_sentences (stats g)
  /\ failed_checksum (stats g') = failed_checksum (stats g)
  /\ stats (FarmGPS_ctor mem) = stats mem.
Proof.
  intros Hr H. split; [|split; [|split; [|split; [|reflexivity]]]];
    revert g vs Hr H; induction evs as [|[c n] evs IH]; intros g vs Hr H;
    try (injection H as <- <-; cbn [length]; try reflexivity;
         rewrite Z.add_0_r; unfold to_ulong; rewrite Z.mod_small by exact Hr; reflexivity);
    cbn [feed] in H;
    apply bind_Done in H as ([v g1] & Hd & H);
    apply bind_Done in H as ([vs1 g2] & Hf & H); injection H as <- <-;
    apply decode_effect in Hd as (_ & _ & Hc & Hg & Hb & _);
    (assert (0 <= encoded_characters (stats g1) < 4294967296) as Hr1
      by (rewrite Hc; unfold to_ulong; apply Z.mod_pos_bound; lia));
    specialize (IH g1 vs1 Hr1 Hf).
  - rewrite IH, Hc. unfold to_ulong. rewrite Zplus_mod_idemp_l. f_equal.
    cbn [length]. lia.
  - cbn [length]. congruence.
  - congruence.
  - congruence.
Qed.

End TermValue.

Lemma term_is_stored_prefix_witness :
  exists g',
    feed (Exact.text "12 3519" 1000 ++ [(44, 1000)])
         (Exact.after (Exact.text "$GPGGA," 1000) Exact.fresh)
    = Done (replicate (length (Exact.text "12 3519" 1000) + 1) false, g')
    /\ new_time (shadow g') = parse_decimal (chars "123519").
Proof.
  destruct (term_is_stored_prefix (Exact.after (Exact.text "$GPGGA," 1000) Exact.fresh)
              (Exact.text "12 3519" 1000) (44, 1000))
    as (g' & Hf & _ & _ & _ & _ & _ & Ht).
  - unfold in_term. split; [evaluated|]. split; [evaluated|]. split; [evaluated|].
    split; [apply not_elem_of_nil|]. split; [vm_compute; lia|]. split; [evaluated|].
    vm_compute. split; [discriminate|reflexivity].
  - vm_compute. split; discriminate.
  - evaluated.
  - evaluated.
  - exists g'. split; [exact Hf|]. apply Ht; evaluated.
Defined.

Lemma term_256_selects_type_witness :
  exists g1 g2,
    decode 44 7 (Exact.after ((36, 7) :: replicate 255 (44, 7) ++ [(49, 7)]) Exact.fresh)
    = Done (false, g1)
    /\ term_number (parser g1) = 0
    /\ feed (Exact.text "GPVTG" 7 ++ [(44, 7)]) g1
       = Done (replicate (length (Exact.text "GPVTG" 7) + 1) false, g2)
    /\ sentence_type (parser g2) = type_of_token (stored (Exact.text "GPVTG" 7).*1)
    /\ shadow g2 = shadow g1
    /\ term_number (parser g2) = 1.
Proof.
  apply (term_256_selects_type
           (Exact.after ((36, 7) :: replicate 255 (44, 7) ++ [(49, 7)]) Exact.fresh)
           (chars "1") (Exact.text "GPVTG" 7) (44, 7) (44, 7)); evaluated.
Defined.

Lemma characters_are_counted_witness :
  encoded_characters (stats (Exact.after (events Exact.gga) Exact.fresh))
  = to_ulong (encoded_characters (stats Exact.fresh) + Z.of_nat (length (events Exact.gga))).
Proof.
  eapply proj1.
  apply (characters_are_counted Exact.zeroed Exact.fresh
           (Exact.after (events Exact.gga) Exact.fresh) (events Exact.gga)
           (replicate (length Exact.gga_payload + 4) false ++ [true]));
    first [evaluated | vm_compute; split; [discriminate|reflexivity]].
Defined.

(** ** Sentences of other types, and short checksum tokens *)

Section OtherSentences.

Context {F : Type} {FO : FloatOps F}.


(** A checksum token of one character and its terminator. *)
Lemma short_token (g : FarmGPS F) (h e : Z * Z) :
  length (term (parser g)) = 20%nat ->
  term_offset (parser g) = 0 ->
  is_checksum_term (parser g) = true ->
  default_label h.1 = true ->
  is_terminator e.1 = true -> e.1 <> COMMA ->
  let ck := if types_eqb (sentence_type (parser g)) XTE2 then parity (parser g)
            else to_byte (16 * hex_to_int h.1 + hex_to_int 0) in
  exists g',
    feed [h; e] g = Done ([false; ck =? parity (parser g)], g')
    /\ pub g' = (if ck =? parity (parser g)
                 then commit e.2 (sentence_type (parser g)) (shadow g) (pub g)
                 else pub g).
Proof.
  intros Hlen Hoff Hck Hh He Hne.
  destruct h as [c1 n1], e as [ce ne].
  destruct g as [f sh p st]. destruct p as [t n off par ck0 sm ict ty].
  cbn [parser term term_offset is_checksum_term fst snd parity sentence_type pub shadow]
    in *.
  subst ict off.
  destruct t as [|x0 [|x1 t]]; try (cbn [length] in Hlen; lia).
  cbn [feed]. rewrite (decode_default c1 n1 _ Hh). unfold ordinary, sizeof_term.
  record_simpl. unfold term_put. cbn [length].
  assert ((0 <=? 0) && (0 <? Z.of_nat (S (S (length t)))) = true) as ->
    by (apply andb_true_iff; split; [apply Z.leb_le | apply Z.ltb_lt]; lia).
  change (0 <? 20 - 1) with true. record_simpl.
  change (<[Z.to_nat 0 := c1]> (x0 :: x1 :: t)) with (c1 :: x1 :: t).
  change (to_byte (0 + 1)) with 1.
  rewrite (decode_terminator ce ne _ He). cbn zeta.
  assert ((ce =? COMMA) = false) as -> by (apply Z.eqb_neq; exact Hne).
  record_simpl.
  rewrite term_put_inside by (cbn [length]; lia).
  change (<[Z.to_nat 1 := 0]> (c1 :: x1 :: t)) with (c1 :: 0 :: t).
  record_simpl. unfold parse_term.
  erewrite parse_term_checksum; [|reflexivity|reflexivity].
  unfold expected_checksum. cbn zeta. record_simpl.
  destruct (types_eqb ty XTE2);
    match goal with |- context [if ?a =? ?b then _ else _] => destruct (a =? b) end;
    eexists; (split; [reflexivity|]); reflexivity.
Qed.

(** X18. A checksum token of a single digit is not turned down as such.
    The terminator of the token writes the NUL at [term[1]], and
    [parse_term] takes this NUL for the second digit: [hex_to_int] gives
    -48 for it.  For a sentence whose type is not XTE2 the value compared
    with the XOR of the payload is 16 times the digit minus 48, as a byte,
    and [decode] returns true exactly when the two are equal. *)
Theorem one_digit_checksum_token
    (g : FarmGPS F) (start t0 tstar : Z) (payload : list (Z * Z)) (h e : Z * Z) :
  length (term (parser g)) = 20%nat ->
  is_start start = true ->
  forallb payload_byte payload.*1 = true ->
  terminators payload.*1 <= 254 ->
  stored (first_field payload.*1) <> chars "ROXTE" ->
  is_hex_digit h.1 = true ->
  is_terminator e.1 = true -> e.1 <> COMMA ->
  let accepted := to_byte (16 * hex_to_int h.1 - 48) =? nmea_xor payload.*1 in
  exists g',
    feed ((start, t0) :: payload ++ [(STAR, tstar); h; e]) g
    = Done (replicate (length payload + 3) false ++ [accepted], g')
    /\ (accepted = false -> pub g' = pub g).
Proof.
  intros Hlen Hs Hall Hterm Hty Hh He Hne accepted.
  destruct (step_start start t0 g Hlen Hs) as (g1 & Hd1 & Hin1 & Hp1 & _ & Hn1 & Hpar1 & _).
  destruct (feed_body payload tstar g1 [] Hin1 Hn1 Hall Hterm)
    as (g2 & Hf2 & Hp2 & Hl2 & Ho2 & Hi2 & Hpar2 & Hty2).
  rewrite Hpar1, Z.lxor_0_l in Hpar2.
  rewrite app_nil_l, type_of_token_take in Hty2.
  destruct (short_token g2 h e Hl2 Ho2 Hi2 (hex_digit_default _ Hh) He Hne)
    as (g3 & Hf3 & Hp3).
  cbn zeta in Hf3, Hp3.
  assert (types_eqb (sentence_type (parser g2)) XTE2 = false) as Hx.
  { rewrite Hty2.
    destruct (type_of_token (stored (first_field payload.*1))) eqn:E; try reflexivity.
    apply type_of_token_cases in E. contradiction. }
  rewrite Hx, Hpar2 in Hf3, Hp3.
  change (hex_to_int 0) with (-48) in Hf3, Hp3.
  replace (16 * hex_to_int h.1 + -48) with (16 * hex_to_int h.1 - 48) in Hf3, Hp3 by lia.
  fold accepted in Hf3, Hp3.
  exists g3. split.
  - replace (replicate (length payload + 3) false ++ [accepted])
      with (false :: replicate (length payload + 1) false ++ [false; accepted]).
    2:{ replace (length payload + 3)%nat with (S (length payload + 1) + 1)%nat by lia.
        rewrite (replicate_add (S (length payload + 1)) 1), <- app_assoc. reflexivity. }
    eapply feed_cons_done; [exact Hd1|].
    change (payload ++ [(STAR, tstar); h; e]) with (payload ++ [(STAR, tstar)] ++ [h; e]).
    rewrite app_assoc.
    eapply feed_app_done; [exact Hf2 | exact Hf3].
  - intros E. rewrite E in Hp3. congruence.
Qed.

End OtherSentences.


Lemma one_digit_checksum_token_witness :
  exists g',
    feed ((36, 3) :: Exact.text "P" 3 ++ [(STAR, 3); (56, 3); (13, 3)]) Exact.fresh
    = Done (replicate (length (Exact.text "P" 3) + 3) false
              ++ [to_byte (16 * hex_to_int 56 - 48) =? nmea_xor (Exact.text "P" 3).*1], g')
    /\ ((to_byte (16 * hex_to_int 56 - 48) =? nmea_xor (Exact.text "P" 3).*1) = false
        -> pub g' = pub Exact.fresh).
Proof.
  apply (one_digit_checksum_token Exact.fresh 36 3 3 (Exact.text "P" 3) (56, 3) (13, 3));
    evaluated.
Defined.
